(** * game-analyzer: the Reddit acquisition-and-curation pipeline of
      [backend/server.py]

    A shallow embedding of the quality filter, the diversity/recency
    selection, the comment sampler, the windowed search loop, the result
    cache and the scan throttle, with the properties stated about them.

    Conventions of the embedding:
    - a post or comment dict is a record with the keys the fetchers build;
    - Python [int] is [Z], [len] of a [str] is [String.length] (one [ascii]
      per character), a list is a [list];
    - [time.time()] is a float with sub-second resolution: clock readings are
      rationals ([Q]) and are passed in explicitly;
    - a module-level dict is a [gmap string _] threaded through the calls;
    - floating-point arithmetic on ranks is not evaluated: the value of the
      rank formula is a parameter [rank_value] of the development, so every
      theorem holds whatever the floats are. *)

From Stdlib Require Import ZArith QArith Lqa String Ascii List Lia Permutation Sorted.
From stdpp Require Import gmap strings list pretty.
Close Scope Q_scope.

(** ** Python primitives *)

Module Py.

(** [x < y] on clock readings and float-valued keys. *)
Definition Qltb (x y : Q) : bool := negb (Qle_bool y x).

(** [int(x)]: truncation toward zero. *)
Definition int (x : Q) : Z := Z.quot (Qnum x) (Z.pos (Qden x)).

(** [sorted(l, key=..., reverse=True)]: [gt a b] says that the key of [a] is
    strictly greater than the key of [b].  The sort is stable, also with
    [reverse=True]: elements with equal keys keep their input order. *)
Fixpoint insert_desc {A} (gt : A -> A -> bool) (x : A) (l : list A) : list A :=
  match l with
  | [] => [x]
  | y :: l' => if gt y x then y :: insert_desc gt x l' else x :: y :: l'
  end.

Fixpoint sorted_reverse {A} (gt : A -> A -> bool) (l : list A) : list A :=
  match l with
  | [] => []
  | x :: l' => insert_desc gt x (sorted_reverse gt l')
  end.

(** [l[:n]] for [n >= 0]. *)
Definition slice_to {A} (n : nat) (l : list A) : list A := take n l.

(** The index found by
    [for i in range(len(l) - 1, -1, -1): if f(l[i]): ...; break]. *)
Fixpoint last_index_where {A} (f : A -> bool) (l : list A) : option nat :=
  match l with
  | [] => None
  | x :: l' =>
      match last_index_where f l' with
      | Some i => Some (S i)
      | None => if f x then Some 0 else None
      end
  end.

End Py.

(** ** Data model *)

Module Post.

Record t := mk {
  id : string;
  title : string;
  selftext : string;
  score : Z;
  created_utc : Z;
  num_comments : Z;
  author : string;
  permalink : string
}.

Definition eq_dec (p q : t) : {p = q} + {p <> q}.
Proof. decide equality; solve [apply string_dec | apply Z.eq_dec]. Defined.

End Post.

Module Comment.

Record t := mk {
  id : string;
  body : string;
  score : Z;
  created_utc : Z;
  author : string
}.

End Comment.

(** The public shape of a selected comment: [{id, body, score}]. *)
Module Selected.

Record t := mk { id : string; body : string; score : Z }.

End Selected.

(** ** Constants *)

Definition CACHE_TTL_SECONDS : Z := 600.
Definition THROTTLE_SECONDS : Z := 30.
Definition TOP_POSTS_FOR_COMMENTS : nat := 15.
Definition MAX_COMMENTS_PER_POST : nat := 10.
Definition COMMENT_BODY_TRUNCATE : nat := 400.
Definition MAX_POSTS_FINAL : nat := 100.
Definition MAX_POSTS_PER_AUTHOR : nat := 3.
Definition MAX_NO_COMMENT_POSTS : nat := 20.
Definition MIN_RECENT_POSTS : nat := 20.

(** ** apply_quality_filter *)

Definition is_low_quality (post : Post.t) : bool :=
  (Post.num_comments post =? 0)%Z
  && (Post.score post <=? 1)%Z
  && ((String.length (Post.selftext post) =? 0)
      || (String.length (Post.selftext post) <? 80))
  && (String.length (Post.title post) <? 25).

(** The [for post in posts] loop, with [filtered] as its accumulator. *)
Fixpoint quality_loop (posts filtered : list Post.t) : list Post.t :=
  match posts with
  | [] => filtered
  | post :: rest =>
      quality_loop rest
        (if is_low_quality post then filtered else filtered ++ [post])
  end.

Definition apply_quality_filter (posts : list Post.t) : list Post.t :=
  quality_loop posts [].

(** The drop condition in the words of the specification. *)
Definition dropped (post : Post.t) : Prop :=
  Post.num_comments post = 0%Z
  /\ (Post.score post <= 1)%Z
  /\ (String.length (Post.selftext post) = 0
      \/ String.length (Post.selftext post) < 80)
  /\ String.length (Post.title post) < 25.

(** ** State of apply_diversity_and_recency *)

(** The local variables of the first pass. *)
Record Selection := mkSelection {
  selected : list Post.t;
  author_count : gmap string nat;
  no_comment_count : nat;
  recent_in_selection : nat;
  deferred_recent : list Post.t
}.

Definition empty_selection : Selection :=
  mkSelection [] ∅ 0 0 [].

(** [deferred_recent.append(post)] under [if is_recent]. *)
Definition defer_if (recent : bool) (post : Post.t) (st : Selection) : Selection :=
  if recent
  then mkSelection (selected st) (author_count st) (no_comment_count st)
         (recent_in_selection st) (deferred_recent st ++ [post])
  else st.

(** The "Add post" block of the first pass. *)
Definition add_post (recent : bool) (post : Post.t) (author_posts : nat)
    (st : Selection) : Selection :=
  mkSelection
    (selected st ++ [post])
    (<[Post.author post := author_posts + 1]> (author_count st))
    (if (Post.num_comments post =? 0)%Z
     then no_comment_count st + 1 else no_comment_count st)
    (if recent then recent_in_selection st + 1 else recent_in_selection st)
    (deferred_recent st).

(** ** select_best_comments: helpers that need no parameter *)

(** The sort key [(score, len(body), created_utc)], compared as Python
    compares tuples. *)
Definition comment_key_gt (a b : Comment.t) : bool :=
  (Comment.score a >? Comment.score b)%Z
  || ((Comment.score a =? Comment.score b)%Z
      && ((String.length (Comment.body b) <? String.length (Comment.body a))
          || ((String.length (Comment.body a) =? String.length (Comment.body b))
              && (Comment.created_utc a >? Comment.created_utc b)%Z))).

(** [len(body) > COMMENT_BODY_TRUNCATE] and the slice with the ellipsis. *)
Definition truncate_body (body : string) : string :=
  if COMMENT_BODY_TRUNCATE <? String.length body
  then String.substring 0 COMMENT_BODY_TRUNCATE body +:+ "..."
  else body.

(** The character class [[A-Za-z0-9_-]]. *)
Definition is_name_char (c : ascii) : bool :=
  let n := nat_of_ascii c in
  ((65 <=? n) && (n <=? 90)) || ((97 <=? n) && (n <=? 122))
  || ((48 <=? n) && (n <=? 57)) || (n =? 95) || (n =? 45).

(** Whether the pattern [/?u/[A-Za-z0-9_-]+] matches at the head of [s];
    the result is the length of the part before the name (2 for [u/], 3 for
    [/u/]). *)
Definition mention_prefix (s : string) : option nat :=
  match s with
  | String a (String b (String c r)) =>
      if Ascii.eqb a "u" && Ascii.eqb b "/" && is_name_char c then Some 2
      else
        match r with
        | String d _ =>
            if Ascii.eqb a "/" && Ascii.eqb b "u" && Ascii.eqb c "/"
               && is_name_char d
            then Some 3 else None
        | EmptyString => None
        end
  | _ => None
  end.

(** [re.sub(r'/?u/[A-Za-z0-9_-]+', '[user]', body)], one character at a
    time, left to right: [skip] characters of the prefix of the current
    match are still to be dropped, and [in_name] says that the scan is inside
    the name of the current match (the [+] is greedy, so the name runs up to
    the first character outside the class).  Matches do not overlap and are
    never empty. *)
Fixpoint sub_mentions (skip : nat) (in_name : bool) (s : string) : string :=
  match s with
  | EmptyString => EmptyString
  | String c rest =>
      match skip with
      | S k => sub_mentions k in_name rest
      | O =>
          if in_name && is_name_char c then sub_mentions 0 true rest
          else
            match mention_prefix s with
            | Some n => "[user]" +:+ sub_mentions (n - 1) true rest
            | None => String c (sub_mentions 0 false rest)
            end
      end
  end.

Definition redact_mentions (body : string) : string :=
  sub_mentions 0 false body.

(** The body of the [for c in sorted_comments[:max_count]] loop. *)
Definition sample_comment (c : Comment.t) : Selected.t :=
  Selected.mk (Comment.id c)
    (redact_mentions (truncate_body (Comment.body c)))
    (Comment.score c).

Definition select_best_comments (comments : list Comment.t) (max_count : nat)
    : list Selected.t :=
  let sorted_comments := Py.sorted_reverse comment_key_gt comments in
  map sample_comment (Py.slice_to max_count sorted_comments).

(** ** Debug record, upstream answers and cache entries *)

Record DebugInfo := mkDebug {
  subreddit_normalized : string;
  posts_url : string;
  posts_status : option Z;
  raw_post_count : nat;
  after_quality_filter : nat;
  final_post_count : nat;
  comments_fetched_for : nat;
  total_comments : nat;
  window_used : string;
  error_details : option string;
  data_source : string
}.

(** [DebugInfo(subreddit_normalized=..., error_details=...)]: the other
    fields take the defaults of the class. *)
Definition new_debug (normalized : string) (details : option string) : DebugInfo :=
  mkDebug normalized "" None 0 0 0 0 0 "" details "arctic-shift".

Definition set_window_request (url : string) (status : option Z) (d : DebugInfo) :=
  mkDebug (subreddit_normalized d) url status (raw_post_count d)
    (after_quality_filter d) (final_post_count d) (comments_fetched_for d)
    (total_comments d) (window_used d) (error_details d) (data_source d).

Definition set_error_details (details : option string) (d : DebugInfo) :=
  mkDebug (subreddit_normalized d) (posts_url d) (posts_status d)
    (raw_post_count d) (after_quality_filter d) (final_post_count d)
    (comments_fetched_for d) (total_comments d) (window_used d) details
    (data_source d).

Definition set_counts (raw filtered : nat) (d : DebugInfo) :=
  mkDebug (subreddit_normalized d) (posts_url d) (posts_status d) raw filtered
    (final_post_count d) (comments_fetched_for d) (total_comments d)
    (window_used d) (error_details d) (data_source d).

Definition set_window_used (w : string) (d : DebugInfo) :=
  mkDebug (subreddit_normalized d) (posts_url d) (posts_status d)
    (raw_post_count d) (after_quality_filter d) (final_post_count d)
    (comments_fetched_for d) (total_comments d) w (error_details d)
    (data_source d).

Definition set_final_counts (final fetched_for total : nat) (d : DebugInfo) :=
  mkDebug (subreddit_normalized d) (posts_url d) (posts_status d)
    (raw_post_count d) (after_quality_filter d) final fetched_for total
    (window_used d) (error_details d) (data_source d).

(** One entry of [post_comments]: [{post_id, post_title, comments}]. *)
Record PostComments := mkPostComments {
  pc_post_id : string;
  pc_post_title : string;
  pc_comments : list Selected.t
}.

(** The two network helpers as seen by one call of [fetch_reddit_posts]:
    what [fetch_arctic_shift_posts(subreddit, after, before)] returns,
    [(posts, status, error)], and what [fetch_arctic_shift_comments(post_id)]
    returns, [(comments, error)].  HTTP, JSON decoding and the per-post
    comment cache are behind these two answers. *)
Record Upstream := mkUpstream {
  fetch_arctic_shift_posts :
    string -> string -> string -> list Post.t * option Z * option string;
  fetch_arctic_shift_comments : string -> list Comment.t * option string
}.

(** A value of [reddit_cache]:
    [{"data": {"posts": ..., "comments": ...}, "timestamp": ...}]. *)
Record CacheEntry := mkCacheEntry {
  data_posts : list Post.t;
  data_comments : list PostComments;
  timestamp : Q
}.

(** What [fetch_reddit_posts] returns:
    [(posts, post_comments, error, used_cache, debug_info)]. *)
Record FetchResult := mkFetchResult {
  r_posts : list Post.t;
  r_post_comments : list PostComments;
  r_error : option string;
  r_used_cache : bool;
  r_debug : DebugInfo
}.

(** How the loop over the windows ends: by the early [return] on a rate
    limit or server error, or by leaving the loop ([break] or exhaustion).
    [requests] lists the windows requested so far, in order. *)
Inductive Search :=
| Aborted (error : option string) (debug : DebugInfo)
    (requests : list (string * string))
| Finished (posts : list Post.t) (used_window : string) (debug : DebugInfo)
    (requests : list (string * string)).

Definition requests_of (s : Search) : list (string * string) :=
  match s with
  | Aborted _ _ r => r
  | Finished _ _ _ r => r
  end.

(** Truth value of an [Optional[str]] in [if error:]. *)
Definition truthy (error : option string) : bool :=
  match error with
  | Some s => negb (s =? "")%string
  | None => false
  end.

(** [status in [429, 502, 503, 504]]. *)
Definition aborting_status (status : option Z) : bool :=
  match status with
  | Some s => (s =? 429)%Z || (s =? 502)%Z || (s =? 503)%Z || (s =? 504)%Z
  | None => false
  end.

Definition ARCTIC_SHIFT_BASE : string := "https://arctic-shift.photon-reddit.com".

Definition windows : list (string * string) :=
  [("8d", "36h"); ("8d", "12h"); ("8d", "0h")]%string.

Definition window_str (w : string * string) : string :=
  fst w +:+ ".." +:+ snd w.

(** ** Vocabulary of the stated properties *)

(** Number of elements of [l] on which [f] holds. *)
Definition count_where {A} (f : A -> bool) (l : list A) : nat :=
  length (List.filter f l).

Definition by_author (a : string) (p : Post.t) : bool :=
  (Post.author p =? a)%string.

Definition zero_replies (p : Post.t) : bool :=
  (Post.num_comments p =? 0)%Z.

Definition same_post (p q : Post.t) : bool :=
  if Post.eq_dec q p then true else false.

(** ** Concrete inputs of the examples *)

Definition example_now : Q := inject_Z 1700000000.

(** One day and five days before [example_now]. *)
Definition one_day_old : Z := 1699913600.
Definition five_days_old : Z := 1699568000.

(** A post with score 5, one reply and an empty body. *)
Definition example_post (id author : string) (created_utc : Z) : Post.t :=
  Post.mk id "Patch 1.2 discussion thread" "" 5 created_utc 1 author
    ("https://www.reddit.com/comments/" +:+ id).

(** Four recent posts of one author. *)
Definition four_by_alice : list Post.t :=
  map (fun i : nat => example_post ("a" +:+ pretty i) "alice" one_day_old)
    (seq 0 4).

(** Twenty recent posts of twenty authors. *)
Definition twenty_recent : list Post.t :=
  map (fun i : nat =>
         example_post ("new" +:+ pretty i) ("newuser" +:+ pretty i) one_day_old)
    (seq 0 20).

(** A hundred older posts of a hundred authors. *)
Definition hundred_older : list Post.t :=
  map (fun i : nat =>
         example_post ("old" +:+ pretty i) ("olduser" +:+ pretty i) five_days_old)
    (seq 0 100).

(** The older posts first, then the recent ones: all 120 posts have the
    same score, reply count and body length, hence the same rank. *)
Definition crowded_posts : list Post.t := hundred_older ++ twenty_recent.

(** Twenty-three recent posts of one author, then the older posts: the
    author cap lets three of the recent posts in and defers twenty, and the
    older posts fill the selection up to the global cap. *)
Definition recent_by_one_author : list Post.t :=
  map (fun i : nat => example_post ("a" +:+ pretty i) "alice" one_day_old)
    (seq 0 23).

Definition recent_then_older : list Post.t :=
  recent_by_one_author ++ hundred_older.

(** A stand-in for the float rank where an example needs a concrete one. *)
Definition example_rank (score num_comments : Z) (len : nat) : Q :=
  inject_Z (score + 2 * num_comments).

(** The subject of the examples is already normalized and in lower case. *)
Definition already_normal (s : string) : string := s.

(** A comment of 58 short mentions, 232 characters long. *)
Definition mention_comment : Comment.t :=
  Comment.mk "c1" (String.concat "" (repeat "u/a "%string 58)) 1 one_day_old "bob".

Definition plain_comment : Comment.t :=
  Comment.mk "c2" "Nice patch" 3 one_day_old "bob".

(** Upstreams: every window answers 200 good posts; *)
Definition up_full : Upstream :=
  mkUpstream
    (fun _ _ _ =>
       (map (fun i : nat => example_post (pretty i) (pretty i) one_day_old)
          (seq 0 200), Some 200%Z, None))
    (fun _ => ([], None)).

(** the windows answer 3, 7 and 5 good posts; *)
Definition up_small : Upstream :=
  mkUpstream
    (fun _ _ before =>
       let n := if (before =? "36h")%string then 3
                else if (before =? "12h")%string then 7 else 5 in
       (map (fun i : nat => example_post (pretty i) (pretty i) one_day_old)
          (seq 0 n), Some 200%Z, None))
    (fun _ => ([plain_comment], None)).

(** every window is answered with HTTP 404. *)
Definition up_not_found : Upstream :=
  mkUpstream
    (fun _ _ _ => ([], Some 404%Z, Some "Subreddit not found. Check spelling."%string))
    (fun _ => ([], None)).

(** the first window yields 3 good posts, the wider ones are answered with
    HTTP 404; *)
Definition up_rejected_after_first : Upstream :=
  mkUpstream
    (fun _ _ before =>
       if (before =? "36h")%string
       then (map (fun i : nat => example_post (pretty i) (pretty i) one_day_old)
               (seq 0 3), Some 200%Z, None)
       else ([], Some 404%Z, Some "Subreddit not found. Check spelling."%string))
    (fun _ => ([plain_comment], None)).

(** the first window yields 100 good posts, the wider ones are answered
    with HTTP 429. *)
Definition up_overloaded : Upstream :=
  mkUpstream
    (fun _ _ before =>
       if (before =? "36h")%string
       then (map (fun i : nat => example_post (pretty i) (pretty i) one_day_old)
               (seq 0 100), Some 200%Z, None)
       else ([], Some 429%Z, Some "Rate limited. Try again later."%string))
    (fun _ => ([plain_comment], None)).

(** * The other functions of [backend/server.py]: definitions *)

(** ** Python [str] methods

    Strings hold one character per [ascii], code points 0 to 255. *)

Module Str.

(** [c.isspace()], which is also what [\s] matches in a [str] pattern. *)
Definition isspace (c : ascii) : bool :=
  let n := nat_of_ascii c in
  ((9 <=? n) && (n <=? 13)) || ((28 <=? n) && (n <=? 32))
  || (n =? 133) || (n =? 160).

(** [s.lstrip(chars)] and [s.rstrip(chars)], for the characters [p]. *)
Fixpoint lstrip_chars (p : ascii -> bool) (s : string) : string :=
  match s with
  | EmptyString => EmptyString
  | String c r => if p c then lstrip_chars p r else s
  end.

Fixpoint rstrip_chars (p : ascii -> bool) (s : string) : string :=
  match s with
  | EmptyString => EmptyString
  | String c r =>
      match rstrip_chars p r with
      | EmptyString => if p c then EmptyString else String c EmptyString
      | r' => String c r'
      end
  end.

(** [s.strip()]. *)
Definition strip (s : string) : string :=
  rstrip_chars isspace (lstrip_chars isspace s).

(** [c.lower()]: the upper-case letters below 256 are A-Z and the letters
    from 192 to 222 except the multiplication sign 215. *)
Definition lower_char (c : ascii) : ascii :=
  let n := nat_of_ascii c in
  if ((65 <=? n) && (n <=? 90))
     || ((192 <=? n) && (n <=? 222) && negb (n =? 215))
  then ascii_of_nat (n + 32) else c.

(** [s.lower()]. *)
Fixpoint lower (s : string) : string :=
  match s with
  | EmptyString => EmptyString
  | String c r => String (lower_char c) (lower r)
  end.


(** [s[n:]] for [n >= 0]. *)
Fixpoint slice_from (n : nat) (s : string) : string :=
  match n, s with
  | O, _ => s
  | S n', String _ r => slice_from n' r
  | S _, EmptyString => EmptyString
  end.

(** The rest of [s] after a literal [pat] when [s] starts with it. *)
Fixpoint after_literal (pat s : string) : option string :=
  match pat, s with
  | EmptyString, _ => Some s
  | String a pat', String b s' =>
      if Ascii.eqb a b then after_literal pat' s' else None
  | String _ _, EmptyString => None
  end.

(** [s.startswith(prefix)]. *)
Definition startswith (s prefix : string) : bool :=
  match after_literal prefix s with
  | Some _ => true
  | None => false
  end.

(** The same under [re.IGNORECASE], for a pattern of ASCII characters. *)
Fixpoint after_literal_ci (pat s : string) : option string :=
  match pat, s with
  | EmptyString, _ => Some s
  | String a pat', String b s' =>
      if Ascii.eqb (lower_char a) (lower_char b)
      then after_literal_ci pat' s' else None
  | String _ _, EmptyString => None
  end.

(** The longest prefix of [s] whose characters satisfy [p]: what a greedy
    [[...]*] consumes. *)
Fixpoint run (p : ascii -> bool) (s : string) : string :=
  match s with
  | EmptyString => EmptyString
  | String c r => if p c then String c (run p r) else EmptyString
  end.

(** [s.split(sep)] for a one-character separator. *)
Fixpoint split (sep : ascii) (s : string) : list string :=
  match s with
  | EmptyString => [EmptyString]
  | String c r =>
      if Ascii.eqb c sep then EmptyString :: split sep r
      else
        match split sep r with
        | [] => [String c EmptyString]
        | part :: parts => String c part :: parts
        end
  end.

(** [s.endswith(suffix)]. *)
Definition endswith (s suffix : string) : bool :=
  (String.length suffix <=? String.length s)
  && (slice_from (String.length s - String.length suffix) s =? suffix)%string.

(** [s[:-n]] for [n > 0]. *)
Definition drop_last (n : nat) (s : string) : string :=
  String.substring 0 (String.length s - n) s.

End Str.

(** ** normalize_subreddit *)

(** The character class [[^/\s?]]. *)
Definition is_name_part (c : ascii) : bool :=
  negb (Ascii.eqb c "/" || Str.isspace c || Ascii.eqb c "?").

(** [(?:https?://)?]: the group either matches as a whole or is skipped. *)
Definition skip_scheme (s : string) : string :=
  match Str.after_literal_ci "http" s with
  | Some r =>
      let r := match Str.after_literal_ci "s" r with Some r' => r' | None => r end in
      match Str.after_literal_ci "://" r with
      | Some t => t
      | None => s
      end
  | None => s
  end.

(** [(?:www\.)?]. *)
Definition skip_www (s : string) : string :=
  match Str.after_literal_ci "www." s with
  | Some t => t
  | None => s
  end.

(** [re.match(r'(?:https?://)?(?:www\.)?reddit\.com/r/([^/\s?]+)', s,
    re.IGNORECASE)], with the text of group 1 as result.  When an optional
    group has matched, skipping it instead cannot help: the text then starts
    with [h] or [w] where [reddit] would have to start. *)
Definition url_match (s : string) : option string :=
  match Str.after_literal_ci "reddit.com/r/" (skip_www (skip_scheme s)) with
  | Some rest =>
      match Str.run is_name_part rest with
      | EmptyString => None
      | name => Some name
      end
  | None => None
  end.

(** The body of the function after [normalized = input_str.strip()]. *)
Definition after_strip (normalized : string) : string :=
  match url_match normalized with
  | Some name => name
  | None =>
      let normalized :=
        if Str.startswith (Str.lower normalized) "r/"
        then Str.slice_from 2 normalized else normalized in
      Str.rstrip_chars (Ascii.eqb "/") normalized
  end.

Definition normalize_subreddit (input_str : string) : string :=
  if (input_str =? "")%string then ""%string
  else after_strip (Str.strip input_str).

(** Vocabulary: every character of [s] satisfies [p]; the last character of
    [s], if any, does not satisfy [p]. *)
Fixpoint all_chars (p : ascii -> bool) (s : string) : bool :=
  match s with
  | EmptyString => true
  | String c r => p c && all_chars p r
  end.

Fixpoint last_not (p : ascii -> bool) (s : string) : bool :=
  match s with
  | EmptyString => true
  | String c EmptyString => negb (p c)
  | String _ r => last_not p r
  end.

(** The first character of [s], if any, does not satisfy [p]. *)
Definition first_not (p : ascii -> bool) (s : string) : bool :=
  match s with
  | EmptyString => true
  | String c _ => negb (p c)
  end.

(** A subreddit name as the URL pattern accepts it. *)
Definition name_like (name : string) : bool := all_chars is_name_part name.

(** ** The two Arctic Shift requests

    A reply of the network is what [httpx] hands to the function: an
    exception, or a response with its status code, its [Retry-After] header
    and its body.  The body is given by the cases the code tells apart.  A
    JSON object of the [data] array is a record of optional fields: [None]
    for a key that is absent or [null], a value of the documented type
    otherwise. *)

Module ArcticShift.

Inductive Item (A : Type) : Type :=
| NotADict
| Dict (d : A).
Arguments NotADict {A}.
Arguments Dict {A} d.

(** The fields requested for a post. *)
Record PostData := mkPostData {
  pd_id : option string;
  pd_title : option string;
  pd_selftext : option string;
  pd_score : option Z;
  pd_created_utc : option Z;
  pd_num_comments : option Z;
  pd_author : option string
}.

(** The body of a post search: [response.json()] raises
    [json.JSONDecodeError], or raises another exception (a body that is not
    UTF-8, say) with the text [message], or gives something that is not a
    dict, or a dict whose [data] is not a list, or a dict with the list
    [items] as [data] (no [data] key counts as the empty list). *)
Inductive PostsBody :=
| InvalidJson
| JsonRaises (message : string)
| NotAnObject
| DataNotAList
| Data (items : list (Item PostData)).

Inductive PostsReply :=
| TimeoutException
| ConnectError
| OtherException (message : string)
| Response (status_code : Z) (retry_after : option string) (body : PostsBody).

(** One turn of [for post_data in posts_data]. *)
Definition parse_post (post_data : Item PostData) : option Post.t :=
  match post_data with
  | NotADict => None
  | Dict d =>
      let post_id := default ""%string (pd_id d) in
      if (post_id =? "")%string then None
      else
        Some (Post.mk post_id
                (default ""%string (pd_title d))
                (default ""%string (pd_selftext d))
                (default 0%Z (pd_score d))
                (default 0%Z (pd_created_utc d))
                (default 0%Z (pd_num_comments d))
                (default ""%string (pd_author d))
                ("https://www.reddit.com/comments/" +:+ post_id))
  end.

(** [fetch_arctic_shift_posts(subreddit, after, before)] as a function of
    the reply to its request; the three arguments only build the URL. *)
Definition fetch_arctic_shift_posts (reply : PostsReply)
    : list Post.t * option Z * option string :=
  match reply with
  | TimeoutException =>
      ([], None, Some "Request timed out. Try again or reduce time window."%string)
  | ConnectError =>
      ([], None, Some "Could not connect to Arctic Shift. Check connection."%string)
  | OtherException message => ([], None, Some ("Network error: " +:+ message))
  | Response status retry_after body =>
      if (status =? 404)%Z then
        ([], Some status, Some "Subreddit not found. Check spelling."%string)
      else if (status =? 429)%Z then
        let retry_msg :=
          match retry_after with
          | Some r => if (r =? "")%string then ""%string
                      else " (retry after " +:+ r +:+ "s)"
          | None => ""%string
          end in
        ([], Some status, Some ("Rate limited" +:+ retry_msg +:+ ". Try again later."))
      else if (status =? 403)%Z then
        ([], Some status, Some "Access forbidden."%string)
      else if (status =? 400)%Z then
        ([], Some status, Some "Bad request. Check subreddit name."%string)
      else if (status =? 502)%Z || (status =? 503)%Z then
        ([], Some status,
         Some "Arctic Shift service temporarily unavailable. Try again later."%string)
      else if (status =? 504)%Z then
        ([], Some status, Some "Request timed out. Try reducing the time window."%string)
      else if negb (status =? 200)%Z then
        ([], Some status, Some ("Arctic Shift returned HTTP " +:+ pretty status +:+ "."))
      else
        match body with
        | InvalidJson =>
            ([], Some status, Some "Invalid JSON response from Arctic Shift."%string)
        | JsonRaises message => ([], None, Some ("Network error: " +:+ message))
        | NotAnObject => ([], Some status, Some "Unexpected response format."%string)
        | DataNotAList =>
            ([], Some status, Some "Unexpected response. 'data' is not an array."%string)
        | Data posts_data => (omap parse_post posts_data, Some status, None)
        end
  end.

(** The fields requested for a comment. *)
Record CommentData := mkCommentData {
  cd_id : option string;
  cd_body : option string;
  cd_score : option Z;
  cd_created_utc : option Z;
  cd_author : option string;
  cd_parent_id : option string
}.

(** The body of a comment search: reading it raises (invalid JSON, no
    [get], a [data] that cannot be iterated), or it yields the elements of
    [data]. *)
Inductive CommentsBody :=
| Unreadable (message : string)
| Elements (items : list (Item CommentData)).

Inductive CommentsReply :=
| CommentsException (message : string)
| CommentsResponse (status_code : Z) (body : CommentsBody).

(** A value of [comments_cache]: [{"data": ..., "timestamp": ...}]. *)
Record CommentsEntry := mkCommentsEntry {
  ce_data : list Comment.t;
  ce_timestamp : Q
}.

(** [parent_id and not parent_id.startswith("t3_")] is false. *)
Definition top_level (d : CommentData) : bool :=
  match cd_parent_id d with
  | Some parent_id =>
      (parent_id =? "")%string || Str.startswith parent_id "t3_"
  | None => true
  end.

(** [body in ["[deleted]", "[removed]", ""]]. *)
Definition removed_body (body : string) : bool :=
  (body =? "[deleted]")%string || (body =? "[removed]")%string
  || (body =? "")%string.

(** One turn of [for c in comments_data]. *)
Definition parse_comment (c : Item CommentData) : option Comment.t :=
  match c with
  | NotADict => None
  | Dict d =>
      if negb (top_level d) then None
      else
        let body := default ""%string (cd_body d) in
        if removed_body body then None
        else
          Some (Comment.mk (default ""%string (cd_id d)) body
                  (default 0%Z (cd_score d))
                  (default 0%Z (cd_created_utc d))
                  (default ""%string (cd_author d)))
  end.

(** [fetch_arctic_shift_comments(post_id)]: [current_time] is the reading
    of [time.time()], [reply] the answer to the request if one is sent; the
    result comes with the value of [comments_cache] after the call. *)
Definition fetch_arctic_shift_comments (reply : CommentsReply)
    (current_time : Q) (post_id : string)
    (comments_cache : gmap string CommentsEntry)
    : (list Comment.t * option string) * gmap string CommentsEntry :=
  let cache_key := ("comments_" +:+ post_id)%string in
  let cached :=
    match comments_cache !! cache_key with
    | Some cache_entry =>
        if Py.Qltb (current_time - ce_timestamp cache_entry)%Q
             (inject_Z CACHE_TTL_SECONDS)
        then Some (ce_data cache_entry) else None
    | None => None
    end in
  match cached with
  | Some data => ((data, None), comments_cache)
  | None =>
      match reply with
      | CommentsException message => (([], Some message), comments_cache)
      | CommentsResponse status body =>
          if negb (status =? 200)%Z then
            (([], Some ("Failed to fetch comments (HTTP " +:+ pretty status +:+ ")")),
             comments_cache)
          else
            match body with
            | Unreadable message => (([], Some message), comments_cache)
            | Elements comments_data =>
                let comments := omap parse_comment comments_data in
                ((comments, None),
                 <[cache_key := mkCommentsEntry comments current_time]>
                   comments_cache)
            end
      end
  end.

End ArcticShift.

(** The upstream of [fetch_reddit_posts] when the network answers the post
    searches by [posts_reply] and the comment searches are answered by
    [comments]. *)
Definition upstream_of
    (posts_reply : string -> string -> string -> ArcticShift.PostsReply)
    (comments : string -> list Comment.t * option string) : Upstream :=
  mkUpstream
    (fun subreddit after before =>
       ArcticShift.fetch_arctic_shift_posts (posts_reply subreddit after before))
    comments.

(** ** Vocabulary for the comment search, the sampler and the cache *)

Definition comments_key (post_id : string) : string := ("comments_" +:+ post_id)%string.

(** There is no entry younger than the TTL for the post at [current_time]. *)
Definition no_fresh_comments (comments_cache : gmap string ArcticShift.CommentsEntry)
    (post_id : string) (current_time : Q) : Prop :=
  forall entry,
    comments_cache !! comments_key post_id = Some entry ->
    (inject_Z CACHE_TTL_SECONDS <= current_time - ArcticShift.ce_timestamp entry)%Q.

(** The body of a comment is none of the three placeholders. *)
Definition live_comment (c : Comment.t) : bool :=
  negb (ArcticShift.removed_body (Comment.body c)).

(** The comment order in words: higher score first, then the longer body,
    then the more recent comment. *)
Definition comment_before (a b : Comment.t) : Prop :=
  (Comment.score b < Comment.score a)%Z
  \/ (Comment.score a = Comment.score b
      /\ (String.length (Comment.body b) < String.length (Comment.body a)
          \/ (String.length (Comment.body a) = String.length (Comment.body b)
              /\ (Comment.created_utc b <= Comment.created_utc a)%Z))).

(** Every cache entry holds between 1 and 100 posts. *)
Definition cache_holds_results (reddit_cache : gmap string CacheEntry) : Prop :=
  forall key entry,
    reddit_cache !! key = Some entry ->
    1 <= length (data_posts entry) <= 100.

(** ** Password hashing *)

(** The characters of [secrets.token_hex] and of [hexdigest]. *)
Definition is_hexdigit (c : ascii) : bool :=
  let n := nat_of_ascii c in
  ((48 <=? n) && (n <=? 57)) || ((97 <=? n) && (n <=? 102)).

(** [s.count(c)] for a character [c]. *)
Fixpoint count_char (c : ascii) (s : string) : nat :=
  match s with
  | EmptyString => 0
  | String x r => (if Ascii.eqb x c then 1 else 0) + count_char c r
  end.

Section Passwords.

(** [hashlib.sha256(s.encode()).hexdigest()]. *)
Variable sha256_hexdigest : string -> string.

(** [hash_password(password)], with the value drawn by
    [secrets.token_hex(16)] as [salt]. *)
Definition hash_password (salt password : string) : string :=
  let hashed := sha256_hexdigest (password +:+ salt) in
  salt +:+ ":" +:+ hashed.

(** [verify_password(password, stored_hash)]: the unpacking raises
    [ValueError] unless the split gives two parts, and [None] has no
    [split]. *)
Definition verify_password (password : string) (stored_hash : option string)
    : bool :=
  match stored_hash with
  | None => false
  | Some stored =>
      match Str.split ":" stored with
      | [salt; hashed] =>
          (sha256_hexdigest (password +:+ salt) =? hashed)%string
      | _ => false
      end
  end.

End Passwords.

(** A digest for examples: two hexadecimal digits per character. *)
Definition hex_digit (n : nat) : ascii :=
  if n <? 10 then ascii_of_nat (48 + n) else ascii_of_nat (87 + n).

Fixpoint hex_of_string (s : string) : string :=
  match s with
  | EmptyString => EmptyString
  | String c r =>
      let n := nat_of_ascii c in
      String (hex_digit (n / 16)) (String (hex_digit (n mod 16)) (hex_of_string r))
  end.

(** ** JSON values

    What [json.loads] returns: [None], a [bool], a number (kept as its
    literal), a [str], a [list] or a [dict] with string keys. *)

#[local] Set Warnings "-register-all".

Inductive Json :=
| JNull
| JBool (b : bool)
| JNumber (literal : string)
| JString (s : string)
| JArray (items : list Json)
| JObject (members : gmap string Json).

#[local] Set Warnings "register-all".

(** ** Records of the scan route *)

(** The five values of a summary once [ScanResult] has accepted them for
    its fields [sentiment_label: str], [sentiment_summary: str],
    [themes: List[str]], [pain_points: List[dict]] and [wins: List[dict]]. *)
Module Ai.

Record t := mk {
  sentiment_label : string;
  sentiment_summary : string;
  themes : list string;
  pain_points : list (gmap string Json);
  wins : list (gmap string Json)
}.

End Ai.

(** One entry of [source_posts]. *)
Module Source.

Record t := mk {
  id : string;
  title : string;
  score : Z;
  created_utc : Z;
  permalink : string;
  num_comments : Z;
  selftext_preview : string
}.

End Source.

(** [ScanResult] without [id] and [created_at], which are drawn at random
    and read off the clock. *)
Module Scan.

Record t := mk {
  tracked_game_id : string;
  user_id : string;
  post_count : nat;
  posts_last_7_days : nat;
  comments_sampled : nat;
  sentiment_label : string;
  sentiment_summary : string;
  themes : list string;
  pain_points : list (gmap string Json);
  wins : list (gmap string Json);
  source_posts : list Source.t;
  error : option string;
  cached : bool;
  debug_info : option DebugInfo
}.

(** [ScanResult(tracked_game_id=..., user_id=..., error=..., debug_info=...)]:
    the other fields take the defaults of the class. *)
Definition failed (game_id user_id error : string) (debug : DebugInfo) : t :=
  mk game_id user_id 0 0 0 "Unknown" "" [] [] [] [] (Some error) false
    (Some debug).

End Scan.

(** A document of [tracked_games]. *)
Record Game := mkGame {
  game_name : string;
  game_subreddit : string;
  game_keywords : string
}.

(** The process state the scan route works on: the two module-level dicts
    and the [scan_results] collection. *)
Record Server := mkServer {
  srv_cache : gmap string CacheEntry;
  srv_scan_times : gmap string Q;
  srv_results : list Scan.t
}.

(** The clock readings of one scan, in the order they are taken: in
    [check_throttle], at the start of [fetch_reddit_posts], in
    [apply_diversity_and_recency], in [update_scan_time], and for the
    seven-day count. *)
Record Clock := mkClock {
  at_throttle_check : Q;
  at_fetch : Q;
  at_selection : Q;
  at_update : Q;
  at_report : Q
}.

(** How a scan request ends: with the 404 of a game that is not found, with
    the exception of a [ScanResult] that refuses the summary, or with the
    [ScanResult] it returns. *)
Inductive ScanOutcome :=
| GameNotFound
| SummaryRefused
| Returned (scan_result : Scan.t).

Definition to_source_post (p : Post.t) : Source.t :=
  Source.mk (Post.id p) (Post.title p) (Post.score p) (Post.created_utc p)
    (Post.permalink p) (Post.num_comments p)
    (String.substring 0 200 (Post.selftext p)).

(** What [get_cache_status(subreddit)] returns: [{"cached": False, "valid":
    False}], or the five keys of a cached subject. *)
Inductive CacheStatus :=
| NotCached
| Cached (valid : bool) (age_seconds expires_in : Z) (post_count : nat).

(** ** The summary of [analyze_posts_with_ai] *)

(** What the chat completion call gives: an exception of the client (or of
    reading the content) with its text, or the content of the first
    choice. *)
Inductive Completion :=
| CompletionError (message : string)
| CompletionContent (content : string).

(** The dict returned on every path that has no summary. *)
Definition no_summary (sentiment_summary : string) : gmap string Json :=
  <["sentiment_label" := JString "Unknown"]>
    (<["sentiment_summary" := JString sentiment_summary]>
       (<["themes" := JArray []]>
          (<["pain_points" := JArray []]> (<["wins" := JArray []]> ∅)))).

(** The text handed to [json.loads]: the content without surrounding
    whitespace and without a Markdown code fence. *)
Definition strip_fences (content : string) : string :=
  let response_text := Str.strip content in
  let response_text :=
    if Str.startswith response_text "```json"
    then Str.slice_from 7 response_text else response_text in
  let response_text :=
    if Str.startswith response_text "```"
    then Str.slice_from 3 response_text else response_text in
  let response_text :=
    if Str.endswith response_text "```"
    then Str.drop_last 3 response_text else response_text in
  Str.strip response_text.

Section Analysis.

(** [json.loads], [None] for a [JSONDecodeError]. *)
Variable json_loads : string -> option Json.

(** [str(item)] for a dict. *)
Variable str_of_dict : gmap string Json -> string.

(** The text of the [TypeError] that the normalization raises on a parsed
    value that is not a dict. *)
Variable type_error_text : Json -> string.

(** The answer of the service to the prompt built from the posts, the
    comment bundles, the name of the game and the keywords. *)
Variable chat_completion :
  list Post.t -> list PostComments -> string -> string -> Completion.

(** One pass of the loop over [result[field]]: a string becomes a finding
    without evidence, a dict is cut down to its text and evidence, anything
    else is skipped. *)
Definition normalize_item (item : Json) : option Json :=
  match item with
  | JString _ =>
      Some (JObject (<["text" := item]> (<["evidence" := JArray []]> ∅)))
  | JObject members =>
      Some (JObject
              (<["text" := default (JString (str_of_dict members))
                             (members !! "text")]>
                 (<["evidence" := default (JArray []) (members !! "evidence")]>
                    ∅)))
  | _ => None
  end.

(** The body of [for field in ["pain_points", "wins"]] for one field. *)
Definition normalize_findings (field : string) (result : gmap string Json)
    : gmap string Json :=
  match result !! field with
  | Some (JArray items) =>
      <[field := JArray (take 5 (omap normalize_item items))]> result
  | _ => <[field := JArray []]> result
  end.

(** What the function does to the parsed dict before it returns it. *)
Definition normalize_result (result : gmap string Json) : gmap string Json :=
  let result := normalize_findings "pain_points" result in
  let result := normalize_findings "wins" result in
  let result :=
    match result !! "themes" with
    | Some (JArray _) => result
    | _ => <["themes" := JArray []]> result
    end in
  let result :=
    match result !! "sentiment_label" with
    | Some _ => result
    | None => <["sentiment_label" := JString "Unknown"]> result
    end in
  match result !! "sentiment_summary" with
  | Some _ => result
  | None => <["sentiment_summary" := JString ""]> result
  end.

(** [analyze_posts_with_ai(posts, post_comments, game_name, keywords)], with
    the value of the environment variable [OPENAI_API_KEY] as [api_key]. *)
Definition analyze_posts_with_ai (api_key : option string)
    (posts : list Post.t) (post_comments : list PostComments)
    (game_name keywords : string) : gmap string Json :=
  if negb (truthy api_key) then
    no_summary "AI analysis unavailable - no API key configured"
  else
    match chat_completion posts post_comments game_name keywords with
    | CompletionError message =>
        no_summary ("AI analysis failed: " +:+ message)
    | CompletionContent content =>
        match json_loads (strip_fences content) with
        | None =>
            no_summary
              "AI analysis completed but response parsing failed. Try scanning again."
        | Some (JObject result) => normalize_result result
        | Some parsed =>
            no_summary ("AI analysis failed: " +:+ type_error_text parsed)
        end
    end.

End Analysis.

(** Vocabulary: a finding is a dict with the two keys [text] and
    [evidence]; a summary holds the five keys, with lists for the themes and
    for at most five findings of each kind. *)
Definition is_finding (item : Json) : Prop :=
  exists text evidence,
    item = JObject (<["text" := text]> (<["evidence" := evidence]> ∅)).

Definition findings_at (field : string) (result : gmap string Json) : Prop :=
  exists items,
    result !! field = Some (JArray items)
    /\ length items <= 5
    /\ Forall is_finding items.

Definition is_summary (result : gmap string Json) : Prop :=
  (exists label, result !! "sentiment_label" = Some label)
  /\ (exists summary, result !! "sentiment_summary" = Some summary)
  /\ (exists themes, result !! "themes" = Some (JArray themes))
  /\ findings_at "pain_points" result
  /\ findings_at "wins" result.

(** ** Example data for the scan route

    One tracked game; a summarizer that runs without API key; a validation
    that accepts a label and a summary that are strings; a first scan whose
    clock readings are one second apart around [example_now], and a second
    one ten seconds later. *)

Definition example_game : Game := mkGame "Test Game" "TestGame" "".

Definition example_find_game (game_id user_id : string) : option Game :=
  if (game_id =? "g1")%string && (user_id =? "u1")%string
  then Some example_game else None.

Definition example_analysis (posts : list Post.t)
    (post_comments : list PostComments) (game_name keywords : string)
    : gmap string Json :=
  analyze_posts_with_ai (fun _ => None) (fun _ => ""%string)
    (fun _ => ""%string) (fun _ _ _ _ => CompletionError "") None posts
    post_comments game_name keywords.

Definition example_fields (ai_result : gmap string Json) : option Ai.t :=
  match ai_result !! "sentiment_label", ai_result !! "sentiment_summary" with
  | Some (JString label), Some (JString summary) =>
      Some (Ai.mk label summary [] [] [])
  | _, _ => None
  end.

Definition example_clock : Clock :=
  mkClock example_now example_now example_now (example_now + 1)%Q
    (example_now + 1)%Q.

Definition ten_seconds_later : Clock :=
  mkClock (example_now + 11)%Q (example_now + 11)%Q (example_now + 11)%Q
    (example_now + 12)%Q (example_now + 12)%Q.

Definition fresh_server : Server := mkServer ∅ ∅ [].

(** ** The pipeline *)

Section Pipeline.

(** The float computed by [calculate_post_rank] from its three inputs,
    [ln(score + 1) + 2 * ln(num_comments + 1) + 0.35 * min(len / 500, 1)],
    as the rational it denotes: for inputs [>= 0] it is a finite float. *)
Variable rank_value : Z -> Z -> nat -> Q.

(** [normalize_subreddit] and [str.lower], which only build the keys of the
    cache and of the throttle table. *)
Variable normalize_subreddit : string -> string.
Variable lower : string -> string.

Definition calculate_post_rank (post : Post.t) : Q :=
  let score := Z.max 0 (Post.score post) in
  let num_comments := Z.max 0 (Post.num_comments post) in
  rank_value score num_comments (String.length (Post.selftext post)).

(** [sorted(posts, key=lambda p: p["_rank"], reverse=True)]. *)
Definition rank_gt (p q : Post.t) : bool :=
  Py.Qltb (calculate_post_rank q) (calculate_post_rank p).

(** [created_utc > three_days_ago]. *)
Definition is_recent (three_days_ago : Q) (post : Post.t) : bool :=
  Py.Qltb three_days_ago (inject_Z (Post.created_utc post)).

(** First pass: [for post in posts_sorted]. *)
Fixpoint first_pass (three_days_ago : Q) (posts_sorted : list Post.t)
    (st : Selection) : Selection :=
  match posts_sorted with
  | [] => st
  | post :: rest =>
      if MAX_POSTS_FINAL <=? length (selected st) then st
      else
        let recent := is_recent three_days_ago post in
        let author_posts := default 0 (author_count st !! Post.author post) in
        if MAX_POSTS_PER_AUTHOR <=? author_posts
        then first_pass three_days_ago rest (defer_if recent post st)
        else if (Post.num_comments post =? 0)%Z
                && (MAX_NO_COMMENT_POSTS <=? no_comment_count st)
        then first_pass three_days_ago rest (defer_if recent post st)
        else first_pass three_days_ago rest (add_post recent post author_posts st)
  end.

(** Second pass: [for post in deferred_recent], on the pair
    [(selected, recent_in_selection)]. *)
Fixpoint second_pass (three_days_ago : Q) (deferred : list Post.t)
    (sel : list Post.t) (recent : nat) : list Post.t * nat :=
  match deferred with
  | [] => (sel, recent)
  | post :: rest =>
      if MIN_RECENT_POSTS <=? recent then (sel, recent)
      else if MAX_POSTS_FINAL <=? length sel then
        match Py.last_index_where
                (fun existing => negb (is_recent three_days_ago existing)) sel
        with
        | Some i => second_pass three_days_ago rest (<[i := post]> sel) (recent + 1)
        | None => second_pass three_days_ago rest sel recent
        end
      else second_pass three_days_ago rest (sel ++ [post]) (recent + 1)
  end.

(** [deferred_recent.sort(key=lambda p: p.get("created_utc", 0), reverse=True)]. *)
Definition created_gt (p q : Post.t) : bool :=
  (Post.created_utc p >? Post.created_utc q)%Z.

(** [three_days_ago = now - (3 * 24 * 60 * 60)]. *)
Definition three_days_before (now : Q) : Q :=
  (now - inject_Z (3 * 24 * 60 * 60))%Q.

(** The locals at the end of the first pass. *)
Definition first_pass_result (now : Q) (posts : list Post.t) : Selection :=
  let posts_sorted := Py.sorted_reverse rank_gt posts in
  first_pass (three_days_before now) posts_sorted empty_selection.

(** The selection before the final slice. *)
Definition selection_before_slice (now : Q) (posts : list Post.t) : list Post.t :=
  let three_days_ago := three_days_before now in
  let st := first_pass_result now posts in
  if (recent_in_selection st <? MIN_RECENT_POSTS)
     && negb (length (deferred_recent st) =? 0)
  then fst (second_pass three_days_ago
              (Py.sorted_reverse created_gt (deferred_recent st))
              (selected st) (recent_in_selection st))
  else selected st.

(** [now] is the reading of [time.time()] inside the function.  The
    transient [_rank] key is written and popped again and is not part of the
    record. *)
Definition apply_diversity_and_recency (now : Q) (posts : list Post.t)
    : list Post.t :=
  Py.slice_to MAX_POSTS_FINAL (selection_before_slice now posts).

(** The loop [for after, before in windows] of [fetch_reddit_posts], on the
    locals [posts], [used_window], [debug]. *)
Fixpoint search_windows (up : Upstream) (normalized : string)
    (ws : list (string * string)) (posts : list Post.t) (used_window : string)
    (debug : DebugInfo) (requests : list (string * string)) : Search :=
  match ws with
  | [] => Finished posts used_window debug requests
  | (after, before) :: rest =>
      let url := ARCTIC_SHIFT_BASE +:+ "/api/posts/search?subreddit="
                 +:+ normalized +:+ "&after=" +:+ after +:+ "&before="
                 +:+ before +:+ "&sort=desc&limit=500" in
      let '(fetched_posts, status, error) :=
        fetch_arctic_shift_posts up normalized after before in
      let requests := requests ++ [(after, before)] in
      let debug := set_window_request url status debug in
      if truthy error then
        let debug := set_error_details error debug in
        if aborting_status status then Aborted error debug requests
        else search_windows up normalized rest posts used_window debug requests
      else
        let filtered_posts := apply_quality_filter fetched_posts in
        let debug := set_counts (length fetched_posts) (length filtered_posts) debug in
        if 150 <=? length filtered_posts
        then Finished filtered_posts (window_str (after, before)) debug requests
        else if length posts <? length filtered_posts
        then search_windows up normalized rest filtered_posts
               (window_str (after, before)) debug requests
        else search_windows up normalized rest posts used_window debug requests
  end.

(** What one window request returns, and how the loop classifies it. *)
Definition outcome (up : Upstream) (normalized : string) (w : string * string)
    : list Post.t * option Z * option string :=
  fetch_arctic_shift_posts up normalized (fst w) (snd w).

Definition outcome_error (up : Upstream) (normalized : string)
    (w : string * string) : option string :=
  snd (outcome up normalized w).

Definition outcome_status (up : Upstream) (normalized : string)
    (w : string * string) : option Z :=
  snd (fst (outcome up normalized w)).

(** The quality-filtered output of a window. *)
Definition filtered_of (up : Upstream) (normalized : string)
    (w : string * string) : list Post.t :=
  apply_quality_filter (fst (fst (outcome up normalized w))).

(** The request succeeded ([error] is falsy). *)
Definition succeeds (up : Upstream) (normalized : string)
    (w : string * string) : bool :=
  negb (truthy (outcome_error up normalized w)).

(** The request failed with a rate limit or a server error. *)
Definition aborts (up : Upstream) (normalized : string)
    (w : string * string) : bool :=
  truthy (outcome_error up normalized w)
  && aborting_status (outcome_status up normalized w).

(** The request succeeded and its filtered count reaches the threshold. *)
Definition accepted (up : Upstream) (normalized : string)
    (w : string * string) : bool :=
  succeeds up normalized w && (150 <=? length (filtered_of up normalized w)).

(** The request was rejected as not found (404) or forbidden (403). *)
Definition rejected (up : Upstream) (normalized : string)
    (w : string * string) : bool :=
  truthy (outcome_error up normalized w)
  && match outcome_status up normalized w with
     | Some s => (s =? 404)%Z || (s =? 403)%Z
     | None => false
     end.

(** The loop [for post in ranked_for_comments], on the locals
    [post_comments] and [total_comments_fetched]. *)
Fixpoint comments_loop (up : Upstream) (ranked : list Post.t)
    (post_comments : list PostComments) (total : nat)
    : list PostComments * nat :=
  match ranked with
  | [] => (post_comments, total)
  | post :: rest =>
      if (Post.id post =? "")%string then comments_loop up rest post_comments total
      else
        let '(comments, _) := fetch_arctic_shift_comments up (Post.id post) in
        match comments with
        | [] => comments_loop up rest post_comments total
        | _ :: _ =>
            let best_comments := select_best_comments comments MAX_COMMENTS_PER_POST in
            match best_comments with
            | [] => comments_loop up rest post_comments total
            | _ :: _ =>
                comments_loop up rest
                  (post_comments
                   ++ [mkPostComments (Post.id post) (Post.title post) best_comments])
                  (total + length best_comments)
            end
        end
  end.

(** [fetch_reddit_posts(subreddit)]: [current_time] is the clock reading
    taken at the start of the call, [now] the one taken inside
    [apply_diversity_and_recency]; the result comes with the value of
    [reddit_cache] after the call. *)
Definition fetch_reddit_posts (up : Upstream) (current_time now : Q)
    (subreddit : string) (reddit_cache : gmap string CacheEntry)
    : FetchResult * gmap string CacheEntry :=
  let normalized := normalize_subreddit subreddit in
  if (normalized =? "")%string then
    (mkFetchResult [] [] (Some "Invalid subreddit name."%string) false
       (new_debug "" (Some "Empty subreddit after normalization"%string)),
     reddit_cache)
  else
    let debug := new_debug normalized None in
    let subreddit_lower := lower normalized in
    let cached :=
      match reddit_cache !! subreddit_lower with
      | Some cache_entry =>
          let cache_age := (current_time - timestamp cache_entry)%Q in
          if Py.Qltb cache_age (inject_Z CACHE_TTL_SECONDS)
          then Some (cache_entry, cache_age) else None
      | None => None
      end in
    match cached with
    | Some (cache_entry, cache_age) =>
        let debug :=
          set_error_details
            (Some ("Using cached data (age: " +:+ pretty (Py.int cache_age) +:+ "s)"))
            debug in
        (mkFetchResult (data_posts cache_entry) (data_comments cache_entry)
           None true debug, reddit_cache)
    | None =>
        match search_windows up normalized windows [] "" debug [] with
        | Aborted error debug _ =>
            (mkFetchResult [] [] error false debug, reddit_cache)
        | Finished posts used_window debug _ =>
            let debug := set_window_used used_window debug in
            match posts with
            | [] =>
                let debug :=
                  set_error_details
                    (Some "No posts found in any time window"%string) debug in
                (mkFetchResult [] []
                   (Some ("No posts found for r/" +:+ normalized
                          +:+ ". The subreddit may be empty, private, or the name may be incorrect."))
                   false debug, reddit_cache)
            | _ :: _ =>
                let final_posts := apply_diversity_and_recency now posts in
                let ranked_for_comments :=
                  Py.slice_to TOP_POSTS_FOR_COMMENTS
                    (Py.sorted_reverse rank_gt final_posts) in
                let '(post_comments, total_comments_fetched) :=
                  comments_loop up ranked_for_comments [] 0 in
                let debug :=
                  set_final_counts (length final_posts) (length post_comments)
                    total_comments_fetched debug in
                (mkFetchResult final_posts post_comments None false debug,
                 <[subreddit_lower :=
                     mkCacheEntry final_posts post_comments current_time]>
                   reddit_cache)
            end
        end
    end.

(** ** Throttle

    [current_time] is the reading of [time.time()] in each function. *)

Definition check_throttle (current_time : Q) (subreddit : string)
    (last_scan_times : gmap string Q) : bool * Z :=
  let normalized := lower (normalize_subreddit subreddit) in
  match last_scan_times !! normalized with
  | Some last =>
      let elapsed := (current_time - last)%Q in
      if Py.Qltb elapsed (inject_Z THROTTLE_SECONDS)
      then (true, Py.int (inject_Z THROTTLE_SECONDS - elapsed)%Q)
      else (false, 0%Z)
  | None => (false, 0%Z)
  end.

Definition update_scan_time (current_time : Q) (subreddit : string)
    (last_scan_times : gmap string Q) : gmap string Q :=
  let normalized := lower (normalize_subreddit subreddit) in
  <[normalized := current_time]> last_scan_times.

(** ** The scan route and the cache status route *)

(** [db.tracked_games.find_one({"id": game_id, "user_id": user_id})]. *)
Variable find_game : string -> string -> option Game.

(** The dict returned by [analyze_posts_with_ai(posts, post_comments,
    game_name, keywords)]. *)
Variable analyze_posts_with_ai :
  list Post.t -> list PostComments -> string -> string -> gmap string Json.

(** The five values that [ScanResult] takes from that dict, [None] when the
    validation of the class refuses one of them and the constructor
    raises. *)
Variable summary_fields : gmap string Json -> option Ai.t.

(** The answer to a scan that is refused by the throttle. *)
Definition throttled_result (game_id user_id subreddit : string)
    (seconds_remaining : Z) : Scan.t :=
  Scan.failed game_id user_id
    ("Please wait " +:+ pretty seconds_remaining
     +:+ " seconds before scanning r/" +:+ subreddit +:+ " again.")
    (new_debug (normalize_subreddit subreddit)
       (Some ("Throttled: " +:+ pretty seconds_remaining +:+ "s remaining"))).

(** [run_scan(game_id, user)], with the process state after the request. *)
Definition run_scan (up : Upstream) (clock : Clock) (game_id user_id : string)
    (srv : Server) : ScanOutcome * Server :=
  match find_game game_id user_id with
  | None => (GameNotFound, srv)
  | Some game =>
      let subreddit := game_subreddit game in
      let '(should_throttle, seconds_remaining) :=
        check_throttle (at_throttle_check clock) subreddit (srv_scan_times srv) in
      if should_throttle
      then (Returned (throttled_result game_id user_id subreddit seconds_remaining),
            srv)
      else
        let '(fetched, cache') :=
          fetch_reddit_posts up (at_fetch clock) (at_selection clock) subreddit
            (srv_cache srv) in
        let times' :=
          update_scan_time (at_update clock) subreddit (srv_scan_times srv) in
        let posts := r_posts fetched in
        let post_comments := r_post_comments fetched in
        let debug := r_debug fetched in
        let insert_and_return scan_result :=
          (Returned scan_result,
           mkServer cache' times' (srv_results srv ++ [scan_result])) in
        if truthy (r_error fetched) then
          insert_and_return
            (Scan.failed game_id user_id (default ""%string (r_error fetched))
               debug)
        else if length posts =? 0 then
          insert_and_return
            (Scan.failed game_id user_id
               ("No posts found for r/" +:+ subreddit
                +:+ ". The subreddit may be empty, private, or the name may be incorrect.")
               (set_error_details
                  (Some "No posts found for this subreddit"%string) debug))
        else
          let seven_days_ago := (at_report clock - inject_Z (7 * 24 * 60 * 60))%Q in
          let posts_last_7_days :=
            count_where
              (fun p => Py.Qltb seven_days_ago (inject_Z (Post.created_utc p)))
              posts in
          let total_comments_sampled :=
            list_sum (map (fun pc => length (pc_comments pc)) post_comments) in
          let ai_result :=
            analyze_posts_with_ai posts post_comments (game_name game)
              (game_keywords game) in
          match summary_fields ai_result with
          | None => (SummaryRefused, mkServer cache' times' (srv_results srv))
          | Some summary =>
              insert_and_return
                (Scan.mk game_id user_id (length posts) posts_last_7_days
                   total_comments_sampled (Ai.sentiment_label summary)
                   (Ai.sentiment_summary summary) (Ai.themes summary)
                   (Ai.pain_points summary) (Ai.wins summary)
                   (map to_source_post posts) None (r_used_cache fetched)
                   (Some debug))
          end
  end.

(** [get_cache_status(subreddit)]: [len(cache_entry["data"])] is the number
    of keys of the dict [{"posts": ..., "comments": ...}]. *)
Definition get_cache_status (current_time : Q) (subreddit : string)
    (reddit_cache : gmap string CacheEntry) : CacheStatus :=
  let normalized := lower (normalize_subreddit subreddit) in
  match reddit_cache !! normalized with
  | Some cache_entry =>
      let cache_age := (current_time - timestamp cache_entry)%Q in
      Cached (Py.Qltb cache_age (inject_Z CACHE_TTL_SECONDS))
        (Py.int cache_age)
        (Z.max 0 (Py.int (inject_Z CACHE_TTL_SECONDS - cache_age)%Q))
        2
  | None => NotCached
  end.

(** ** Facts about the Python primitives *)

Lemma Qltb_lt (x y : Q) : Py.Qltb x y = true <-> (x < y)%Q.
Proof.
  unfold Py.Qltb. rewrite negb_true_iff. split.
  - intros H. apply Qnot_le_lt. intros Hle.
    apply Qle_bool_iff in Hle. congruence.
  - intros H. destruct (Qle_bool y x) eqn:E; [|reflexivity].
    apply Qle_bool_iff in E. exfalso. exact (Qlt_not_le _ _ H E).
Qed.

Lemma Qltb_ge (x y : Q) : Py.Qltb x y = false <-> (y <= x)%Q.
Proof.
  unfold Py.Qltb. rewrite negb_false_iff. apply Qle_bool_iff.
Qed.

Lemma Qltb_irrefl (x : Q) : Py.Qltb x x = false.
Proof. apply Qltb_ge. apply Qle_refl. Qed.

Lemma insert_desc_perm {A} (gt : A -> A -> bool) (x : A) (l : list A) :
  Permutation (Py.insert_desc gt x l) (x :: l).
Proof.
  induction l as [|y l IH]; simpl; [reflexivity|].
  destruct (gt y x); [|reflexivity].
  rewrite IH. apply perm_swap.
Qed.

Lemma sorted_reverse_perm {A} (gt : A -> A -> bool) (l : list A) :
  Permutation (Py.sorted_reverse gt l) l.
Proof.
  induction l as [|x l IH]; simpl; [reflexivity|].
  rewrite insert_desc_perm. now constructor.
Qed.

(** A stable sort leaves a list of equal keys as it is. *)
Lemma sorted_reverse_ties {A} (gt : A -> A -> bool) (l : list A) :
  (forall a b, In a l -> In b l -> gt a b = false) ->
  Py.sorted_reverse gt l = l.
Proof.
  induction l as [|x l IH]; intros H; simpl; [reflexivity|].
  rewrite IH by (intros a b Ha Hb; apply H; now right).
  destruct l as [|y l]; simpl; [reflexivity|].
  rewrite H; [reflexivity| right; now left | now left].
Qed.

Lemma last_index_where_Some {A} (f : A -> bool) (l : list A) (i : nat) :
  Py.last_index_where f l = Some i ->
  exists x, l !! i = Some x /\ f x = true.
Proof.
  revert i. induction l as [|x l IH]; intros i; simpl; [discriminate|].
  destruct (Py.last_index_where f l) as [j|] eqn:E.
  - intros [= <-]. simpl. now apply IH.
  - destruct (f x) eqn:Fx; [|discriminate].
    intros [= <-]. exists x. now split.
Qed.

Lemma last_index_where_None {A} (f : A -> bool) (l : list A) :
  Py.last_index_where f l = None -> forall x, In x l -> f x = false.
Proof.
  induction l as [|x l IH]; simpl; [intros _ y []|].
  destruct (Py.last_index_where f l) as [j|] eqn:E; [discriminate|].
  destruct (f x) eqn:Fx; [discriminate|].
  intros _ y [<-|Hy]; [assumption|now apply IH].
Qed.

(** ** QualityFilter *)

Lemma is_low_quality_dropped (post : Post.t) :
  is_low_quality post = true <-> dropped post.
Proof.
  unfold is_low_quality, dropped.
  rewrite !andb_true_iff, orb_true_iff, Z.eqb_eq, Z.leb_le,
    Nat.eqb_eq, !Nat.ltb_lt.
  tauto.
Qed.

Lemma quality_loop_filter (posts filtered : list Post.t) :
  quality_loop posts filtered
  = filtered ++ List.filter (fun p => negb (is_low_quality p)) posts.
Proof.
  revert filtered. induction posts as [|p posts IH]; intros filtered; simpl.
  - now rewrite app_nil_r.
  - rewrite IH. destruct (is_low_quality p); simpl; [reflexivity|].
    now rewrite <- app_assoc.
Qed.

(** C3. The quality filter drops a post exactly when its reply count is 0,
    its score is at most 1, its body is empty or shorter than 80 characters
    and its title is shorter than 25 characters; every other post is kept.
    The decision is a function of the single post: the output is the input
    list filtered by that predicate, in the input order. *)
Theorem C3_quality_filter_drops_iff_all_weak :
  (forall post, is_low_quality post = true <-> dropped post)
  /\ (forall posts,
        apply_quality_filter posts
        = List.filter (fun p => negb (is_low_quality p)) posts)
  /\ (forall posts post,
        In post (apply_quality_filter posts)
        <-> In post posts /\ ~ dropped post).
Proof.
  split; [exact is_low_quality_dropped|]. split.
  - intros posts. unfold apply_quality_filter. now rewrite quality_loop_filter.
  - intros posts post. unfold apply_quality_filter.
    rewrite quality_loop_filter. simpl. rewrite filter_In.
    rewrite <- is_low_quality_dropped.
    destruct (is_low_quality post); simpl; intuition congruence.
Qed.


(** ** Counting *)

Lemma count_where_app {A} (f : A -> bool) (l k : list A) :
  count_where f (l ++ k) = count_where f l + count_where f k.
Proof. unfold count_where. now rewrite List.filter_app, length_app. Qed.

Lemma count_where_cons {A} (f : A -> bool) (x : A) (l : list A) :
  count_where f (x :: l) = (if f x then 1 else 0) + count_where f l.
Proof. unfold count_where. simpl. now destruct (f x). Qed.

Lemma count_where_snoc {A} (f : A -> bool) (l : list A) (x : A) :
  count_where f (l ++ [x]) = count_where f l + (if f x then 1 else 0).
Proof. rewrite count_where_app, count_where_cons. unfold count_where. simpl. lia. Qed.

Lemma count_where_le_length {A} (f : A -> bool) (l : list A) :
  count_where f l <= length l.
Proof.
  induction l as [|x l IH]; [apply Nat.le_refl|].
  rewrite count_where_cons. simpl. destruct (f x); lia.
Qed.

Lemma count_where_all {A} (f : A -> bool) (l : list A) :
  (forall x, In x l -> f x = true) -> count_where f l = length l.
Proof.
  induction l as [|x l IH]; intros H; [reflexivity|].
  rewrite count_where_cons, H by now left.
  rewrite IH by (intros y Hy; apply H; now right). reflexivity.
Qed.

Lemma count_where_perm {A} (f : A -> bool) (l k : list A) :
  Permutation l k -> count_where f l = count_where f k.
Proof.
  induction 1 as [|x l k _ IH|x y l|l k m _ IH1 _ IH2].
  - reflexivity.
  - now rewrite !count_where_cons, IH.
  - rewrite !count_where_cons. lia.
  - congruence.
Qed.

(** [l[i] = y] when [l[i]] was [x]: one [x] less, one [y] more. *)
Lemma count_where_insert {A} (f : A -> bool) (l : list A) (i : nat) (x y : A) :
  l !! i = Some x ->
  count_where f (<[i := y]> l) + (if f x then 1 else 0)
  = count_where f l + (if f y then 1 else 0).
Proof.
  revert i. induction l as [|z l IH]; intros [|i] H; simpl in *; try discriminate.
  - injection H as ->. rewrite !count_where_cons. lia.
  - rewrite !count_where_cons. specialize (IH i H). lia.
Qed.

Lemma count_occ_count_where (l : list Post.t) (p : Post.t) :
  count_occ Post.eq_dec l p = count_where (same_post p) l.
Proof.
  induction l as [|q l IH]; [reflexivity|].
  rewrite count_where_cons. unfold same_post at 1. simpl.
  destruct (Post.eq_dec q p); rewrite IH; reflexivity.
Qed.


(** ** DiversitySelector: the first pass *)

(** What the counters of the first pass stand for, and the bounds they
    enforce. *)
Record pass_inv (tda : Q) (st : Selection) : Prop := mk_pass_inv {
  inv_authors : forall a,
    default 0 (author_count st !! a) = count_where (by_author a) (selected st);
  inv_zero : no_comment_count st = count_where zero_replies (selected st);
  inv_author_cap : forall a,
    count_where (by_author a) (selected st) <= MAX_POSTS_PER_AUTHOR;
  inv_zero_cap : count_where zero_replies (selected st) <= MAX_NO_COMMENT_POSTS;
  inv_recent :
    recent_in_selection st = count_where (is_recent tda) (selected st);
  inv_deferred : forall p, In p (deferred_recent st) -> is_recent tda p = true;
  inv_length : length (selected st) <= MAX_POSTS_FINAL
}.

Lemma pass_inv_empty (tda : Q) : pass_inv tda empty_selection.
Proof.
  split; simpl; intros; try reflexivity; try (unfold count_where; simpl; lia).
Qed.

Lemma pass_inv_defer (tda : Q) (post : Post.t) (st : Selection) :
  pass_inv tda st -> pass_inv tda (defer_if (is_recent tda post) post st).
Proof.
  intros [H1 H2 H3 H4 H5 H6 H7]. unfold defer_if.
  destruct (is_recent tda post) eqn:R; split; simpl; try assumption.
  intros p Hp. apply in_app_or in Hp as [Hp|[<-|[]]]; [now apply H6|assumption].
Qed.

Lemma pass_inv_add_post (tda : Q) (post : Post.t) (st : Selection) :
  pass_inv tda st ->
  length (selected st) < MAX_POSTS_FINAL ->
  default 0 (author_count st !! Post.author post) < MAX_POSTS_PER_AUTHOR ->
  (zero_replies post = true -> no_comment_count st < MAX_NO_COMMENT_POSTS) ->
  pass_inv tda
    (add_post (is_recent tda post) post
       (default 0 (author_count st !! Post.author post)) st).
Proof.
  intros [H1 H2 H3 H4 H5 H6 H7] Hlen Hauth Hzero.
  split; simpl; try assumption.
  - intros a. rewrite count_where_snoc. unfold by_author at 2.
    destruct (String.eqb_spec (Post.author post) a) as [<-|Hne].
    + rewrite lookup_insert_eq. simpl. now rewrite H1.
    + rewrite lookup_insert_ne by assumption. rewrite H1. lia.
  - rewrite count_where_snoc. fold (zero_replies post).
    destruct (zero_replies post); lia.
  - intros a. rewrite count_where_snoc. unfold by_author at 2.
    destruct (String.eqb_spec (Post.author post) a) as [<-|Hne].
    + rewrite H1 in Hauth. lia.
    + specialize (H3 a). lia.
  - rewrite count_where_snoc. destruct (zero_replies post) eqn:Z; [|lia].
    specialize (Hzero eq_refl). lia.
  - rewrite count_where_snoc. destruct (is_recent tda post); lia.
  - rewrite length_app. simpl. unfold MAX_POSTS_FINAL in *. lia.
Qed.

Lemma first_pass_cons (tda : Q) (post : Post.t) (rest : list Post.t)
    (st : Selection) :
  first_pass tda (post :: rest) st
  = if MAX_POSTS_FINAL <=? length (selected st) then st
    else if MAX_POSTS_PER_AUTHOR
            <=? default 0 (author_count st !! Post.author post)
    then first_pass tda rest (defer_if (is_recent tda post) post st)
    else if zero_replies post && (MAX_NO_COMMENT_POSTS <=? no_comment_count st)
    then first_pass tda rest (defer_if (is_recent tda post) post st)
    else first_pass tda rest
           (add_post (is_recent tda post) post
              (default 0 (author_count st !! Post.author post)) st).
Proof. reflexivity. Qed.

Lemma first_pass_inv (tda : Q) (posts_sorted : list Post.t) (st : Selection) :
  pass_inv tda st -> pass_inv tda (first_pass tda posts_sorted st).
Proof.
  revert st. induction posts_sorted as [|post rest IH]; intros st Hst.
  - assumption.
  - rewrite first_pass_cons. destruct (MAX_POSTS_FINAL <=? length (selected st)) eqn:Full; [assumption|].
    apply Nat.leb_gt in Full.
    destruct (MAX_POSTS_PER_AUTHOR <=? _) eqn:A.
    { apply IH. now apply pass_inv_defer. }
    apply Nat.leb_gt in A.
    destruct (zero_replies post && _) eqn:Z.
    { apply IH. now apply pass_inv_defer. }
    apply IH. apply pass_inv_add_post; try assumption.
    intros Hz. rewrite Hz in Z. cbn [andb] in Z. now apply Nat.leb_gt in Z.
Qed.

(** Every post the first pass looks at is admitted, deferred or skipped:
    nothing is admitted or deferred twice. *)
Lemma first_pass_occurrences (tda : Q) (f : Post.t -> bool)
    (posts_sorted : list Post.t) (st : Selection) :
  count_where f (selected (first_pass tda posts_sorted st))
  + count_where f (deferred_recent (first_pass tda posts_sorted st))
  <= count_where f (selected st) + count_where f (deferred_recent st)
     + count_where f posts_sorted.
Proof.
  revert st. induction posts_sorted as [|post rest IH]; intros st.
  - simpl. lia.
  - rewrite first_pass_cons, (count_where_cons f post rest).
    assert (Hdefer : forall r,
      count_where f (selected (defer_if r post st))
      + count_where f (deferred_recent (defer_if r post st))
      <= count_where f (selected st) + count_where f (deferred_recent st)
         + (if f post then 1 else 0)).
    { intros [|]; simpl; [rewrite count_where_snoc|]; lia. }
    destruct (MAX_POSTS_FINAL <=? length (selected st)); [lia|].
    destruct (MAX_POSTS_PER_AUTHOR <=? _).
    { specialize (IH (defer_if (is_recent tda post) post st)).
      specialize (Hdefer (is_recent tda post)). lia. }
    destruct (_ && _).
    { specialize (IH (defer_if (is_recent tda post) post st)).
      specialize (Hdefer (is_recent tda post)). lia. }
    match goal with |- context [first_pass tda rest ?s] => specialize (IH s) end.
    simpl in IH. rewrite count_where_snoc in IH. lia.
Qed.


(** ** DiversitySelector: the second pass *)

Lemma second_pass_cons (tda : Q) (post : Post.t) (rest sel : list Post.t)
    (recent : nat) :
  second_pass tda (post :: rest) sel recent
  = if MIN_RECENT_POSTS <=? recent then (sel, recent)
    else if MAX_POSTS_FINAL <=? length sel then
      match Py.last_index_where (fun existing => negb (is_recent tda existing)) sel
      with
      | Some i => second_pass tda rest (<[i := post]> sel) (recent + 1)
      | None => second_pass tda rest sel recent
      end
    else second_pass tda rest (sel ++ [post]) (recent + 1).
Proof. reflexivity. Qed.

(** The second pass appends only below the global cap and otherwise
    replaces in place. *)
Lemma second_pass_length (tda : Q) (deferred sel : list Post.t) (recent : nat) :
  length sel <= MAX_POSTS_FINAL ->
  length (fst (second_pass tda deferred sel recent)) <= MAX_POSTS_FINAL.
Proof.
  revert sel recent.
  induction deferred as [|post rest IH]; intros sel recent Hlen; [assumption|].
  rewrite second_pass_cons.
  destruct (MIN_RECENT_POSTS <=? recent); [assumption|].
  destruct (MAX_POSTS_FINAL <=? length sel) eqn:Full.
  - destruct (Py.last_index_where _ sel); apply IH; [|assumption].
    now rewrite length_insert.
  - apply Nat.leb_gt in Full. apply IH. rewrite length_app. simpl. lia.
Qed.

(** Each deferred post the second pass takes up adds one recent post, by an
    append or by replacing a post that is not recent; the pass goes on until
    the quota is met or the deferred posts are used up. *)
Lemma second_pass_recent (tda : Q) (deferred sel : list Post.t) (recent : nat) :
  recent = count_where (is_recent tda) sel ->
  (forall p, In p deferred -> is_recent tda p = true) ->
  Nat.min MIN_RECENT_POSTS (recent + length deferred)
  <= count_where (is_recent tda) (fst (second_pass tda deferred sel recent)).
Proof.
  revert sel recent.
  induction deferred as [|post rest IH]; intros sel recent Hrec Hdef.
  - subst recent. cbn [second_pass fst length]. lia.
  - assert (Hpost : is_recent tda post = true) by (apply Hdef; now left).
    assert (Hrest : forall p, In p rest -> is_recent tda p = true)
      by (intros p Hp; apply Hdef; now right).
    rewrite second_pass_cons.
    destruct (MIN_RECENT_POSTS <=? recent) eqn:Q.
    { apply Nat.leb_le in Q. subst recent. cbn [fst]. lia. }
    apply Nat.leb_gt in Q.
    destruct (MAX_POSTS_FINAL <=? length sel) eqn:Full.
    + apply Nat.leb_le in Full.
      destruct (Py.last_index_where _ sel) as [i|] eqn:E.
      * apply last_index_where_Some in E as (x & Hx & Fx).
        apply negb_true_iff in Fx.
        pose proof (count_where_insert (is_recent tda) sel i x post Hx) as C.
        rewrite Fx, Hpost in C.
        etransitivity; [|apply IH; [lia|assumption]]. cbn [length]. lia.
      * pose proof (last_index_where_None _ _ E) as Hall.
        assert (count_where (is_recent tda) sel = length sel).
        { apply count_where_all. intros x Hx. specialize (Hall x Hx).
          now apply negb_false_iff in Hall. }
        unfold MAX_POSTS_FINAL, MIN_RECENT_POSTS in *. lia.
    + etransitivity; [|apply IH; [|assumption]].
      * cbn [length]. lia.
      * rewrite count_where_snoc, Hpost. lia.
Qed.

(** The second pass changes the selection by at most one post for each
    recent post still missing from the quota. *)
Lemma second_pass_grows_by (tda : Q) (f : Post.t -> bool)
    (deferred sel : list Post.t) (recent : nat) :
  count_where f (fst (second_pass tda deferred sel recent))
  <= count_where f sel + (MIN_RECENT_POSTS - recent).
Proof.
  revert sel recent.
  induction deferred as [|post rest IH]; intros sel recent; [simpl; lia|].
  rewrite second_pass_cons.
  destruct (MIN_RECENT_POSTS <=? recent) eqn:Q; [simpl; lia|].
  apply Nat.leb_gt in Q.
  destruct (MAX_POSTS_FINAL <=? length sel).
  - destruct (Py.last_index_where _ sel) as [i|] eqn:E.
    + apply last_index_where_Some in E as (x & Hx & _).
      pose proof (count_where_insert f sel i x post Hx) as C.
      specialize (IH (<[i := post]> sel) (recent + 1)).
      destruct (f x), (f post); lia.
    + specialize (IH sel recent). lia.
  - specialize (IH (sel ++ [post]) (recent + 1)).
    rewrite count_where_snoc in IH. destruct (f post); lia.
Qed.

(** Each deferred post is consumed at most once. *)
Lemma second_pass_occurrences (tda : Q) (f : Post.t -> bool)
    (deferred sel : list Post.t) (recent : nat) :
  count_where f (fst (second_pass tda deferred sel recent))
  <= count_where f sel + count_where f deferred.
Proof.
  revert sel recent.
  induction deferred as [|post rest IH]; intros sel recent; [simpl; lia|].
  rewrite second_pass_cons, (count_where_cons f post rest).
  destruct (MIN_RECENT_POSTS <=? recent); [simpl; lia|].
  destruct (MAX_POSTS_FINAL <=? length sel).
  - destruct (Py.last_index_where _ sel) as [i|] eqn:E.
    + apply last_index_where_Some in E as (x & Hx & _).
      pose proof (count_where_insert f sel i x post Hx) as C.
      specialize (IH (<[i := post]> sel) (recent + 1)).
      destruct (f x), (f post); lia.
    + specialize (IH sel recent). lia.
  - specialize (IH (sel ++ [post]) (recent + 1)).
    rewrite count_where_snoc in IH. destruct (f post); lia.
Qed.


(** ** DiversitySelector: the whole function *)

Lemma first_pass_result_inv (now : Q) (posts : list Post.t) :
  pass_inv (three_days_before now) (first_pass_result now posts).
Proof. apply first_pass_inv, pass_inv_empty. Qed.

Lemma selection_before_slice_length (now : Q) (posts : list Post.t) :
  length (selection_before_slice now posts) <= MAX_POSTS_FINAL.
Proof.
  unfold selection_before_slice.
  pose proof (inv_length _ _ (first_pass_result_inv now posts)) as Hlen.
  destruct (_ && _); [|assumption].
  now apply second_pass_length.
Qed.

(** The final slice [selected[:MAX_POSTS_FINAL]] never cuts anything. *)
Lemma final_slice_keeps_all (now : Q) (posts : list Post.t) :
  apply_diversity_and_recency now posts = selection_before_slice now posts.
Proof.
  unfold apply_diversity_and_recency, Py.slice_to.
  apply take_ge, selection_before_slice_length.
Qed.

(** What the second pass can add to any count over the selection. *)
Lemma selection_count_bound (now : Q) (f : Post.t -> bool) (posts : list Post.t) :
  count_where f (apply_diversity_and_recency now posts)
  <= count_where f (selected (first_pass_result now posts))
     + Nat.min (MIN_RECENT_POSTS - recent_in_selection (first_pass_result now posts))
               (length (deferred_recent (first_pass_result now posts))).
Proof.
  rewrite final_slice_keeps_all. unfold selection_before_slice.
  set (st := first_pass_result now posts).
  destruct (recent_in_selection st <? MIN_RECENT_POSTS) eqn:R; cbn [andb].
  - destruct (length (deferred_recent st) =? 0) eqn:D; cbn [negb].
    + lia.
    + set (ds := Py.sorted_reverse created_gt (deferred_recent st)).
      pose proof (second_pass_grows_by (three_days_before now) f ds
                    (selected st) (recent_in_selection st)) as G.
      pose proof (second_pass_occurrences (three_days_before now) f ds
                    (selected st) (recent_in_selection st)) as O.
      pose proof (count_where_le_length f ds) as L.
      unfold ds in L at 2.
      rewrite (Permutation_length (sorted_reverse_perm created_gt _)) in L.
      lia.
  - lia.
Qed.

(** C5. The output of the selector has at most 100 posts, and so has the
    selection before the final slice: the second pass appends only below
    the cap and otherwise replaces in place. *)
Theorem C5_output_within_global_cap (now : Q) (posts : list Post.t) :
  length (apply_diversity_and_recency now posts) <= 100
  /\ length (selection_before_slice now posts) <= 100.
Proof.
  rewrite final_slice_keeps_all.
  split; apply selection_before_slice_length.
Qed.

(** C10. No post occurs more often in the output of the selector than in
    its input; in particular every output post is an input post. *)
Theorem C10_output_is_submultiset_of_input (now : Q) (posts : list Post.t) :
  (forall p,
     count_occ Post.eq_dec (apply_diversity_and_recency now posts) p
     <= count_occ Post.eq_dec posts p)
  /\ (forall p, In p (apply_diversity_and_recency now posts) -> In p posts).
Proof.
  assert (H : forall p,
    count_occ Post.eq_dec (apply_diversity_and_recency now posts) p
    <= count_occ Post.eq_dec posts p).
  { intros p. rewrite !count_occ_count_where, final_slice_keeps_all.
    set (f := same_post p). unfold selection_before_slice.
    pose proof (first_pass_occurrences (three_days_before now) f
                  (Py.sorted_reverse rank_gt posts) empty_selection) as Hfp.
    fold (first_pass_result now posts) in Hfp.
    rewrite (count_where_perm f _ _ (sorted_reverse_perm rank_gt posts)) in Hfp.
    cbn [empty_selection selected deferred_recent] in Hfp.
    change (count_where f []) with 0 in Hfp.
    destruct (_ && _).
    - etransitivity; [apply second_pass_occurrences|].
      rewrite (count_where_perm f _ _ (sorted_reverse_perm created_gt _)). lia.
    - lia. }
  split; [exact H|].
  intros p Hp. apply (count_occ_In Post.eq_dec).
  apply (count_occ_In Post.eq_dec) in Hp. specialize (H p). lia.
Qed.

(** C1, as the code has it.  The posts admitted by the first pass number at
    most 3 per author value (the empty author included) and at most 20 with
    zero replies.  The second pass takes up deferred posts, which a cap had
    rejected, without checking the caps again: the output has at most [3 + k]
    posts per author and at most [20 + k] posts with zero replies, where [k]
    is the smaller of the number of recent posts the first pass is short of
    the quota and the number of deferred posts.  So both caps hold for the
    output when the first pass admitted 20 recent posts or deferred none. *)
Theorem C1_caps_hold_up_to_second_pass_admissions (now : Q) (posts : list Post.t) :
  let st := first_pass_result now posts in
  let k := Nat.min (20 - recent_in_selection st) (length (deferred_recent st)) in
  (forall a, count_where (by_author a) (selected st) <= 3)
  /\ count_where zero_replies (selected st) <= 20
  /\ (forall a,
        count_where (by_author a) (apply_diversity_and_recency now posts) <= 3 + k)
  /\ count_where zero_replies (apply_diversity_and_recency now posts) <= 20 + k.
Proof.
  intros st k.
  pose proof (first_pass_result_inv now posts) as [_ _ Hauthor Hzero _ _ _].
  fold st in Hauthor, Hzero.
  split; [exact Hauthor|]. split; [exact Hzero|]. split.
  - intros a. pose proof (selection_count_bound now (by_author a) posts) as B.
    specialize (Hauthor a). fold st in B.
    unfold MAX_POSTS_PER_AUTHOR, MIN_RECENT_POSTS in *. subst k. lia.
  - pose proof (selection_count_bound now zero_replies posts) as B.
    fold st in B.
    unfold MAX_NO_COMMENT_POSTS, MIN_RECENT_POSTS in *. subst k. lia.
Qed.

(** As long as the first pass does not fill the selection, it admits or
    defers every recent post it is given. *)
Lemma first_pass_reaches_all_recent (tda : Q) (posts_sorted : list Post.t)
    (st : Selection) :
  length (selected (first_pass tda posts_sorted st)) < MAX_POSTS_FINAL ->
  count_where (is_recent tda) (selected (first_pass tda posts_sorted st))
  + length (deferred_recent (first_pass tda posts_sorted st))
  = count_where (is_recent tda) (selected st) + length (deferred_recent st)
    + count_where (is_recent tda) posts_sorted.
Proof.
  revert st. induction posts_sorted as [|post rest IH]; intros st.
  - intros _. cbn [first_pass]. change (count_where (is_recent tda) []) with 0.
    lia.
  - rewrite first_pass_cons, (count_where_cons (is_recent tda) post rest).
    assert (Hdefer :
      count_where (is_recent tda)
        (selected (defer_if (is_recent tda post) post st))
      + length (deferred_recent (defer_if (is_recent tda post) post st))
      = count_where (is_recent tda) (selected st) + length (deferred_recent st)
        + (if is_recent tda post then 1 else 0)).
    { unfold defer_if. destruct (is_recent tda post); cbn [selected deferred_recent];
        [rewrite length_app; cbn [length]|]; lia. }
    destruct (MAX_POSTS_FINAL <=? length (selected st)) eqn:Full.
    { apply Nat.leb_le in Full. lia. }
    destruct (MAX_POSTS_PER_AUTHOR <=? _).
    { intros H. rewrite (IH _ H). lia. }
    destruct (_ && _).
    { intros H. rewrite (IH _ H). lia. }
    intros H. rewrite (IH _ H). cbn [add_post selected deferred_recent].
    rewrite count_where_snoc. lia.
Qed.

(** When the first pass has admitted or deferred at least 20 recent posts,
    the selection ends with at least 20 recent posts. *)
Lemma recent_quota_from_first_pass (now : Q) (posts : list Post.t) :
  20 <= recent_in_selection (first_pass_result now posts)
        + length (deferred_recent (first_pass_result now posts)) ->
  20 <= count_where (is_recent (three_days_before now))
          (selection_before_slice now posts).
Proof.
  intros Hreach. unfold selection_before_slice.
  pose proof (first_pass_result_inv now posts) as [_ _ _ _ Hrec Hdef _].
  set (st := first_pass_result now posts) in *.
  destruct (recent_in_selection st <? MIN_RECENT_POSTS) eqn:R; cbn [andb].
  - destruct (length (deferred_recent st) =? 0) eqn:D; cbn [negb].
    + apply Nat.eqb_eq in D. apply Nat.ltb_lt in R.
      unfold MIN_RECENT_POSTS in R. lia.
    + etransitivity; [|apply second_pass_recent; [exact Hrec|]].
      * rewrite (Permutation_length (sorted_reverse_perm created_gt _)).
        unfold MIN_RECENT_POSTS. lia.
      * intros p Hp. apply Hdef.
        eapply Permutation_in; [apply sorted_reverse_perm|exact Hp].
  - apply Nat.ltb_ge in R. unfold MIN_RECENT_POSTS in R. lia.
Qed.

(** C2, as the code has it.  When the first pass reaches at least 20 recent
    posts before it stops at the global cap (each of them is admitted or
    deferred), the output contains at least 20 recent posts. *)
Theorem C2_recent_quota_met_when_first_pass_reaches_it (now : Q)
    (posts : list Post.t) :
  20 <= recent_in_selection (first_pass_result now posts)
        + length (deferred_recent (first_pass_result now posts)) ->
  20 <= count_where (is_recent (three_days_before now))
          (apply_diversity_and_recency now posts).
Proof.
  intros Hreach. rewrite final_slice_keeps_all.
  now apply recent_quota_from_first_pass.
Qed.

(** In particular the quota is met when the input has 20 recent posts and
    the first pass admits fewer than 100 posts. *)
Lemma recent_quota_met_when_selection_not_full (now : Q) (posts : list Post.t) :
  20 <= count_where (is_recent (three_days_before now)) posts ->
  length (selected (first_pass_result now posts)) < MAX_POSTS_FINAL ->
  20 <= count_where (is_recent (three_days_before now))
          (apply_diversity_and_recency now posts).
Proof.
  intros Hin Hroom. rewrite final_slice_keeps_all.
  apply recent_quota_from_first_pass.
  pose proof (first_pass_reaches_all_recent (three_days_before now)
                (Py.sorted_reverse rank_gt posts) empty_selection Hroom) as Hall.
  fold (first_pass_result now posts) in Hall.
  rewrite (count_where_perm _ _ _ (sorted_reverse_perm rank_gt posts)) in Hall.
  cbn [empty_selection selected deferred_recent length] in Hall.
  change (count_where (is_recent (three_days_before now)) []) with 0 in Hall.
  rewrite (inv_recent _ _ (first_pass_result_inv now posts)). lia.
Qed.

(** ** CommentSampler *)

Lemma string_length_app (s1 s2 : string) :
  String.length (s1 +:+ s2) = String.length s1 + String.length s2.
Proof. induction s1 as [|c s1 IH]; simpl; [reflexivity|now rewrite IH]. Qed.

Lemma string_length_prefix (n : nat) (s : string) :
  String.length (String.substring 0 n s) = Nat.min n (String.length s).
Proof.
  revert s. induction n as [|n IH]; intros [|c s]; simpl; try reflexivity.
  now rewrite IH.
Qed.

(** Before the mentions are replaced, a body has at most 400 + 3
    characters. *)
Lemma truncate_body_length (body : string) :
  String.length (truncate_body body) <= COMMENT_BODY_TRUNCATE + 3.
Proof.
  unfold truncate_body.
  destruct (COMMENT_BODY_TRUNCATE <? String.length body) eqn:E.
  - rewrite string_length_app, string_length_prefix.
    change (String.length "...") with 3. lia.
  - apply Nat.ltb_ge in E. lia.
Qed.

(** The sampler returns at most [max_count] comments. *)
Lemma select_best_comments_length (comments : list Comment.t) (max_count : nat) :
  length (select_best_comments comments max_count) <= max_count.
Proof.
  unfold select_best_comments, Py.slice_to.
  rewrite length_map, length_take. lia.
Qed.


(** ** WindowedFetcher: the loop over the windows *)

(** Unfolds the classification of an outcome down to the answer of
    [fetch_arctic_shift_posts]. *)
Ltac unfold_outcome :=
  unfold accepted, aborts, rejected in *;
  unfold succeeds, filtered_of, outcome_error, outcome_status, outcome in *.

Lemma search_windows_cons (up : Upstream) (normalized : string)
    (w : string * string) (rest : list (string * string))
    (posts : list Post.t) (used_window : string) (debug : DebugInfo)
    (requests : list (string * string)) :
  exists debug_err debug_ok,
    search_windows up normalized (w :: rest) posts used_window debug requests
    = if negb (succeeds up normalized w) then
        if aborts up normalized w
        then Aborted (outcome_error up normalized w) debug_err (requests ++ [w])
        else search_windows up normalized rest posts used_window debug_err
               (requests ++ [w])
      else if accepted up normalized w
      then Finished (filtered_of up normalized w) (window_str w) debug_ok
             (requests ++ [w])
      else if length posts <? length (filtered_of up normalized w)
      then search_windows up normalized rest (filtered_of up normalized w)
             (window_str w) debug_ok (requests ++ [w])
      else search_windows up normalized rest posts used_window debug_ok
             (requests ++ [w]).
Proof.
  destruct w as [after before]. unfold_outcome.
  cbn [search_windows fst snd].
  destruct (fetch_arctic_shift_posts up normalized after before)
    as [[fetched status] error].
  cbn [fst snd]. eexists _, _.
  destruct (truthy error); cbn [negb andb]; reflexivity.
Qed.

(** The request log only grows. *)
Lemma search_windows_requests_grow (up : Upstream) (normalized : string)
    (ws : list (string * string)) (posts : list Post.t) (used_window : string)
    (debug : DebugInfo) (requests : list (string * string)) :
  exists more,
    requests_of (search_windows up normalized ws posts used_window debug requests)
    = requests ++ more.
Proof.
  revert posts used_window debug requests.
  induction ws as [|w rest IH]; intros posts used_window debug requests.
  - exists []. simpl. now rewrite app_nil_r.
  - destruct (search_windows_cons up normalized w rest posts used_window debug
                requests) as (de & dk & ->).
    assert (Hrec : forall p u d,
      exists more,
        requests_of (search_windows up normalized rest p u d (requests ++ [w]))
        = requests ++ more).
    { intros p u d. destruct (IH p u d (requests ++ [w])) as [more ->].
      exists (w :: more). now rewrite <- app_assoc. }
    destruct (negb _); [destruct (aborts _ _ _)|destruct (accepted _ _ _)];
      try apply Hrec; try (exists [w]; reflexivity).
    destruct (_ <? _); apply Hrec.
Qed.

(** Over windows that neither abort nor reach the threshold the loop keeps
    the first largest filtered output seen so far and requests each window
    once, in order. *)
Lemma search_windows_prefix (up : Upstream) (normalized : string)
    (pre : list (string * string)) (posts : list Post.t) (used_window : string)
    (debug : DebugInfo) (requests : list (string * string)) :
  (forall v, In v pre ->
     aborts up normalized v = false /\ accepted up normalized v = false) ->
  exists posts' used' debug',
    (forall rest,
       search_windows up normalized (pre ++ rest) posts used_window debug requests
       = search_windows up normalized rest posts' used' debug' (requests ++ pre))
    /\ length posts <= length posts'
    /\ (forall v, In v pre -> succeeds up normalized v = true ->
          length (filtered_of up normalized v) <= length posts')
    /\ ((posts' = posts /\ used' = used_window)
        \/ exists v, In v pre /\ succeeds up normalized v = true
                     /\ posts' = filtered_of up normalized v
                     /\ used' = window_str v).
Proof.
  revert posts used_window debug requests.
  induction pre as [|w pre IH]; intros posts used_window debug requests Hpre.
  - exists posts, used_window, debug. rewrite app_nil_r.
    split; [reflexivity|]. split; [lia|]. split; [intros v []|now left].
  - destruct (Hpre w (or_introl eq_refl)) as [Hab Hacc].
    assert (Hpre' : forall v, In v pre ->
      aborts up normalized v = false /\ accepted up normalized v = false)
      by (intros v Hv; apply Hpre; now right).
    destruct (succeeds up normalized w
              && (length posts <? length (filtered_of up normalized w))) eqn:C.
    + apply andb_true_iff in C as [Hs Hlt]. apply Nat.ltb_lt in Hlt.
      assert (Hd : exists d, forall rest,
        search_windows up normalized ((w :: pre) ++ rest) posts used_window
          debug requests
        = search_windows up normalized (pre ++ rest)
            (filtered_of up normalized w) (window_str w) d (requests ++ [w])).
      { cbn [app].
        destruct w as [after before]. unfold_outcome.
        cbn [fst snd] in *. cbn [search_windows].
        destruct (fetch_arctic_shift_posts up normalized after before)
          as [[fetched status] error].
        cbn [fst snd] in *.
        destruct (truthy error); [discriminate|]. cbn [negb andb] in Hacc.
        rewrite Hacc. apply Nat.ltb_lt in Hlt. rewrite Hlt.
        eexists. intros rest. reflexivity. }
      destruct Hd as [d Hd].
      destruct (IH (filtered_of up normalized w) (window_str w) d
                  (requests ++ [w]) Hpre')
        as (posts' & used' & debug' & Heq & Hlen & Hmax & Horigin).
      exists posts', used', debug'. split.
      { intros rest. rewrite Hd, Heq. now rewrite <- app_assoc. }
      split; [lia|]. split.
      { intros v [<-|Hv] Hsv; [assumption|now apply Hmax]. }
      right. destruct Horigin as [[-> ->]|(v & Hv & Hsv & -> & ->)].
      * exists w. split; [now left|]. now split.
      * exists v. split; [now right|]. now split.
    + assert (Hd : exists d, forall rest,
        search_windows up normalized ((w :: pre) ++ rest) posts used_window
          debug requests
        = search_windows up normalized (pre ++ rest) posts used_window d
            (requests ++ [w])).
      { cbn [app].
        destruct w as [after before]. unfold_outcome.
        cbn [fst snd] in *. cbn [search_windows].
        destruct (fetch_arctic_shift_posts up normalized after before)
          as [[fetched status] error].
        cbn [fst snd] in *.
        destruct (truthy error); cbn [negb andb] in *.
        - rewrite Hab. eexists. intros rest. reflexivity.
        - rewrite Hacc, C. eexists. intros rest. reflexivity. }
      destruct Hd as [d Hd].
      destruct (IH posts used_window d (requests ++ [w]) Hpre')
        as (posts' & used' & debug' & Heq & Hlen & Hmax & Horigin).
      exists posts', used', debug'. split.
      { intros rest. rewrite Hd, Heq. now rewrite <- app_assoc. }
      split; [lia|]. split.
      { intros v [<-|Hv] Hsv; [|now apply Hmax].
        rewrite Hsv in C. cbn [andb] in C. apply Nat.ltb_ge in C. lia. }
      destruct Horigin as [[-> ->]|(v & Hv & Hsv & -> & ->)]; [now left|].
      right. exists v. split; [now right|]. now split.
Qed.


(** C4, as the code has it.  With [windows] tried in order and no request
    answered with a rate limit or a server error (such an answer ends the
    search with its error): when a window's filtered count
    reaches 150 (no earlier window having stopped the loop), the loop ends
    with exactly that window's filtered output and has requested that window
    and the ones before it, nothing after; when no window reaches 150 (and
    none aborts), all windows are requested and the loop ends with a
    filtered output of maximal size among the successful windows (the empty
    list with no window name when nothing was found). *)
Theorem C4_accepts_first_full_window_else_largest (up : Upstream)
    (normalized : string) (debug0 : DebugInfo) :
  (forall pre w post,
     windows = pre ++ w :: post ->
     (forall v, In v pre ->
        aborts up normalized v = false /\ accepted up normalized v = false) ->
     accepted up normalized w = true ->
     exists debug,
       search_windows up normalized windows [] "" debug0 []
       = Finished (filtered_of up normalized w) (window_str w) debug
           (pre ++ [w]))
  /\ ((forall v, In v windows ->
         aborts up normalized v = false /\ accepted up normalized v = false) ->
      exists posts used debug,
        search_windows up normalized windows [] "" debug0 []
        = Finished posts used debug windows
        /\ (forall v, In v windows -> succeeds up normalized v = true ->
              length (filtered_of up normalized v) <= length posts)
        /\ ((posts = [] /\ used = ""%string)
            \/ exists v, In v windows /\ succeeds up normalized v = true
                         /\ posts = filtered_of up normalized v
                         /\ used = window_str v)).
Proof.
  split.
  - intros pre w post Hsplit Hpre Hacc. rewrite Hsplit.
    destruct (search_windows_prefix up normalized pre [] "" debug0 [] Hpre)
      as (posts' & used' & debug' & Heq & _).
    rewrite Heq.
    destruct (search_windows_cons up normalized w post posts' used' debug'
                ([] ++ pre)) as (de & dk & ->).
    assert (Hs : succeeds up normalized w = true).
    { unfold accepted in Hacc. now apply andb_true_iff in Hacc as [? _]. }
    rewrite Hs, Hacc. cbn [negb app]. now exists dk.
  - intros Hall.
    destruct (search_windows_prefix up normalized windows [] "" debug0 [] Hall)
      as (posts' & used' & debug' & Heq & _ & Hmax & Horigin).
    exists posts', used', debug'. split; [|split; assumption].
    specialize (Heq []). rewrite app_nil_r in Heq. rewrite Heq. reflexivity.
Qed.

(** A failed request writes its status and its error into the debug record
    and leaves the candidate as it is. *)
Lemma search_windows_failed (up : Upstream) (normalized : string)
    (w : string * string) (rest : list (string * string))
    (posts : list Post.t) (used_window : string) (debug : DebugInfo)
    (requests : list (string * string)) :
  succeeds up normalized w = false ->
  exists debug',
    error_details debug' = outcome_error up normalized w
    /\ posts_status debug' = outcome_status up normalized w
    /\ search_windows up normalized (w :: rest) posts used_window debug requests
       = if aborts up normalized w
         then Aborted (outcome_error up normalized w) debug' (requests ++ [w])
         else search_windows up normalized rest posts used_window debug'
                (requests ++ [w]).
Proof.
  destruct w as [after before]. unfold_outcome.
  cbn [search_windows fst snd].
  destruct (fetch_arctic_shift_posts up normalized after before)
    as [[fetched status] error].
  cbn [fst snd]. intros Hs. apply negb_false_iff in Hs. rewrite Hs.
  cbn [andb]. eexists. split; [|split]. 3: reflexivity. all: reflexivity.
Qed.

(** A search over windows that are left requests the first of them. *)
Lemma search_windows_requests_next (up : Upstream) (normalized : string)
    (ws : list (string * string)) (posts : list Post.t) (used_window : string)
    (debug : DebugInfo) (requests : list (string * string)) :
  exists more,
    requests_of (search_windows up normalized ws posts used_window debug requests)
    = requests ++ take 1 ws ++ more.
Proof.
  destruct ws as [|next ws].
  { exists []. cbn. now rewrite app_nil_r. }
  destruct (search_windows_cons up normalized next ws posts used_window debug
              requests) as (de & dk & ->).
  assert (Hrec : forall p u d,
    exists more,
      requests_of (search_windows up normalized ws p u d (requests ++ [next]))
      = requests ++ take 1 (next :: ws) ++ more).
  { intros p u d.
    destruct (search_windows_requests_grow up normalized ws p u d
                (requests ++ [next])) as [more ->].
    exists more. rewrite <- app_assoc. reflexivity. }
  destruct (negb _); [destruct (aborts _ _ next)|destruct (accepted _ _ next)];
    try apply Hrec; try (exists []; reflexivity).
  destruct (_ <? _); apply Hrec.
Qed.

(** C9, as the code has it.  A not-found (404) or forbidden (403) answer
    is a failed request that does not end the search.  After a failed
    request that is not a rate limit or a server error, the loop has
    recorded the status and the error in the debug record, still holds the
    candidate (posts and window name) it had before the request, and goes on
    with the remaining windows from there, requesting the next, wider
    window.  Only a rate limit or a server error (429, 502, 503, 504) ends
    it, with the error and no further request. *)
Theorem C9_rejection_moves_on_to_next_window (up : Upstream)
    (normalized : string) (debug0 : DebugInfo)
    (pre : list (string * string)) (w : string * string)
    (post : list (string * string)) :
  windows = pre ++ w :: post ->
  (forall v, In v pre ->
     aborts up normalized v = false /\ accepted up normalized v = false) ->
  exists posts used_window debug_before,
    search_windows up normalized pre [] "" debug0 []
    = Finished posts used_window debug_before pre
    /\ (rejected up normalized w = true ->
        succeeds up normalized w = false /\ aborts up normalized w = false)
    /\ (succeeds up normalized w = false ->
        aborts up normalized w = false ->
        exists debug,
          search_windows up normalized windows [] "" debug0 []
          = search_windows up normalized post posts used_window debug
              (pre ++ [w])
          /\ error_details debug = outcome_error up normalized w
          /\ posts_status debug = outcome_status up normalized w
          /\ exists more,
               requests_of (search_windows up normalized windows [] "" debug0 [])
               = pre ++ w :: take 1 post ++ more)
    /\ (aborts up normalized w = true ->
        exists debug,
          search_windows up normalized windows [] "" debug0 []
          = Aborted (outcome_error up normalized w) debug (pre ++ [w])
          /\ error_details debug = outcome_error up normalized w
          /\ posts_status debug = outcome_status up normalized w).
Proof.
  intros Hsplit Hpre. rewrite Hsplit.
  destruct (search_windows_prefix up normalized pre [] "" debug0 [] Hpre)
    as (posts' & used' & debug' & Heq & _).
  exists posts', used', debug'.
  split.
  { specialize (Heq []). rewrite app_nil_r in Heq. exact Heq. }
  rewrite Heq. cbn [app].
  split; [|split].
  - intros Hrej. unfold_outcome.
    destruct (fetch_arctic_shift_posts up normalized (fst w) (snd w))
      as [[fetched status] error]. cbn [fst snd] in *.
    apply andb_true_iff in Hrej as [-> Hst]. cbn [negb andb].
    destruct status as [z|]; [|discriminate]. cbn [aborting_status].
    apply orb_true_iff in Hst as [E|E]; apply Z.eqb_eq in E; subst z;
      now split.
  - intros Hs Hab.
    destruct (search_windows_failed up normalized w post posts' used' debug'
                pre Hs) as (de & Herr & Hstatus & ->).
    rewrite Hab. exists de.
    split; [reflexivity|]. split; [exact Herr|]. split; [exact Hstatus|].
    destruct (search_windows_requests_next up normalized post posts' used' de
                (pre ++ [w])) as [more ->].
    exists more. now rewrite <- app_assoc.
  - intros Hab.
    assert (Hs : succeeds up normalized w = false).
    { unfold_outcome. apply andb_true_iff in Hab as [-> _]. reflexivity. }
    destruct (search_windows_failed up normalized w post posts' used' debug'
                pre Hs) as (de & Herr & Hstatus & ->).
    rewrite Hab. exists de. now split.
Qed.


(** ** ResultCache *)

(** An entry younger than the TTL is served as it is, without any request
    and without touching the cache. *)
Lemma fetch_serves_fresh_entry (up : Upstream) (current_time now : Q)
    (subreddit : string) (reddit_cache : gmap string CacheEntry)
    (entry : CacheEntry) :
  normalize_subreddit subreddit <> ""%string ->
  reddit_cache !! lower (normalize_subreddit subreddit) = Some entry ->
  (current_time - timestamp entry < inject_Z CACHE_TTL_SECONDS)%Q ->
  exists debug,
    fetch_reddit_posts up current_time now subreddit reddit_cache
    = (mkFetchResult (data_posts entry) (data_comments entry) None true debug,
       reddit_cache).
Proof.
  intros Hne Hlook Hfresh. unfold fetch_reddit_posts.
  apply String.eqb_neq in Hne. rewrite Hne, Hlook.
  apply Qltb_lt in Hfresh. rewrite Hfresh. eexists. reflexivity.
Qed.

(** An entry as old as the TTL or older is as good as absent: the call
    returns what it returns without the entry, and never from the cache. *)
Lemma fetch_ignores_stale_entry (up : Upstream) (current_time now : Q)
    (subreddit : string) (reddit_cache : gmap string CacheEntry)
    (entry : CacheEntry) :
  reddit_cache !! lower (normalize_subreddit subreddit) = Some entry ->
  (inject_Z CACHE_TTL_SECONDS <= current_time - timestamp entry)%Q ->
  fst (fetch_reddit_posts up current_time now subreddit reddit_cache)
  = fst (fetch_reddit_posts up current_time now subreddit
           (delete (lower (normalize_subreddit subreddit)) reddit_cache))
  /\ r_used_cache
       (fst (fetch_reddit_posts up current_time now subreddit reddit_cache))
     = false.
Proof.
  intros Hlook Hstale. unfold fetch_reddit_posts.
  destruct (normalize_subreddit subreddit =? "")%string; [now split|].
  rewrite Hlook, lookup_delete_eq.
  apply Qltb_ge in Hstale. rewrite Hstale.
  destruct (search_windows _ _ _ _ _ _ _) as [e d r|posts used d r];
    [now split|].
  destruct posts as [|p posts]; [now split|].
  destruct (comments_loop _ _ _ _) as [pc total]. now split.
Qed.

(** The early [return] of the loop hands back a non-empty error message. *)
Lemma search_windows_aborted_error (up : Upstream) (normalized : string)
    (ws : list (string * string)) (posts : list Post.t) (used_window : string)
    (debug : DebugInfo) (requests : list (string * string))
    (error : option string) (debug' : DebugInfo)
    (requests' : list (string * string)) :
  search_windows up normalized ws posts used_window debug requests
  = Aborted error debug' requests' ->
  truthy error = true.
Proof.
  revert posts used_window debug requests.
  induction ws as [|w rest IH]; intros posts used_window debug requests;
    [discriminate|].
  destruct (search_windows_cons up normalized w rest posts used_window debug
              requests) as (de & dk & ->).
  destruct (negb (succeeds up normalized w)) eqn:S.
  - destruct (aborts up normalized w); [|apply IH].
    intros [= <- _ _]. unfold succeeds in S. now rewrite negb_involutive in S.
  - destruct (accepted up normalized w); [discriminate|].
    destruct (_ <? _); apply IH.
Qed.

(** A call that returns without error and not from the cache has written
    what it returns into the cache, stamped with the clock reading taken at
    its start. *)
Lemma fetch_writes_cache (up : Upstream) (current_time now : Q)
    (subreddit : string) (reddit_cache : gmap string CacheEntry) :
  let run := fetch_reddit_posts up current_time now subreddit reddit_cache in
  r_error (fst run) = None ->
  r_used_cache (fst run) = false ->
  normalize_subreddit subreddit <> ""%string
  /\ snd run
     = <[lower (normalize_subreddit subreddit) :=
           mkCacheEntry (r_posts (fst run)) (r_post_comments (fst run))
             current_time]> reddit_cache.
Proof.
  unfold fetch_reddit_posts.
  destruct (String.eqb_spec (normalize_subreddit subreddit) "") as [E|E];
    [discriminate|].
  match goal with
  | |- context [match ?c with Some _ => _ | None => _ end] =>
      destruct c as [[entry age]|] eqn:C
  end; [discriminate|].
  destruct (search_windows _ _ _ _ _ _ _) as [e d r|posts used d r] eqn:S.
  - cbn [fst r_error]. intros ->.
    apply search_windows_aborted_error in S. discriminate.
  - destruct posts as [|p posts]; [discriminate|].
    destruct (comments_loop _ _ _ _) as [pc total]. cbn. now split.
Qed.

(** C7.  After a call that ran the pipeline at [t1] and wrote the cache, a
    call at [t2] for a subject with the same key returns the cached posts
    and comment bundles with [used_cache = True] when [t2 - t1 < 600], and
    when [t2 - t1 >= 600] it returns what it would return without the
    entry, never from the cache. *)
Theorem C7_cache_served_within_ttl_only (up1 up2 : Upstream)
    (t1 now1 t2 now2 : Q) (subreddit1 subreddit2 : string)
    (reddit_cache : gmap string CacheEntry) :
  let first := fetch_reddit_posts up1 t1 now1 subreddit1 reddit_cache in
  let second := fetch_reddit_posts up2 t2 now2 subreddit2 (snd first) in
  r_error (fst first) = None ->
  r_used_cache (fst first) = false ->
  normalize_subreddit subreddit2 <> ""%string ->
  lower (normalize_subreddit subreddit2) = lower (normalize_subreddit subreddit1) ->
  ((t2 - t1 < inject_Z 600)%Q ->
     r_posts (fst second) = r_posts (fst first)
     /\ r_post_comments (fst second) = r_post_comments (fst first)
     /\ r_error (fst second) = None
     /\ r_used_cache (fst second) = true
     /\ snd second = snd first)
  /\ ((inject_Z 600 <= t2 - t1)%Q ->
        fst second
        = fst (fetch_reddit_posts up2 t2 now2 subreddit2
                 (delete (lower (normalize_subreddit subreddit2)) (snd first)))
        /\ r_used_cache (fst second) = false).
Proof.
  intros first second Herr Hmiss Hne Hkey.
  destruct (fetch_writes_cache up1 t1 now1 subreddit1 reddit_cache Herr Hmiss)
    as [_ Hwrite].
  fold first in Hwrite.
  assert (Hlook : snd first !! lower (normalize_subreddit subreddit2)
                  = Some (mkCacheEntry (r_posts (fst first))
                            (r_post_comments (fst first)) t1)).
  { rewrite Hwrite, Hkey. apply lookup_insert_eq. }
  split.
  - intros Hfresh.
    destruct (fetch_serves_fresh_entry up2 t2 now2 subreddit2 (snd first) _
                Hne Hlook Hfresh) as [debug Heq].
    unfold second. rewrite Heq. cbn. repeat split; reflexivity.
  - intros Hstale.
    exact (fetch_ignores_stale_entry up2 t2 now2 subreddit2 (snd first) _
             Hlook Hstale).
Qed.

(** ** ThrottleGuard *)

Lemma int_nonneg (q : Q) : (0 <= q)%Q -> (0 <= Py.int q)%Z.
Proof.
  intros H. unfold Py.int. apply Z.quot_pos; [|lia].
  unfold Qle in H. simpl in H. lia.
Qed.

Lemma int_ge_1 (q : Q) : (1 <= q)%Q -> (1 <= Py.int q)%Z.
Proof.
  intros H. unfold Py.int.
  assert (0 < Qnum q `quot` Z.pos (Qden q))%Z; [|lia].
  apply Z.quot_str_pos. unfold Qle in H. simpl in H. lia.
Qed.

Lemma int_lt_1 (q : Q) : (0 <= q)%Q -> (q < 1)%Q -> Py.int q = 0%Z.
Proof.
  intros H0 H1. unfold Py.int. apply Z.quot_small.
  unfold Qle in H0. unfold Qlt in H1. simpl in *. lia.
Qed.

(** C6, as the code has it.  After an attempt recorded at [t1], a check at
    [t2] for a subject with the same key: when [t2 - t1 < 30], it rejects
    and reports [int(30 - (t2 - t1))] seconds, which is never negative and
    is at least 1 when at least one whole second remains ([t2 - t1 <= 29]);
    when [t2 - t1 >= 30], it accepts and reports 0. *)
Theorem C6_throttle_rejects_within_30s (t1 t2 : Q)
    (subreddit1 subreddit2 : string) (last_scan_times : gmap string Q) :
  lower (normalize_subreddit subreddit2) = lower (normalize_subreddit subreddit1) ->
  let recorded := update_scan_time t1 subreddit1 last_scan_times in
  ((t2 - t1 < inject_Z 30)%Q ->
     exists remaining,
       check_throttle t2 subreddit2 recorded = (true, remaining)
       /\ remaining = Py.int (inject_Z 30 - (t2 - t1))%Q
       /\ (0 <= remaining)%Z
       /\ ((t2 - t1 <= inject_Z 29)%Q -> (1 <= remaining)%Z))
  /\ ((inject_Z 30 <= t2 - t1)%Q ->
        check_throttle t2 subreddit2 recorded = (false, 0%Z)).
Proof.
  intros Hkey recorded. unfold recorded, check_throttle, update_scan_time.
  rewrite Hkey, lookup_insert_eq. unfold THROTTLE_SECONDS. split.
  - intros Hlt. pose proof Hlt as Hb. apply Qltb_lt in Hb. rewrite Hb.
    eexists. split; [reflexivity|]. split; [reflexivity|].
    unfold inject_Z in *. split.
    + apply int_nonneg. lra.
    + intros H29. apply int_ge_1. lra.
  - intros Hge. apply Qltb_ge in Hge. now rewrite Hge.
Qed.


(** ** Posts of equal rank *)

(** The sort by rank leaves posts of equal rank in their input order. *)
Lemma sorted_by_rank_ties (posts : list Post.t) (r : Q) :
  Forall (fun p => calculate_post_rank p = r) posts ->
  Py.sorted_reverse rank_gt posts = posts.
Proof.
  intros H. apply sorted_reverse_ties. intros a b Ha Hb.
  rewrite List.Forall_forall in H. unfold rank_gt.
  rewrite (H a Ha), (H b Hb). apply Qltb_irrefl.
Qed.


(** During the last second of the interval the check still rejects, and
    the whole seconds it reports are 0. *)
Lemma throttle_last_second_reports_zero (t1 t2 : Q) (subreddit : string)
    (last_scan_times : gmap string Q) :
  (inject_Z 29 < t2 - t1)%Q ->
  (t2 - t1 < inject_Z 30)%Q ->
  check_throttle t2 subreddit (update_scan_time t1 subreddit last_scan_times)
  = (true, 0%Z).
Proof.
  intros H29 H30. unfold check_throttle, update_scan_time.
  rewrite lookup_insert_eq. unfold THROTTLE_SECONDS.
  pose proof H30 as Hb. apply Qltb_lt in Hb. rewrite Hb.
  f_equal. unfold inject_Z in *. apply int_lt_1; lra.
Qed.

End Pipeline.

(** ** The properties at concrete inputs *)

(** All posts built by [example_post] have the same rank, whatever the rank
    values are. *)
Lemma example_posts_tie (rank_value : Z -> Z -> nat -> Q)
    (mk : nat -> Post.t) (ns : list nat) :
  (forall i, exists id author created, mk i = example_post id author created) ->
  Forall (fun p => calculate_post_rank rank_value p = rank_value 5%Z 1%Z 0)
    (map mk ns).
Proof.
  intros Hmk. apply List.Forall_forall. intros p Hp.
  apply in_map_iff in Hp as (i & <- & _).
  destruct (Hmk i) as (id & author & created & ->). reflexivity.
Qed.

Lemma four_by_alice_sorted (rank_value : Z -> Z -> nat -> Q) :
  Py.sorted_reverse (rank_gt rank_value) four_by_alice = four_by_alice.
Proof.
  apply (sorted_by_rank_ties rank_value _ (rank_value 5%Z 1%Z 0)).
  apply example_posts_tie. intros i. eexists _, _, _. reflexivity.
Qed.

Lemma crowded_posts_sorted (rank_value : Z -> Z -> nat -> Q) :
  Py.sorted_reverse (rank_gt rank_value) crowded_posts = crowded_posts.
Proof.
  apply (sorted_by_rank_ties rank_value _ (rank_value 5%Z 1%Z 0)).
  unfold crowded_posts. apply Forall_app. split;
    apply example_posts_tie; intros i; eexists _, _, _; reflexivity.
Qed.

(** Four recent posts of one author with equal ranks: the first pass admits
    three and defers the fourth, and the second pass appends it. *)
Lemma four_by_alice_all_selected (rank_value : Z -> Z -> nat -> Q) :
  apply_diversity_and_recency rank_value example_now four_by_alice
  = four_by_alice.
Proof.
  unfold apply_diversity_and_recency, selection_before_slice, first_pass_result.
  rewrite four_by_alice_sorted. vm_compute. reflexivity.
Qed.

(** C1 fails as stated: on four recent posts of one author the output holds
    four posts of that author, whatever the rank values are. *)
Lemma C1_counterexample_four_posts_of_one_author :
  exists a : string,
    forall rank_value : Z -> Z -> nat -> Q,
      MAX_POSTS_PER_AUTHOR
      < count_where (by_author a)
          (apply_diversity_and_recency rank_value example_now four_by_alice).
Proof.
  exists "alice"%string. intros rank_value.
  rewrite four_by_alice_all_selected. vm_compute. lia.
Qed.

(** On 100 older posts followed by 20 recent ones, all of equal rank, the
    first pass fills the selection with the older posts and stops before it
    sees a recent one: nothing is deferred and the second pass does not
    run. *)
Lemma crowded_posts_keep_older (rank_value : Z -> Z -> nat -> Q) :
  apply_diversity_and_recency rank_value example_now crowded_posts
  = hundred_older.
Proof.
  unfold apply_diversity_and_recency, selection_before_slice, first_pass_result.
  rewrite crowded_posts_sorted. vm_compute. reflexivity.
Qed.

(** C2 fails as stated: an input with 20 recent posts and 100 older posts
    whose output has no recent post, whatever the rank values are. *)
Lemma C2_counterexample_recent_posts_never_seen :
  20 <= count_where (is_recent (three_days_before example_now)) crowded_posts
  /\ 100 <= count_where
              (fun p => negb (is_recent (three_days_before example_now) p))
              crowded_posts
  /\ forall rank_value : Z -> Z -> nat -> Q,
       count_where (is_recent (three_days_before example_now))
         (apply_diversity_and_recency rank_value example_now crowded_posts)
       = 0.
Proof.
  split; [vm_compute; lia|]. split; [vm_compute; lia|].
  intros rank_value. rewrite crowded_posts_keep_older.
  vm_compute. reflexivity.
Qed.

(** C2 at twenty-three recent posts of one author followed by a hundred
    older posts: the first pass admits 3 recent posts, defers 20 and stops
    at 100 selected posts; the second pass puts 17 deferred posts in the
    place of older ones, and the output has twenty recent posts. *)
Lemma C2_witness_recent_posts_displace_older :
  (recent_in_selection (first_pass_result example_rank example_now recent_then_older)
   = 3
   /\ length (deferred_recent
                (first_pass_result example_rank example_now recent_then_older))
      = 20
   /\ length (selected
                (first_pass_result example_rank example_now recent_then_older))
      = 100)
  /\ count_where (is_recent (three_days_before example_now)) recent_then_older
     = 23
  /\ length (apply_diversity_and_recency example_rank example_now
               recent_then_older) = 100
  /\ 20 <= count_where (is_recent (three_days_before example_now))
             (apply_diversity_and_recency example_rank example_now
                recent_then_older).
Proof.
  assert (H : recent_in_selection
                (first_pass_result example_rank example_now recent_then_older)
              = 3
              /\ length (deferred_recent
                           (first_pass_result example_rank example_now
                              recent_then_older)) = 20
              /\ length (selected
                           (first_pass_result example_rank example_now
                              recent_then_older)) = 100).
  { vm_compute. repeat split. }
  split; [exact H|]. split; [vm_compute; reflexivity|].
  split; [vm_compute; reflexivity|].
  apply (C2_recent_quota_met_when_first_pass_reaches_it example_rank
           example_now recent_then_older).
  destruct H as (-> & -> & _). lia.
Defined.

(** C4 fails as stated when a window is answered with a rate limit.  The
    first window yields 100 filtered posts and the two wider ones are
    answered with 429: no window reaches 150 and the first has the maximum
    filtered count, yet the search ends after the second request and the
    fetch returns the error and no posts. *)
Lemma C4_counterexample_overload_drops_largest_window :
  map (fun w => length (filtered_of up_overloaded "testgame" w)) windows
  = [100; 0; 0]
  /\ map (accepted up_overloaded "testgame") windows = [false; false; false]
  /\ requests_of
       (search_windows up_overloaded "testgame" windows [] ""
          (new_debug "testgame" None) [])
     = [("8d", "36h"); ("8d", "12h")]%string
  /\ r_posts
       (fst (fetch_reddit_posts example_rank already_normal already_normal
               up_overloaded (inject_Z 1000) example_now "testgame" ∅))
     = []
  /\ r_error
       (fst (fetch_reddit_posts example_rank already_normal already_normal
               up_overloaded (inject_Z 1000) example_now "testgame" ∅))
     = Some "Rate limited. Try again later."%string.
Proof. repeat split; vm_compute; reflexivity. Qed.

(** C4 at two upstreams: one whose first window yields 200 good posts, one
    whose windows yield 3, 7 and 5. *)
Lemma C4_witness_full_and_small_windows :
  (accepted up_full "testgame" ("8d", "36h")%string = true
   /\ exists debug,
        search_windows up_full "testgame" windows [] ""
          (new_debug "testgame" None) []
        = Finished (filtered_of up_full "testgame" ("8d", "36h")%string)
            "8d..36h" debug [("8d", "36h")%string])
  /\ ((forall v, In v windows ->
         aborts up_small "testgame" v = false
         /\ accepted up_small "testgame" v = false)
      /\ exists posts used debug,
           search_windows up_small "testgame" windows [] ""
             (new_debug "testgame" None) []
           = Finished posts used debug windows
           /\ (forall v, In v windows -> succeeds up_small "testgame" v = true ->
                 length (filtered_of up_small "testgame" v) <= length posts)
           /\ ((posts = [] /\ used = ""%string)
               \/ exists v, In v windows /\ succeeds up_small "testgame" v = true
                            /\ posts = filtered_of up_small "testgame" v
                            /\ used = window_str v)).
Proof.
  assert (Hfull : accepted up_full "testgame" ("8d", "36h")%string = true)
    by (vm_compute; reflexivity).
  assert (Hsmall : forall v, In v windows ->
            aborts up_small "testgame" v = false
            /\ accepted up_small "testgame" v = false).
  { intros v [<-|[<-|[<-|[]]]]; split; vm_compute; reflexivity. }
  split.
  - split; [exact Hfull|].
    exact (proj1 (C4_accepts_first_full_window_else_largest up_full "testgame"
                    (new_debug "testgame" None))
             [] ("8d", "36h")%string [("8d", "12h"); ("8d", "0h")]%string
             eq_refl (fun v (H : In v []) => False_ind _ H) Hfull).
  - split; [exact Hsmall|].
    exact (proj2 (C4_accepts_first_full_window_else_largest up_small "testgame"
                    (new_debug "testgame" None)) Hsmall).
Defined.

(** The example with 3, 7 and 5 posts ends with the second window. *)
Lemma small_windows_use_the_largest :
  exists debug,
    search_windows up_small "testgame" windows [] ""
      (new_debug "testgame" None) []
    = Finished (filtered_of up_small "testgame" ("8d", "12h")%string)
        "8d..12h" debug windows.
Proof. eexists. vm_compute. reflexivity. Qed.

(** C6 fails as stated: 29.5 seconds after the recorded attempt the check
    rejects and reports 0 seconds. *)
Lemma C6_counterexample_zero_seconds_remaining :
  ((2059 # 2) - inject_Z 1000 < inject_Z 30)%Q
  /\ check_throttle already_normal already_normal (2059 # 2) "testgame"
       (update_scan_time already_normal already_normal (inject_Z 1000)
          "testgame" ∅)
     = (true, 0%Z).
Proof. split; [reflexivity|]. vm_compute. reflexivity. Qed.

(** C6 ten seconds and forty seconds after the recorded attempt. *)
Lemma C6_witness_ten_and_forty_seconds :
  (((inject_Z 1010 - inject_Z 1000 < inject_Z 30)%Q
    /\ exists remaining,
         check_throttle already_normal already_normal (inject_Z 1010) "testgame"
           (update_scan_time already_normal already_normal (inject_Z 1000)
              "testgame" ∅)
         = (true, remaining)
         /\ remaining = Py.int (inject_Z 30 - (inject_Z 1010 - inject_Z 1000))%Q
         /\ (0 <= remaining)%Z
         /\ ((inject_Z 1010 - inject_Z 1000 <= inject_Z 29)%Q
             -> (1 <= remaining)%Z)))
  /\ ((inject_Z 30 <= inject_Z 1040 - inject_Z 1000)%Q
      /\ check_throttle already_normal already_normal (inject_Z 1040) "testgame"
           (update_scan_time already_normal already_normal (inject_Z 1000)
              "testgame" ∅)
         = (false, 0%Z)).
Proof.
  split.
  - assert (H : (inject_Z 1010 - inject_Z 1000 < inject_Z 30)%Q) by reflexivity.
    split; [exact H|].
    exact (proj1 (C6_throttle_rejects_within_30s already_normal already_normal
                    (inject_Z 1000) (inject_Z 1010) "testgame" "testgame" ∅
                    eq_refl) H).
  - assert (H : (inject_Z 30 <= inject_Z 1040 - inject_Z 1000)%Q)
      by (vm_compute; discriminate).
    split; [exact H|].
    exact (proj2 (C6_throttle_rejects_within_30s already_normal already_normal
                    (inject_Z 1000) (inject_Z 1040) "testgame" "testgame" ∅
                    eq_refl) H).
Defined.

(** C7 at a first call that finds 7 posts at time 1000, followed by a call
    100 seconds later against an upstream that answers 404, and by one 600
    seconds later. *)
Lemma C7_witness_read_after_write :
  let first :=
    fetch_reddit_posts example_rank already_normal already_normal up_small
      (inject_Z 1000) example_now "testgame" ∅ in
  let soon :=
    fetch_reddit_posts example_rank already_normal already_normal up_not_found
      (inject_Z 1100) example_now "testgame" (snd first) in
  let late :=
    fetch_reddit_posts example_rank already_normal already_normal up_not_found
      (inject_Z 1600) example_now "testgame" (snd first) in
  (r_error (fst first) = None /\ r_used_cache (fst first) = false
   /\ length (r_posts (fst first)) = 7)
  /\ ((inject_Z 1100 - inject_Z 1000 < inject_Z 600)%Q
      /\ r_posts (fst soon) = r_posts (fst first)
      /\ r_post_comments (fst soon) = r_post_comments (fst first)
      /\ r_error (fst soon) = None
      /\ r_used_cache (fst soon) = true
      /\ snd soon = snd first)
  /\ ((inject_Z 600 <= inject_Z 1600 - inject_Z 1000)%Q
      /\ fst late
         = fst (fetch_reddit_posts example_rank already_normal already_normal
                  up_not_found (inject_Z 1600) example_now "testgame"
                  (delete (already_normal (already_normal "testgame"))
                     (snd first)))
      /\ r_used_cache (fst late) = false).
Proof.
  intros first soon late.
  assert (Herr : r_error (fst first) = None) by (vm_compute; reflexivity).
  assert (Hmiss : r_used_cache (fst first) = false) by (vm_compute; reflexivity).
  assert (Hne : already_normal "testgame" <> ""%string) by discriminate.
  split; [split; [exact Herr|split; [exact Hmiss|vm_compute; reflexivity]]|].
  split.
  - assert (H : (inject_Z 1100 - inject_Z 1000 < inject_Z 600)%Q) by reflexivity.
    split; [exact H|].
    exact (proj1 (C7_cache_served_within_ttl_only example_rank already_normal
                    already_normal up_small up_not_found (inject_Z 1000)
                    example_now (inject_Z 1100) example_now "testgame"
                    "testgame" ∅ Herr Hmiss Hne eq_refl) H).
  - assert (H : (inject_Z 600 <= inject_Z 1600 - inject_Z 1000)%Q)
      by (vm_compute; discriminate).
    split; [exact H|].
    exact (proj2 (C7_cache_served_within_ttl_only example_rank already_normal
                    already_normal up_small up_not_found (inject_Z 1000)
                    example_now (inject_Z 1600) example_now "testgame"
                    "testgame" ∅ Herr Hmiss Hne eq_refl) H).
Defined.

(** C8: a body of 232 characters is not truncated, and replacing each of
    its 58 mentions [u/a] by [[user]] makes it 406 characters long. *)
Theorem C8_redaction_lengthens_body_past_403 :
  String.length (Comment.body mention_comment) = 232
  /\ map (fun c => String.length (Selected.body c))
       (select_best_comments [mention_comment] MAX_COMMENTS_PER_POST)
     = [406].
Proof. split; vm_compute; reflexivity. Qed.

(** C9 fails as stated: when every window is answered with 404, all three
    windows are requested. *)
Lemma C9_counterexample_not_found_then_wider_windows :
  rejected up_not_found "nosuchsub" ("8d", "36h")%string = true
  /\ requests_of
       (search_windows up_not_found "nosuchsub" windows [] ""
          (new_debug "nosuchsub" None) [])
     = [("8d", "36h"); ("8d", "12h"); ("8d", "0h")]%string.
Proof. split; vm_compute; reflexivity. Qed.

(** C9 at an upstream whose first window yields 3 posts and whose second
    window is answered with 404: after the rejection the search goes on with
    the third window, still holding the 3 posts of the first window as its
    candidate, with 404 and its message in the debug record. *)
Lemma C9_witness_rejection_keeps_candidate :
  (windows = [("8d", "36h")%string] ++ ("8d", "12h")%string :: [("8d", "0h")%string]
   /\ rejected up_rejected_after_first "testgame" ("8d", "12h")%string = true)
  /\ length (filtered_of up_rejected_after_first "testgame" ("8d", "36h")%string)
     = 3
  /\ exists debug,
       search_windows up_rejected_after_first "testgame" windows [] ""
         (new_debug "testgame" None) []
       = search_windows up_rejected_after_first "testgame"
           [("8d", "0h")%string]
           (filtered_of up_rejected_after_first "testgame" ("8d", "36h")%string)
           "8d..36h" debug [("8d", "36h"); ("8d", "12h")]%string
       /\ error_details debug = Some "Subreddit not found. Check spelling."%string
       /\ posts_status debug = Some 404%Z
       /\ exists more,
            requests_of
              (search_windows up_rejected_after_first "testgame" windows [] ""
                 (new_debug "testgame" None) [])
            = [("8d", "36h"); ("8d", "12h"); ("8d", "0h")]%string ++ more.
Proof.
  assert (H : rejected up_rejected_after_first "testgame" ("8d", "12h")%string
              = true) by (vm_compute; reflexivity).
  split; [split; [reflexivity|exact H]|].
  split; [vm_compute; reflexivity|].
  destruct (C9_rejection_moves_on_to_next_window up_rejected_after_first
              "testgame" (new_debug "testgame" None) [("8d", "36h")%string]
              ("8d", "12h")%string [("8d", "0h")%string] eq_refl)
    as (posts & used & debug_before & Hbefore & Hrej & Hgo & _).
  { intros v [<-|[]]. split; vm_compute; reflexivity. }
  assert (Hcand : posts = filtered_of up_rejected_after_first "testgame"
                            ("8d", "36h")%string
                  /\ used = "8d..36h"%string).
  { vm_compute in Hbefore. injection Hbefore as <- <- _.
    split; vm_compute; reflexivity. }
  destruct Hcand as [-> ->].
  destruct (Hrej H) as [Hs Hab].
  destruct (Hgo Hs Hab) as (debug & Heq & Herr & Hstatus & more & Hreq).
  exists debug. split; [exact Heq|]. split; [exact Herr|].
  split; [exact Hstatus|]. exists more. exact Hreq.
Defined.

(** * The other functions of [backend/server.py]: properties *)

(** ** Facts about the [str] methods *)

#[local] Arguments String.append !_ _ / : simpl nomatch.

Lemma string_app_assoc (a b c : string) : (a +:+ b) +:+ c = a +:+ (b +:+ c).
Proof. induction a as [|x a IH]; simpl; [reflexivity|now rewrite IH]. Qed.

Lemma string_app_nil_r (a : string) : a +:+ "" = a.
Proof. induction a as [|x a IH]; simpl; [reflexivity|now rewrite IH]. Qed.

Lemma lstrip_chars_app (p : ascii -> bool) (a b : string) :
  all_chars p a = true ->
  Str.lstrip_chars p (a +:+ b) = Str.lstrip_chars p b.
Proof.
  induction a as [|x a IH]; simpl; [reflexivity|].
  intros H. apply andb_true_iff in H as [-> H]. now apply IH.
Qed.

Lemma rstrip_chars_all (p : ascii -> bool) (b : string) :
  all_chars p b = true -> Str.rstrip_chars p b = ""%string.
Proof.
  induction b as [|x b IH]; simpl; [reflexivity|].
  intros H. apply andb_true_iff in H as [-> H]. now rewrite IH.
Qed.

Lemma rstrip_chars_app (p : ascii -> bool) (a b : string) :
  all_chars p b = true ->
  Str.rstrip_chars p (a +:+ b) = Str.rstrip_chars p a.
Proof.
  intros H. induction a as [|x a IH]; simpl.
  - now apply rstrip_chars_all.
  - now rewrite IH.
Qed.

Lemma lstrip_chars_first_not (p : ascii -> bool) (s : string) :
  first_not p s = true -> Str.lstrip_chars p s = s.
Proof.
  destruct s as [|c r]; simpl; [reflexivity|].
  intros H. apply negb_true_iff in H. now rewrite H.
Qed.

Lemma rstrip_chars_last_not (p : ascii -> bool) (s : string) :
  last_not p s = true -> Str.rstrip_chars p s = s.
Proof.
  induction s as [|c r IH]; [reflexivity|].
  destruct r as [|d r'].
  - simpl. intros H. apply negb_true_iff in H. now rewrite H.
  - intros H. change (last_not p (String c (String d r')))
      with (last_not p (String d r')) in H.
    specialize (IH H).
    change (Str.rstrip_chars p (String c (String d r')))
      with (match Str.rstrip_chars p (String d r') with
            | EmptyString => if p c then EmptyString else String c EmptyString
            | r0 => String c r0
            end).
    now rewrite IH.
Qed.

(** What [rstrip] returns never ends with a stripped character. *)
Lemma rstrip_chars_no_trailing (p : ascii -> bool) (s t : string) (c : ascii) :
  p c = true -> Str.rstrip_chars p s <> t +:+ String c "".
Proof.
  intros Hc. revert t. induction s as [|a r IH]; intros t; simpl.
  - destruct t; discriminate.
  - destruct (Str.rstrip_chars p r) as [|b r'] eqn:E.
    + destruct (p a) eqn:Pa.
      * destruct t; discriminate.
      * destruct t as [|x t]; simpl.
        -- intros [= ->]. congruence.
        -- intros [= _ H]. destruct t; discriminate.
    + destruct t as [|x t]; simpl.
      * discriminate.
      * intros [= _ H]. exact (IH t H).
Qed.

Lemma run_all_chars (p : ascii -> bool) (s : string) :
  all_chars p (Str.run p s) = true.
Proof.
  induction s as [|c r IH]; simpl; [reflexivity|].
  destruct (p c) eqn:Pc; simpl; [now rewrite Pc|reflexivity].
Qed.

Lemma run_app (p : ascii -> bool) (a b : string) :
  all_chars p a = true -> first_not p b = true ->
  Str.run p (a +:+ b) = a.
Proof.
  induction a as [|x a IH]; simpl.
  - intros _ H. destruct b as [|c b]; [reflexivity|].
    simpl in *. apply negb_true_iff in H. now rewrite H.
  - intros H Hb. apply andb_true_iff in H as [-> H]. now rewrite IH.
Qed.

Lemma all_chars_last (p : ascii -> bool) (t : string) (c : ascii) :
  all_chars p (t +:+ String c "") = true -> p c = true.
Proof.
  induction t as [|x t IH]; simpl; intros H;
    apply andb_true_iff in H as [H1 H2]; [assumption|now apply IH].
Qed.

Lemma all_chars_impl (p q : ascii -> bool) (s : string) :
  (forall c, p c = true -> q c = true) ->
  all_chars p s = true -> all_chars q s = true.
Proof.
  intros Hpq. induction s as [|c r IH]; simpl; [reflexivity|].
  intros H. apply andb_true_iff in H as [H1 H2].
  now rewrite (Hpq c H1), IH.
Qed.

Lemma all_chars_last_not (p q : ascii -> bool) (s : string) :
  (forall c, p c = true -> q c = false) ->
  all_chars p s = true -> last_not q s = true.
Proof.
  intros Hpq. induction s as [|c r IH]; [reflexivity|].
  intros H. simpl in H. apply andb_true_iff in H as [H1 H2].
  destruct r as [|d r']; [simpl; now rewrite (Hpq c H1)|].
  exact (IH H2).
Qed.

Lemma last_not_app (p : ascii -> bool) (a b : string) :
  b <> ""%string -> last_not p (a +:+ b) = last_not p b.
Proof.
  intros Hb. induction a as [|x a IH]; [reflexivity|].
  simpl. destruct (a +:+ b) as [|y r] eqn:E; [|exact IH].
  destruct a; [simpl in E; congruence|discriminate].
Qed.

(** [strip] removes exactly the whitespace around the text. *)
Lemma strip_padding (ws1 s ws2 : string) :
  all_chars Str.isspace ws1 = true ->
  all_chars Str.isspace ws2 = true ->
  Str.strip (ws1 +:+ s +:+ ws2) = Str.strip s.
Proof.
  intros H1 H2. unfold Str.strip. rewrite lstrip_chars_app by assumption.
  induction s as [|c r IH].
  - simpl.
    assert (E : Str.lstrip_chars Str.isspace ws2 = ""%string).
    { clear -H2. induction ws2 as [|x w IHw]; simpl; [reflexivity|].
      simpl in H2. apply andb_true_iff in H2 as [-> H]. now apply IHw. }
    rewrite E. reflexivity.
  - simpl. destruct (Str.isspace c); [exact IH|].
    change (String c (r +:+ ws2)) with (String c r +:+ ws2).
    now apply rstrip_chars_app.
Qed.

Lemma strip_trimmed (s : string) :
  first_not Str.isspace s = true -> last_not Str.isspace s = true ->
  Str.strip s = s.
Proof.
  intros H1 H2. unfold Str.strip.
  rewrite lstrip_chars_first_not by assumption.
  now apply rstrip_chars_last_not.
Qed.

(** ** SubjectNormalizer *)

Lemma lower_char_slash (c : ascii) : Str.lower_char c = "/"%char -> c = "/"%char.
Proof.
  destruct c as [[] [] [] [] [] [] [] []]; vm_compute; congruence.
Qed.

Lemma is_name_part_not_space (c : ascii) :
  is_name_part c = true -> Str.isspace c = false.
Proof.
  unfold is_name_part. rewrite negb_true_iff, !orb_false_iff. tauto.
Qed.

Lemma is_name_part_not_slash (c : ascii) :
  is_name_part c = true -> Ascii.eqb "/" c = false.
Proof.
  unfold is_name_part. rewrite negb_true_iff, !orb_false_iff.
  rewrite (Ascii.eqb_sym "/" c). tauto.
Qed.

Lemma slash_not_space (c : ascii) :
  Ascii.eqb "/" c = true -> Str.isspace c = false.
Proof. intros H. apply Ascii.eqb_eq in H. now subst c. Qed.

Lemma all_chars_app (p : ascii -> bool) (a b : string) :
  all_chars p (a +:+ b) = all_chars p a && all_chars p b.
Proof.
  induction a as [|x a IH]; simpl; [reflexivity|].
  now rewrite IH, andb_assoc.
Qed.

Lemma after_literal_ci_keeps (p : ascii -> bool) (pat s r : string) :
  Str.after_literal_ci pat s = Some r ->
  all_chars p s = true -> all_chars p r = true.
Proof.
  revert s. induction pat as [|a pat IH]; intros s.
  - cbn [Str.after_literal_ci]. now intros [= ->].
  - destruct s as [|b s]; [discriminate|].
    cbn [Str.after_literal_ci all_chars].
    destruct (Ascii.eqb _ _); [|discriminate].
    intros H Hs. apply andb_true_iff in Hs as [_ Hs]. eauto.
Qed.

Lemma after_literal_ci_cons (a b : ascii) (pat s : string) :
  Str.after_literal_ci (String a pat) (String b s)
  = if Ascii.eqb (Str.lower_char a) (Str.lower_char b)
    then Str.after_literal_ci pat s else None.
Proof. reflexivity. Qed.

(** A text without slash cannot match a pattern that has one. *)
Lemma after_literal_ci_needs_slash (pre post s : string) :
  all_chars is_name_part s = true ->
  Str.after_literal_ci (pre +:+ String "/" post) s = None.
Proof.
  revert s. induction pre as [|a pre IH]; intros s Hs.
  - destruct s as [|b s]; [reflexivity|].
    change ("" +:+ String "/" post)%string with (String "/" post).
    rewrite after_literal_ci_cons.
    destruct (Ascii.eqb _ _) eqn:E; [|reflexivity].
    apply Ascii.eqb_eq in E. symmetry in E.
    change (Str.lower_char "/") with "/"%char in E.
    apply lower_char_slash in E. subst b. discriminate.
  - destruct s as [|b s]; [reflexivity|].
    change (String a pre +:+ String "/" post)
      with (String a (pre +:+ String "/" post)).
    rewrite after_literal_ci_cons.
    cbn [all_chars] in Hs. apply andb_true_iff in Hs as [_ Hs].
    destruct (Ascii.eqb _ _); [now apply IH|reflexivity].
Qed.

Lemma skip_scheme_keeps (p : ascii -> bool) (s : string) :
  all_chars p s = true -> all_chars p (skip_scheme s) = true.
Proof.
  intros Hs. unfold skip_scheme.
  destruct (Str.after_literal_ci "http" s) as [r|] eqn:E1; [|assumption].
  pose proof (after_literal_ci_keeps p _ _ _ E1 Hs) as Hr.
  destruct (Str.after_literal_ci "s" r) as [r'|] eqn:E2.
  - pose proof (after_literal_ci_keeps p _ _ _ E2 Hr) as Hr'.
    destruct (Str.after_literal_ci "://" r') as [t|] eqn:E3; [|assumption].
    exact (after_literal_ci_keeps p _ _ _ E3 Hr').
  - destruct (Str.after_literal_ci "://" r) as [t|] eqn:E3; [|assumption].
    exact (after_literal_ci_keeps p _ _ _ E3 Hr).
Qed.

Lemma skip_www_keeps (p : ascii -> bool) (s : string) :
  all_chars p s = true -> all_chars p (skip_www s) = true.
Proof.
  intros Hs. unfold skip_www.
  destruct (Str.after_literal_ci "www." s) as [t|] eqn:E; [|assumption].
  exact (after_literal_ci_keeps p _ _ _ E Hs).
Qed.

Lemma url_match_name_like (name : string) :
  name_like name = true -> url_match name = None.
Proof.
  intros H. unfold url_match.
  rewrite (after_literal_ci_needs_slash "reddit.com" "r/"); [reflexivity|].
  now apply skip_www_keeps, skip_scheme_keeps.
Qed.

(** What the URL pattern extracts is a non-empty name without slash,
    question mark or whitespace. *)
Lemma url_match_gives_name (s name : string) :
  url_match s = Some name -> name <> ""%string /\ name_like name = true.
Proof.
  unfold url_match.
  destruct (Str.after_literal_ci _ _) as [rest|]; [|discriminate].
  pose proof (run_all_chars is_name_part rest) as Hrun.
  destruct (Str.run is_name_part rest) as [|c r]; [discriminate|].
  intros [= <-]. split; [discriminate|exact Hrun].
Qed.

Lemma name_like_trimmed (name : string) :
  name_like name = true -> Str.strip name = name.
Proof.
  intros H. apply strip_trimmed.
  - destruct name as [|c r]; [reflexivity|]. simpl in *.
    apply andb_true_iff in H as [H _].
    now rewrite (is_name_part_not_space c H).
  - exact (all_chars_last_not _ _ _ is_name_part_not_space H).
Qed.

Lemma name_like_no_trailing_slash (name : string) :
  name_like name = true -> Str.rstrip_chars (Ascii.eqb "/") name = name.
Proof.
  intros H. apply rstrip_chars_last_not.
  exact (all_chars_last_not _ _ _ is_name_part_not_slash H).
Qed.

Lemma normalize_subreddit_after_strip (s : string) :
  normalize_subreddit s = after_strip (Str.strip s).
Proof.
  unfold normalize_subreddit.
  destruct (String.eqb_spec s ""); [now subst s|reflexivity].
Qed.

Lemma name_like_no_prefix (name : string) :
  name_like name = true -> Str.startswith (Str.lower name) "r/" = false.
Proof.
  intros H. unfold Str.startswith.
  destruct name as [|a [|b r]]; [reflexivity| |].
  - cbn [Str.lower Str.after_literal]. now destruct (Ascii.eqb _ _).
  - cbn [Str.lower Str.after_literal].
    destruct (Ascii.eqb "r" _); [|reflexivity].
    destruct (Ascii.eqb "/" (Str.lower_char b)) eqn:E; [|reflexivity].
    apply Ascii.eqb_eq in E. symmetry in E. apply lower_char_slash in E.
    subst b. cbn [name_like all_chars] in H. rewrite andb_comm in H.
    discriminate.
Qed.

Lemma after_strip_name_like (name : string) :
  name_like name = true -> after_strip name = name.
Proof.
  intros H. unfold after_strip.
  rewrite url_match_name_like, name_like_no_prefix by assumption.
  now apply name_like_no_trailing_slash.
Qed.

(** After the prefix [r/] or [R/] only the trailing slashes go. *)
Lemma after_strip_prefixed (rest : string) :
  after_strip (String "r" (String "/" rest))
  = Str.rstrip_chars (Ascii.eqb "/") rest
  /\ after_strip (String "R" (String "/" rest))
     = Str.rstrip_chars (Ascii.eqb "/") rest.
Proof. split; reflexivity. Qed.

(** The URL pattern after each spelling of scheme and host. *)
Lemma url_match_after_host (scheme www rest : string) :
  In scheme [""; "http://"; "https://"]%string ->
  In www [""; "www."]%string ->
  url_match (scheme +:+ www +:+ "reddit.com/r/" +:+ rest)
  = match Str.run is_name_part rest with
    | EmptyString => None
    | name => Some name
    end.
Proof.
  intros [<-|[<-|[<-|[]]]] [<-|[<-|[]]]; reflexivity.
Qed.

Lemma host_spelling_trimmed (scheme www rest : string) :
  In scheme [""; "http://"; "https://"]%string ->
  In www [""; "www."]%string ->
  first_not Str.isspace (scheme +:+ www +:+ "reddit.com/r/" +:+ rest) = true.
Proof.
  intros [<-|[<-|[<-|[]]]] [<-|[<-|[]]]; reflexivity.
Qed.

(** [strip] makes the padding irrelevant. *)
Lemma normalize_subreddit_padding (ws1 s ws2 : string) :
  all_chars Str.isspace ws1 = true ->
  all_chars Str.isspace ws2 = true ->
  normalize_subreddit (ws1 +:+ s +:+ ws2) = normalize_subreddit s.
Proof.
  intros H1 H2. rewrite !normalize_subreddit_after_strip.
  now rewrite strip_padding.
Qed.

(** X1.  Whitespace around the input never matters. *)
Theorem normalize_ignores_surrounding_whitespace (ws1 s ws2 : string) :
  all_chars Str.isspace ws1 = true ->
  all_chars Str.isspace ws2 = true ->
  normalize_subreddit (ws1 +:+ s +:+ ws2) = normalize_subreddit s.
Proof. apply normalize_subreddit_padding. Qed.

(** X1 at the subject [r/TestGame] between a blank and a tab. *)
Lemma normalize_ignores_surrounding_whitespace_witness :
  normalize_subreddit (" " +:+ "r/TestGame" +:+ String "009" "")
  = normalize_subreddit "r/TestGame".
Proof.
  apply (normalize_ignores_surrounding_whitespace " " "r/TestGame"
           (String "009" "")); reflexivity.
Defined.

(** X2.  The usual spellings of a subreddit all normalize to its bare name:
    the name itself, the name after [r/] or [R/] with any number of trailing
    slashes, and a reddit URL with or without scheme and [www.], followed by
    nothing or by a path or query. *)
Theorem normalize_spellings_agree (name : string) :
  name_like name = true ->
  name <> ""%string ->
  normalize_subreddit name = name
  /\ (forall slashes,
        all_chars (Ascii.eqb "/") slashes = true ->
        normalize_subreddit ("r/" +:+ name +:+ slashes) = name
        /\ normalize_subreddit ("R/" +:+ name +:+ slashes) = name)
  /\ (forall scheme www tail,
        In scheme [""; "http://"; "https://"]%string ->
        In www [""; "www."]%string ->
        first_not is_name_part tail = true ->
        last_not Str.isspace tail = true ->
        normalize_subreddit
          (scheme +:+ www +:+ "reddit.com/r/" +:+ name +:+ tail)
        = name).
Proof.
  intros Hname Hne.
  assert (Hnospace : forall c, is_name_part c = true ->
            negb (Str.isspace c) = true).
  { intros c Hc. now rewrite (is_name_part_not_space c Hc). }
  split; [|split].
  - rewrite normalize_subreddit_after_strip, name_like_trimmed by assumption.
    now apply after_strip_name_like.
  - intros slashes Hsl.
    assert (Hrest : Str.rstrip_chars (Ascii.eqb "/") (name +:+ slashes) = name).
    { rewrite rstrip_chars_app by assumption.
      now apply name_like_no_trailing_slash. }
    assert (Hlast : last_not Str.isspace (name +:+ slashes) = true).
    { apply (all_chars_last_not (fun c => negb (Str.isspace c))).
      - intros c Hc. now apply negb_true_iff in Hc.
      - rewrite all_chars_app. apply andb_true_iff. split.
        + exact (all_chars_impl _ _ _ Hnospace Hname).
        + apply (all_chars_impl (Ascii.eqb "/")); [|assumption].
          intros c Hc. now rewrite (slash_not_space c Hc). }
    assert (Htrim : forall a : ascii,
      Str.isspace a = false ->
      Str.strip (String a (String "/" (name +:+ slashes)))
      = String a (String "/" (name +:+ slashes))).
    { intros a Ha. apply strip_trimmed; [cbn; now rewrite Ha|].
      destruct (name +:+ slashes) as [|x r] eqn:E; [reflexivity|].
      exact Hlast. }
    split; rewrite normalize_subreddit_after_strip.
    + change ("r/" +:+ name +:+ slashes)%string
        with (String "r" (String "/" (name +:+ slashes))).
      rewrite Htrim by reflexivity.
      now rewrite (proj1 (after_strip_prefixed _)).
    + change ("R/" +:+ name +:+ slashes)%string
        with (String "R" (String "/" (name +:+ slashes))).
      rewrite Htrim by reflexivity.
      now rewrite (proj2 (after_strip_prefixed _)).
  - intros scheme www tail Hs Hw Hfirst Hlast.
    rewrite normalize_subreddit_after_strip.
    assert (Htrim : Str.strip (scheme +:+ www +:+ "reddit.com/r/" +:+ name +:+ tail)
                    = scheme +:+ www +:+ "reddit.com/r/" +:+ name +:+ tail).
    { apply strip_trimmed; [now apply host_spelling_trimmed|].
      rewrite <- !string_app_assoc.
      destruct tail as [|d tail'].
      - rewrite string_app_nil_r. rewrite last_not_app by assumption.
        exact (all_chars_last_not _ _ _ is_name_part_not_space Hname).
      - now rewrite last_not_app by discriminate. }
    rewrite Htrim. unfold after_strip.
    rewrite url_match_after_host by assumption.
    rewrite run_app by assumption.
    destruct name; [congruence|reflexivity].
Qed.

(** X2 at the name [TestGame]. *)
Lemma normalize_spellings_agree_witness :
  (name_like "TestGame" = true /\ "TestGame"%string <> ""%string)
  /\ normalize_subreddit "TestGame" = "TestGame"%string
  /\ (forall slashes,
        all_chars (Ascii.eqb "/") slashes = true ->
        normalize_subreddit ("r/" +:+ "TestGame" +:+ slashes) = "TestGame"%string
        /\ normalize_subreddit ("R/" +:+ "TestGame" +:+ slashes) = "TestGame"%string)
  /\ (forall scheme www tail,
        In scheme [""; "http://"; "https://"]%string ->
        In www [""; "www."]%string ->
        first_not is_name_part tail = true ->
        last_not Str.isspace tail = true ->
        normalize_subreddit
          (scheme +:+ www +:+ "reddit.com/r/" +:+ "TestGame" +:+ tail)
        = "TestGame"%string).
Proof.
  assert (H1 : name_like "TestGame" = true) by reflexivity.
  assert (H2 : "TestGame"%string <> ""%string) by discriminate.
  split; [now split|].
  exact (normalize_spellings_agree "TestGame" H1 H2).
Defined.

(** X3.  The result never ends with a slash, and a name taken from a URL
    is non-empty and has no slash, question mark or whitespace at all. *)
Theorem normalize_never_ends_with_slash (input_str : string) :
  (forall t, normalize_subreddit input_str <> t +:+ "/")
  /\ (forall name,
        url_match (Str.strip input_str) = Some name ->
        normalize_subreddit input_str = name
        /\ name <> ""%string /\ name_like name = true).
Proof.
  split.
  - intros t. rewrite normalize_subreddit_after_strip. unfold after_strip.
    destruct (url_match (Str.strip input_str)) as [name|] eqn:E.
    + apply url_match_gives_name in E as [_ Hname]. intros ->.
      apply all_chars_last in Hname. discriminate.
    + now apply rstrip_chars_no_trailing.
  - intros name E. rewrite normalize_subreddit_after_strip. unfold after_strip.
    rewrite E. split; [reflexivity|]. exact (url_match_gives_name _ _ E).
Qed.

Lemma strip_no_whitespace (s : string) :
  all_chars (fun c => negb (Str.isspace c)) s = true -> Str.strip s = s.
Proof.
  intros H. apply strip_trimmed.
  - destruct s as [|c r]; [reflexivity|]. cbn [all_chars] in H.
    now apply andb_true_iff in H as [H _].
  - apply (all_chars_last_not _ _ _ (fun c Hc => proj1 (negb_true_iff _) Hc) H).
Qed.

Lemma slashes_no_whitespace (slashes : string) :
  all_chars (Ascii.eqb "/") slashes = true ->
  all_chars (fun c => negb (Str.isspace c)) slashes = true.
Proof.
  apply all_chars_impl. intros c Hc. now rewrite (slash_not_space c Hc).
Qed.

(** The inputs without a name: an optional [r/] and nothing but slashes. *)
Lemma normalize_subreddit_nameless (p slashes : string) :
  In p [""; "r/"; "R/"]%string ->
  all_chars (Ascii.eqb "/") slashes = true ->
  normalize_subreddit (p +:+ slashes) = ""%string.
Proof.
  intros Hp Hsl. rewrite normalize_subreddit_after_strip.
  pose proof (slashes_no_whitespace slashes Hsl) as Hns.
  destruct Hp as [<-|[<-|[<-|[]]]].
  - cbn [String.append]. rewrite strip_no_whitespace by assumption.
    destruct slashes as [|c r]; [reflexivity|].
    cbn [all_chars] in Hsl. apply andb_true_iff in Hsl as [Hc Hr].
    apply Ascii.eqb_eq in Hc. subst c.
    change (after_strip (String "/" r))
      with (Str.rstrip_chars (Ascii.eqb "/") (String "/" r)).
    apply rstrip_chars_all. cbn [all_chars]. now rewrite Hr.
  - rewrite strip_no_whitespace by (cbn; assumption).
    change ("r/" +:+ slashes)%string with (String "r" (String "/" slashes)).
    rewrite (proj1 (after_strip_prefixed _)). now apply rstrip_chars_all.
  - rewrite strip_no_whitespace by (cbn; assumption).
    change ("R/" +:+ slashes)%string with (String "R" (String "/" slashes)).
    rewrite (proj2 (after_strip_prefixed _)). now apply rstrip_chars_all.
Qed.

(** X4.  A subject that is blank, or only an [r/] prefix and slashes, is
    refused before the cache is read and before any request: whatever the
    upstream and the cache are, the call returns the invalid-name error and
    leaves the cache as it was. *)
Theorem nameless_subject_is_refused (rank_value : Z -> Z -> nat -> Q)
    (up : Upstream) (current_time now : Q)
    (reddit_cache : gmap string CacheEntry) (ws1 p slashes ws2 : string) :
  all_chars Str.isspace ws1 = true ->
  all_chars Str.isspace ws2 = true ->
  In p [""; "r/"; "R/"]%string ->
  all_chars (Ascii.eqb "/") slashes = true ->
  fetch_reddit_posts rank_value normalize_subreddit Str.lower up current_time
    now (ws1 +:+ (p +:+ slashes) +:+ ws2) reddit_cache
  = (mkFetchResult [] [] (Some "Invalid subreddit name."%string) false
       (new_debug "" (Some "Empty subreddit after normalization"%string)),
     reddit_cache).
Proof.
  intros H1 H2 Hp Hsl. unfold fetch_reddit_posts.
  rewrite normalize_subreddit_padding by assumption.
  now rewrite normalize_subreddit_nameless.
Qed.

(** X4 at the subject [" r// "] with an upstream that would answer 200
    posts. *)
Lemma nameless_subject_is_refused_witness :
  fetch_reddit_posts example_rank normalize_subreddit Str.lower up_full
    (inject_Z 1000) example_now (" " +:+ ("r/" +:+ "/") +:+ " ") ∅
  = (mkFetchResult [] [] (Some "Invalid subreddit name."%string) false
       (new_debug "" (Some "Empty subreddit after normalization"%string)),
     ∅).
Proof.
  apply (nameless_subject_is_refused example_rank up_full (inject_Z 1000)
           example_now ∅ " " "r/" "/" " ");
    try reflexivity.
  right. now left.
Defined.

(** ** Post search: classification of the reply *)

(** The cases of a post search. *)
Lemma post_search_outcome (reply : ArcticShift.PostsReply) :
  let '(posts, status, error) := ArcticShift.fetch_arctic_shift_posts reply in
  (error = None <->
     exists retry_after items,
       reply = ArcticShift.Response 200 retry_after (ArcticShift.Data items))
  /\ (error <> None -> posts = [] /\ truthy error = true)
  /\ (status = None <->
        reply = ArcticShift.TimeoutException
        \/ reply = ArcticShift.ConnectError
        \/ (exists message, reply = ArcticShift.OtherException message)
        \/ (exists retry_after message,
              reply = ArcticShift.Response 200 retry_after
                        (ArcticShift.JsonRaises message))).
Proof.
  destruct reply as [| |message|status retry_after body].
  - cbn. split; [|split].
    + split; [discriminate|intros (? & ? & [=])].
    + now split.
    + split; [now left|reflexivity].
  - cbn. split; [|split].
    + split; [discriminate|intros (? & ? & [=])].
    + now split.
    + split; [right; now left|reflexivity].
  - cbn. split; [|split].
    + split; [discriminate|intros (? & ? & [=])].
    + now split.
    + split; [right; right; left; now exists message|reflexivity].
  - assert (Hfail : forall msg : string,
      msg <> ""%string ->
      (forall r items,
         ArcticShift.Response status retry_after body
         <> ArcticShift.Response 200 r (ArcticShift.Data items)) ->
      (forall r m,
         ArcticShift.Response status retry_after body
         <> ArcticShift.Response 200 r (ArcticShift.JsonRaises m)) ->
      (Some msg = None <->
         exists r items,
           ArcticShift.Response status retry_after body
           = ArcticShift.Response 200 r (ArcticShift.Data items))
      /\ (Some msg <> None -> @nil Post.t = [] /\ truthy (Some msg) = true)
      /\ ((Some status = None :> option Z) <->
          ArcticShift.Response status retry_after body
          = ArcticShift.TimeoutException
          \/ ArcticShift.Response status retry_after body
             = ArcticShift.ConnectError
          \/ (exists message,
                ArcticShift.Response status retry_after body
                = ArcticShift.OtherException message)
          \/ (exists r m,
                ArcticShift.Response status retry_after body
                = ArcticShift.Response 200 r (ArcticShift.JsonRaises m)))).
    { intros msg Hmsg Hdata Hraise. split; [|split].
      - split; [discriminate|]. intros (r & items & E). now apply Hdata in E.
      - intros _. split; [reflexivity|]. destruct msg; [congruence|reflexivity].
      - split; [discriminate|].
        intros [H|[H|[[m H]|(r & m & H)]]]; try discriminate.
        now apply Hraise in H. }
    assert (Hnot200 : forall b,
      status <> 200%Z ->
      forall r,
        ArcticShift.Response status retry_after body
        <> ArcticShift.Response 200 r b).
    { intros b Hs r [= E _ _]. contradiction. }
    unfold ArcticShift.fetch_arctic_shift_posts.
    destruct (Z.eqb_spec status 404).
    { apply Hfail; [discriminate|intros r b; apply Hnot200; lia..]. }
    destruct (Z.eqb_spec status 429).
    { apply Hfail; [discriminate|intros r b; apply Hnot200; lia..]. }
    destruct (Z.eqb_spec status 403).
    { apply Hfail; [discriminate|intros r b; apply Hnot200; lia..]. }
    destruct (Z.eqb_spec status 400).
    { apply Hfail; [discriminate|intros r b; apply Hnot200; lia..]. }
    destruct (Z.eqb_spec status 502).
    { apply Hfail; [discriminate|intros r b; apply Hnot200; lia..]. }
    destruct (Z.eqb_spec status 503).
    { apply Hfail; [discriminate|intros r b; apply Hnot200; lia..]. }
    destruct (Z.eqb_spec status 504).
    { apply Hfail; [discriminate|intros r b; apply Hnot200; lia..]. }
    destruct (Z.eqb_spec status 200) as [->|Hne].
    2:{ apply Hfail; [discriminate|intros r b; now apply Hnot200..]. }
    cbn [orb negb].
    destruct body as [|message| | |items].
    + apply Hfail; [discriminate|intros r b [=]..].
    + split; [|split].
      * split; [discriminate|intros (? & ? & [=])].
      * intros _. split; [reflexivity|reflexivity].
      * split; [intros _|reflexivity].
        right; right; right. now exists retry_after, message.
    + apply Hfail; [discriminate|intros r b [=]..].
    + apply Hfail; [discriminate|intros r b [=]..].
    + split; [|split; [congruence|]].
      * split; [intros _; now exists retry_after, items|reflexivity].
      * split; [discriminate|].
        intros [H|[H|[[m H]|(r & m & H)]]]; discriminate.
Qed.

(** X5.  A post search either fails with a non-empty message and no posts,
    or succeeds; it succeeds exactly on a 200 response whose body is an
    object with a list (or nothing) under [data]; and it reports no status
    exactly when the request raised or when reading the body of a 200
    answer raised something else than a JSON decoding error. *)
Theorem post_search_fails_or_returns_posts (reply : ArcticShift.PostsReply) :
  let '(posts, status, error) := ArcticShift.fetch_arctic_shift_posts reply in
  (error = None <->
     exists retry_after items,
       reply = ArcticShift.Response 200 retry_after (ArcticShift.Data items))
  /\ (error <> None -> posts = [] /\ truthy error = true)
  /\ (status = None <->
        reply = ArcticShift.TimeoutException
        \/ reply = ArcticShift.ConnectError
        \/ (exists message, reply = ArcticShift.OtherException message)
        \/ (exists retry_after message,
              reply = ArcticShift.Response 200 retry_after
                        (ArcticShift.JsonRaises message))).
Proof. apply post_search_outcome. Qed.

Lemma parse_post_Some (item : ArcticShift.Item ArcticShift.PostData)
    (post : Post.t) :
  ArcticShift.parse_post item = Some post ->
  exists d,
    item = ArcticShift.Dict d
    /\ ArcticShift.pd_id d = Some (Post.id post)
    /\ Post.id post <> ""%string
    /\ Post.permalink post = ("https://www.reddit.com/comments/" +:+ Post.id post)%string
    /\ Post.title post = default ""%string (ArcticShift.pd_title d)
    /\ Post.selftext post = default ""%string (ArcticShift.pd_selftext d)
    /\ Post.score post = default 0%Z (ArcticShift.pd_score d)
    /\ Post.created_utc post = default 0%Z (ArcticShift.pd_created_utc d)
    /\ Post.num_comments post = default 0%Z (ArcticShift.pd_num_comments d)
    /\ Post.author post = default ""%string (ArcticShift.pd_author d).
Proof.
  destruct item as [|d]; [discriminate|]. cbn [ArcticShift.parse_post].
  destruct (String.eqb_spec (default ""%string (ArcticShift.pd_id d)) "")
    as [E|E]; [discriminate|].
  intros [= <-]. exists d. cbn.
  destruct (ArcticShift.pd_id d) as [i|]; [|cbn in E; congruence].
  repeat split; try reflexivity. exact E.
Qed.

Lemma length_omap_le {A B} (f : A -> option B) (l : list A) :
  length (omap f l) <= length l.
Proof.
  induction l as [|x l IH]; [apply Nat.le_refl|].
  cbn. destruct (f x); cbn; lia.
Qed.

(** X6.  Every post a search returns comes from an object of the [data]
    array that has a non-empty id; its permalink is built from that id and
    its missing or null fields are the empty string or 0.  Elements that
    are not objects or have no id are skipped, so there are at most as many
    posts as elements. *)
Theorem post_search_posts_are_well_formed (reply : ArcticShift.PostsReply)
    (post : Post.t) :
  In post (fst (fst (ArcticShift.fetch_arctic_shift_posts reply))) ->
  exists retry_after items d,
    reply = ArcticShift.Response 200 retry_after (ArcticShift.Data items)
    /\ In (ArcticShift.Dict d) items
    /\ length (fst (fst (ArcticShift.fetch_arctic_shift_posts reply)))
       <= length items
    /\ ArcticShift.pd_id d = Some (Post.id post)
    /\ Post.id post <> ""%string
    /\ Post.permalink post
       = ("https://www.reddit.com/comments/" +:+ Post.id post)%string
    /\ Post.title post = default ""%string (ArcticShift.pd_title d)
    /\ Post.selftext post = default ""%string (ArcticShift.pd_selftext d)
    /\ Post.score post = default 0%Z (ArcticShift.pd_score d)
    /\ Post.created_utc post = default 0%Z (ArcticShift.pd_created_utc d)
    /\ Post.num_comments post = default 0%Z (ArcticShift.pd_num_comments d)
    /\ Post.author post = default ""%string (ArcticShift.pd_author d).
Proof.
  pose proof (post_search_outcome reply) as H.
  destruct (ArcticShift.fetch_arctic_shift_posts reply)
    as [[posts status] error] eqn:E.
  destruct H as (Hok & Hfail & _). cbn [fst]. intros Hin.
  destruct error as [msg|].
  { destruct (Hfail ltac:(discriminate)) as [-> _]. contradiction. }
  destruct (proj1 Hok eq_refl) as (retry_after & items & ->).
  cbn in E. injection E as <- _.
  apply list_elem_of_In, list_elem_of_omap in Hin as (item & Hitem & Hparse).
  apply parse_post_Some in Hparse as (d & -> & Hrest).
  exists retry_after, items, d. split; [reflexivity|].
  split; [now apply list_elem_of_In|].
  split; [apply length_omap_le|exact Hrest].
Qed.

(** X6 at a reply with one usable object among three elements. *)
Lemma post_search_posts_are_well_formed_witness :
  let reply :=
    ArcticShift.Response 200 None
      (ArcticShift.Data
         [ArcticShift.NotADict;
          ArcticShift.Dict
            (ArcticShift.mkPostData (Some "abc"%string) (Some "A title"%string)
               None (Some 7%Z) (Some one_day_old) None None);
          ArcticShift.Dict
            (ArcticShift.mkPostData None (Some "No id"%string) None None None
               None None)]) in
  let post :=
    Post.mk "abc" "A title" "" 7 one_day_old 0 ""
      "https://www.reddit.com/comments/abc" in
  fst (fst (ArcticShift.fetch_arctic_shift_posts reply)) = [post]
  /\ exists retry_after items d,
       reply = ArcticShift.Response 200 retry_after (ArcticShift.Data items)
       /\ In (ArcticShift.Dict d) items
       /\ length (fst (fst (ArcticShift.fetch_arctic_shift_posts reply)))
          <= length items
       /\ ArcticShift.pd_id d = Some (Post.id post)
       /\ Post.id post <> ""%string
       /\ Post.permalink post
          = ("https://www.reddit.com/comments/" +:+ Post.id post)%string
       /\ Post.title post = default ""%string (ArcticShift.pd_title d)
       /\ Post.selftext post = default ""%string (ArcticShift.pd_selftext d)
       /\ Post.score post = default 0%Z (ArcticShift.pd_score d)
       /\ Post.created_utc post = default 0%Z (ArcticShift.pd_created_utc d)
       /\ Post.num_comments post = default 0%Z (ArcticShift.pd_num_comments d)
       /\ Post.author post = default ""%string (ArcticShift.pd_author d).
Proof.
  intros reply post. split; [reflexivity|].
  apply (post_search_posts_are_well_formed reply post). now left.
Defined.

Lemma truthy_app (a b : string) : a <> ""%string -> truthy (Some (a +:+ b)) = true.
Proof. destruct a; [congruence|reflexivity]. Qed.

(** When a window request makes the loop return early. *)
Lemma aborts_iff_overload
    (posts_reply : string -> string -> string -> ArcticShift.PostsReply)
    (comments : string -> list Comment.t * option string)
    (normalized : string) (w : string * string) :
  aborts (upstream_of posts_reply comments) normalized w = true
  <-> exists status retry_after body,
        posts_reply normalized (fst w) (snd w)
        = ArcticShift.Response status retry_after body
        /\ (status = 429 \/ status = 502 \/ status = 503 \/ status = 504)%Z.
Proof.
  unfold aborts, outcome_error, outcome_status, outcome, upstream_of.
  cbn [fetch_arctic_shift_posts].
  destruct (posts_reply normalized (fst w) (snd w))
    as [| |message|status retry_after body].
  1-3: (split; [cbn; rewrite ?andb_false_r; discriminate
               |intros (? & ? & ? & [=] & _)]).
  assert (Hex : (status = 429 \/ status = 502 \/ status = 503 \/ status = 504)%Z
    <-> exists status' retry_after' body',
          ArcticShift.Response status retry_after body
          = ArcticShift.Response status' retry_after' body'
          /\ (status' = 429 \/ status' = 502 \/ status' = 503 \/ status' = 504)%Z).
  { split.
    - intros H. now exists status, retry_after, body.
    - intros (s & r & b & [= <- _ _] & H). exact H. }
  rewrite <- Hex. clear Hex.
  unfold ArcticShift.fetch_arctic_shift_posts.
  destruct (Z.eqb_spec status 404); [subst; cbn; split; [discriminate|lia]|].
  destruct (Z.eqb_spec status 429);
    [subst; cbn [fst snd]; split; [now left|intros _];
     rewrite truthy_app by discriminate; reflexivity|].
  destruct (Z.eqb_spec status 403); [subst; cbn; split; [discriminate|lia]|].
  destruct (Z.eqb_spec status 400); [subst; cbn; split; [discriminate|lia]|].
  destruct (Z.eqb_spec status 502); [subst; cbn; split; [lia|reflexivity]|].
  destruct (Z.eqb_spec status 503); [subst; cbn; split; [lia|reflexivity]|].
  destruct (Z.eqb_spec status 504); [subst; cbn; split; [lia|reflexivity]|].
  assert (Hno : aborting_status (Some status) = false).
  { cbn. destruct (Z.eqb_spec status 429); [lia|].
    destruct (Z.eqb_spec status 502); [lia|].
    destruct (Z.eqb_spec status 503); [lia|].
    destruct (Z.eqb_spec status 504); [lia|]. reflexivity. }
  cbn [orb].
  destruct (Z.eqb_spec status 200) as [->|Hne]; cbn [negb fst snd].
  - destruct body; cbn [fst snd]; rewrite ?Hno, ?andb_false_r;
      (split; [discriminate|lia]).
  - rewrite Hno, andb_false_r. split; [discriminate|lia].
Qed.

(** When a window request makes the loop stop with that window. *)
Lemma accepted_iff_full
    (posts_reply : string -> string -> string -> ArcticShift.PostsReply)
    (comments : string -> list Comment.t * option string)
    (normalized : string) (w : string * string) :
  accepted (upstream_of posts_reply comments) normalized w = true
  <-> exists retry_after items,
        posts_reply normalized (fst w) (snd w)
        = ArcticShift.Response 200 retry_after (ArcticShift.Data items)
        /\ 150 <= length (apply_quality_filter
                            (omap ArcticShift.parse_post items)).
Proof.
  unfold accepted, succeeds, filtered_of, outcome_error, outcome, upstream_of.
  cbn [fetch_arctic_shift_posts].
  pose proof (post_search_outcome (posts_reply normalized (fst w) (snd w)))
    as H.
  destruct (ArcticShift.fetch_arctic_shift_posts
              (posts_reply normalized (fst w) (snd w)))
    as [[posts status] error] eqn:E.
  destruct H as (Hok & Hfail & _). cbn [fst snd]. split.
  - intros [Hs Hlen]%andb_true_iff. apply Nat.leb_le in Hlen.
    destruct error as [message|].
    { destruct (Hfail ltac:(discriminate)) as [_ Ht]. rewrite Ht in Hs.
      discriminate. }
    destruct (proj1 Hok eq_refl) as (retry_after & items & Hr).
    exists retry_after, items. split; [exact Hr|].
    rewrite Hr in E. cbn in E. injection E as <- _. exact Hlen.
  - intros (retry_after & items & Hr & Hlen).
    rewrite Hr in E. cbn in E. injection E as <- _ <-.
    cbn [truthy negb andb]. now apply Nat.leb_le.
Qed.

(** X7.  In the windowed search, the request for a window that is not the
    last one (no earlier window having stopped the search) is the last
    request of the search exactly in two cases: it is answered with status
    429, 502, 503 or 504, and the search returns early with the error of
    that answer; or it is answered with 200 and a body whose posts leave at
    least 150 after the quality filter, and the search takes that window.
    A timeout, a connection failure, any other status, a malformed body and
    a smaller result all let the search go on to the next window. *)
Theorem window_request_is_last_exactly_on_overload_or_full
    (posts_reply : string -> string -> string -> ArcticShift.PostsReply)
    (comments : string -> list Comment.t * option string)
    (normalized : string) (debug0 : DebugInfo)
    (pre : list (string * string)) (w : string * string)
    (post : list (string * string)) :
  let up := upstream_of posts_reply comments in
  let overloaded :=
    exists status retry_after body,
      posts_reply normalized (fst w) (snd w)
      = ArcticShift.Response status retry_after body
      /\ (status = 429 \/ status = 502 \/ status = 503 \/ status = 504)%Z in
  let full :=
    exists retry_after items,
      posts_reply normalized (fst w) (snd w)
      = ArcticShift.Response 200 retry_after (ArcticShift.Data items)
      /\ 150 <= length (apply_quality_filter
                          (omap ArcticShift.parse_post items)) in
  windows = pre ++ w :: post ->
  post <> [] ->
  (forall v, In v pre ->
     aborts up normalized v = false /\ accepted up normalized v = false) ->
  (requests_of (search_windows up normalized windows [] "" debug0 [])
   = pre ++ [w]
   <-> overloaded \/ full)
  /\ (overloaded ->
      exists debug,
        search_windows up normalized windows [] "" debug0 []
        = Aborted (outcome_error up normalized w) debug (pre ++ [w]))
  /\ (full ->
      exists debug,
        search_windows up normalized windows [] "" debug0 []
        = Finished (filtered_of up normalized w) (window_str w) debug
            (pre ++ [w])).
Proof.
  intros up overloaded full Hsplit Hpost Hpre. rewrite Hsplit.
  destruct (search_windows_prefix up normalized pre [] "" debug0 [] Hpre)
    as (posts' & used' & debug' & Heq & _).
  rewrite Heq. cbn [app].
  destruct (search_windows_cons up normalized w post posts' used' debug' pre)
    as (de & dk & ->).
  pose proof (aborts_iff_overload posts_reply comments normalized w) as Hab.
  pose proof (accepted_iff_full posts_reply comments normalized w) as Hacc.
  fold up in Hab, Hacc. fold overloaded in Hab. fold full in Hacc.
  assert (Hlonger : forall p u d,
    requests_of (search_windows up normalized post p u d (pre ++ [w]))
    <> pre ++ [w]).
  { intros p u d E.
    destruct (search_windows_requests_next up normalized post p u d
                (pre ++ [w])) as [more Hm].
    rewrite Hm in E. destruct post as [|next post]; [congruence|].
    apply (f_equal (@length _)) in E. rewrite !length_app in E.
    cbn in E. lia. }
  destruct (succeeds up normalized w) eqn:S; cbn [negb].
  - assert (A : aborts up normalized w = false).
    { unfold aborts. unfold succeeds in S. apply negb_true_iff in S.
      now rewrite S. }
    rewrite A in Hab.
    destruct (accepted up normalized w) eqn:C.
    + split; [split; [intros _; right; now apply Hacc|reflexivity]|].
      split; [intros Hov; apply Hab in Hov; discriminate|].
      intros _. now exists dk.
    + split; [split|split].
      * intros E. exfalso. destruct (_ <? _); now apply Hlonger in E.
      * intros [Hov|Hfull]; [apply Hab in Hov|apply Hacc in Hfull];
          discriminate.
      * intros Hov. apply Hab in Hov. discriminate.
      * intros Hfull. apply Hacc in Hfull. discriminate.
  - assert (C : accepted up normalized w = false).
    { unfold accepted. now rewrite S. }
    rewrite C in Hacc.
    destruct (aborts up normalized w) eqn:A.
    + split; [split; [intros _; left; now apply Hab|reflexivity]|].
      split; [intros _; now exists de|].
      intros Hfull. apply Hacc in Hfull. discriminate.
    + split; [split|split].
      * intros E. exfalso. now apply Hlonger in E.
      * intros [Hov|Hfull]; [apply Hab in Hov|apply Hacc in Hfull];
          discriminate.
      * intros Hov. apply Hab in Hov. discriminate.
      * intros Hfull. apply Hacc in Hfull. discriminate.
Qed.

(** X7 at a first window that is answered with 503. *)
Lemma window_request_is_last_exactly_on_overload_or_full_witness :
  let posts_reply := fun _ _ _ : string =>
    ArcticShift.Response 503 None ArcticShift.InvalidJson in
  let up := upstream_of posts_reply (fun _ => ([], None)) in
  requests_of
    (search_windows up "testgame" windows [] "" (new_debug "testgame" None) [])
  = [("8d", "36h")%string]
  /\ exists debug,
       search_windows up "testgame" windows [] "" (new_debug "testgame" None) []
       = Aborted (outcome_error up "testgame" ("8d", "36h")%string) debug
           [("8d", "36h")%string].
Proof.
  intros posts_reply up.
  destruct (window_request_is_last_exactly_on_overload_or_full posts_reply
              (fun _ => ([], None)) "testgame" (new_debug "testgame" None) []
              ("8d", "36h")%string [("8d", "12h"); ("8d", "0h")]%string
              eq_refl)
    as (Hiff & Hover & _).
  - discriminate.
  - intros v [].
  - assert (Hov : exists status retry_after body,
              posts_reply "testgame" "8d" "36h"
              = ArcticShift.Response status retry_after body
              /\ (status = 429 \/ status = 502 \/ status = 503
                  \/ status = 504)%Z).
    { exists 503%Z, None, ArcticShift.InvalidJson.
      split; [reflexivity|]. right; right; now left. }
    split; [apply Hiff; now left|exact (Hover Hov)].
Defined.

(** X8.  When a window request is answered with 429, 502, 503 or 504 (no
    earlier window having stopped the search, and no cache entry younger
    than the TTL, be there none or a stale one),
    [fetch_reddit_posts] returns the message of that answer as its error,
    with no posts and no comments, not marked as cached, and leaves the
    cache as it was: what earlier windows had found is dropped. *)
Theorem overload_ends_fetch_without_result
    (rank_value : Z -> Z -> nat -> Q) (normalize lower : string -> string)
    (posts_reply : string -> string -> string -> ArcticShift.PostsReply)
    (comments : string -> list Comment.t * option string)
    (current_time now : Q) (subreddit : string)
    (reddit_cache : gmap string CacheEntry)
    (pre : list (string * string)) (w : string * string)
    (post : list (string * string))
    (status : Z) (retry_after : option string) (body : ArcticShift.PostsBody) :
  let up := upstream_of posts_reply comments in
  normalize subreddit <> ""%string ->
  (forall entry,
     reddit_cache !! lower (normalize subreddit) = Some entry ->
     (inject_Z CACHE_TTL_SECONDS <= current_time - timestamp entry)%Q) ->
  windows = pre ++ w :: post ->
  (forall v, In v pre ->
     aborts up (normalize subreddit) v = false
     /\ accepted up (normalize subreddit) v = false) ->
  posts_reply (normalize subreddit) (fst w) (snd w)
  = ArcticShift.Response status retry_after body ->
  (status = 429 \/ status = 502 \/ status = 503 \/ status = 504)%Z ->
  exists message debug,
    fetch_reddit_posts rank_value normalize lower up current_time now subreddit
      reddit_cache
    = (mkFetchResult [] [] (Some message) false debug, reddit_cache)
    /\ message <> ""%string
    /\ snd (ArcticShift.fetch_arctic_shift_posts
              (ArcticShift.Response status retry_after body))
       = Some message.
Proof.
  intros up Hne Hstale Hsplit Hpre Hreply Hstatus.
  assert (Hab : aborts up (normalize subreddit) w = true).
  { apply aborts_iff_overload. now exists status, retry_after, body. }
  pose proof Hab as Herr. unfold aborts in Herr.
  apply andb_true_iff in Herr as [Herr _].
  assert (Hout : outcome_error up (normalize subreddit) w
                 = snd (ArcticShift.fetch_arctic_shift_posts
                          (ArcticShift.Response status retry_after body))).
  { unfold outcome_error, outcome, up, upstream_of.
    cbn [fetch_arctic_shift_posts]. now rewrite Hreply. }
  destruct (outcome_error up (normalize subreddit) w) as [message|] eqn:E;
    [|discriminate].
  unfold fetch_reddit_posts.
  apply String.eqb_neq in Hne. rewrite Hne, Hsplit.
  assert (Hmiss : match reddit_cache !! lower (normalize subreddit) with
                  | Some cache_entry =>
                      if Py.Qltb (current_time - timestamp cache_entry)%Q
                           (inject_Z CACHE_TTL_SECONDS)
                      then Some (cache_entry,
                                 (current_time - timestamp cache_entry)%Q)
                      else None
                  | None => None
                  end = None).
  { destruct (reddit_cache !! lower (normalize subreddit)) as [entry|];
      [|reflexivity].
    now rewrite (proj2 (Qltb_ge _ _) (Hstale entry eq_refl)). }
  cbv zeta. rewrite Hmiss.
  destruct (search_windows_prefix up (normalize subreddit) pre [] ""
              (new_debug (normalize subreddit) None) [] Hpre)
    as (posts' & used' & debug' & Heq & _).
  rewrite Heq.
  destruct (search_windows_cons up (normalize subreddit) w post posts' used'
              debug' ([] ++ pre)) as (de & dk & ->).
  unfold succeeds. rewrite E, Herr, Hab. cbn [negb].
  exists message, de. split; [reflexivity|]. split; [|now symmetry].
  intros ->. discriminate.
Qed.

(** X8 at a rate limit on the first window, with a cache entry that is
    1000 seconds old. *)
Lemma overload_ends_fetch_without_result_witness :
  let posts_reply := fun _ _ _ : string =>
    ArcticShift.Response 429 (Some "12"%string) ArcticShift.InvalidJson in
  let reddit_cache : gmap string CacheEntry :=
    <["testgame" := mkCacheEntry [example_post "p1" "alice" one_day_old] [] 0]>
      ∅ in
  exists message debug,
    fetch_reddit_posts example_rank normalize_subreddit Str.lower
      (upstream_of posts_reply (fun _ => ([], None)))
      (inject_Z 1000) example_now "r/TestGame/" reddit_cache
    = (mkFetchResult [] [] (Some message) false debug, reddit_cache)
    /\ message <> ""%string
    /\ snd (ArcticShift.fetch_arctic_shift_posts
              (ArcticShift.Response 429 (Some "12"%string)
                 ArcticShift.InvalidJson))
       = Some message.
Proof.
  intros posts_reply reddit_cache.
  apply (overload_ends_fetch_without_result example_rank normalize_subreddit
           Str.lower posts_reply (fun _ => ([], None)) (inject_Z 1000)
           example_now "r/TestGame/" reddit_cache [] ("8d", "36h")%string
           [("8d", "12h"); ("8d", "0h")]%string 429 (Some "12"%string)
           ArcticShift.InvalidJson).
  - vm_compute. discriminate.
  - intros entry H. vm_compute in H. injection H as <-.
    vm_compute. discriminate.
  - reflexivity.
  - intros v [].
  - reflexivity.
  - now left.
Defined.

(** ** Comment search and its cache *)
Lemma comments_served_from_cache (reply : ArcticShift.CommentsReply)
    (current_time : Q) (post_id : string)
    (comments_cache : gmap string ArcticShift.CommentsEntry)
    (entry : ArcticShift.CommentsEntry) :
  comments_cache !! comments_key post_id = Some entry ->
  (current_time - ArcticShift.ce_timestamp entry < inject_Z CACHE_TTL_SECONDS)%Q ->
  ArcticShift.fetch_arctic_shift_comments reply current_time post_id comments_cache
  = ((ArcticShift.ce_data entry, None), comments_cache).
Proof.
  intros Hlook Hfresh. unfold ArcticShift.fetch_arctic_shift_comments.
  fold (comments_key post_id). rewrite Hlook.
  apply Qltb_lt in Hfresh. now rewrite Hfresh.
Qed.

Lemma comments_asked_from_network (reply : ArcticShift.CommentsReply)
    (current_time : Q) (post_id : string)
    (comments_cache : gmap string ArcticShift.CommentsEntry) :
  no_fresh_comments comments_cache post_id current_time ->
  ArcticShift.fetch_arctic_shift_comments reply current_time post_id comments_cache
  = match reply with
    | ArcticShift.CommentsException message =>
        (([], Some message), comments_cache)
    | ArcticShift.CommentsResponse status body =>
        if negb (status =? 200)%Z then
          (([], Some ("Failed to fetch comments (HTTP " +:+ pretty status +:+ ")")),
           comments_cache)
        else
          match body with
          | ArcticShift.Unreadable message => (([], Some message), comments_cache)
          | ArcticShift.Elements comments_data =>
              ((omap ArcticShift.parse_comment comments_data, None),
               <[comments_key post_id :=
                   ArcticShift.mkCommentsEntry
                     (omap ArcticShift.parse_comment comments_data) current_time]>
                 comments_cache)
          end
    end.
Proof.
  intros Hno. unfold ArcticShift.fetch_arctic_shift_comments.
  fold (comments_key post_id).
  destruct (comments_cache !! comments_key post_id) as [entry|] eqn:E;
    [|reflexivity].
  specialize (Hno entry E). apply Qltb_ge in Hno. now rewrite Hno.
Qed.

(** X9.  Comment cache round trip: after a search that was answered with
    200 and a readable body at [t1], a search for the same post at [t2]
    with [t2 - t1 < 600] returns the same comments without error, whatever
    the network would answer, and leaves the cache as it is. *)
Theorem comments_cache_round_trip
    (reply2 : ArcticShift.CommentsReply) (t1 t2 : Q) (post_id : string)
    (comments_cache : gmap string ArcticShift.CommentsEntry)
    (items : list (ArcticShift.Item ArcticShift.CommentData)) :
  let first :=
    ArcticShift.fetch_arctic_shift_comments
      (ArcticShift.CommentsResponse 200 (ArcticShift.Elements items))
      t1 post_id comments_cache in
  no_fresh_comments comments_cache post_id t1 ->
  (t2 - t1 < inject_Z 600)%Q ->
  fst first = (omap ArcticShift.parse_comment items, None)
  /\ ArcticShift.fetch_arctic_shift_comments reply2 t2 post_id (snd first)
     = (fst first, snd first).
Proof.
  intros first Hno Hfresh. unfold first.
  rewrite (comments_asked_from_network _ _ _ _ Hno).
  change (negb (200 =? 200)%Z) with false. cbn [fst snd].
  split; [reflexivity|].
  rewrite (comments_served_from_cache reply2 t2 post_id _
             (ArcticShift.mkCommentsEntry (omap ArcticShift.parse_comment items) t1));
    [reflexivity|apply lookup_insert_eq|exact Hfresh].
Qed.

(** X9 at an empty cache, with a second call whose request would fail. *)
Lemma comments_cache_round_trip_witness :
  let items :=
    [ArcticShift.Dict
       (ArcticShift.mkCommentData (Some "c1"%string) (Some "Nice patch"%string)
          (Some 3%Z) (Some one_day_old) (Some "bob"%string)
          (Some "t3_abc"%string))] in
  let first :=
    ArcticShift.fetch_arctic_shift_comments
      (ArcticShift.CommentsResponse 200 (ArcticShift.Elements items))
      (inject_Z 1000) "abc" ∅ in
  (no_fresh_comments ∅ "abc" (inject_Z 1000)
   /\ (inject_Z 1500 - inject_Z 1000 < inject_Z 600)%Q)
  /\ fst first = (omap ArcticShift.parse_comment items, None)
  /\ ArcticShift.fetch_arctic_shift_comments
       (ArcticShift.CommentsException "connection reset") (inject_Z 1500) "abc"
       (snd first)
     = (fst first, snd first).
Proof.
  intros items first.
  assert (H1 : no_fresh_comments ∅ "abc" (inject_Z 1000)).
  { intros entry H. rewrite lookup_empty in H. discriminate. }
  assert (H2 : (inject_Z 1500 - inject_Z 1000 < inject_Z 600)%Q) by reflexivity.
  split; [now split|].
  exact (comments_cache_round_trip
           (ArcticShift.CommentsException "connection reset") (inject_Z 1000)
           (inject_Z 1500) "abc" ∅ items H1 H2).
Defined.

(** X10.  A comment search that reports an error returns no comments and
    leaves the cache as it was, so the next call asks the network again;
    and no call ever touches the entry of another post. *)
Theorem failed_comment_search_is_not_cached
    (reply : ArcticShift.CommentsReply) (current_time : Q) (post_id : string)
    (comments_cache : gmap string ArcticShift.CommentsEntry) :
  let run :=
    ArcticShift.fetch_arctic_shift_comments reply current_time post_id
      comments_cache in
  (snd (fst run) <> None -> fst (fst run) = [] /\ snd run = comments_cache)
  /\ (forall key, key <> comments_key post_id ->
        snd run !! key = comments_cache !! key).
Proof.
  intros run. unfold run, ArcticShift.fetch_arctic_shift_comments.
  fold (comments_key post_id).
  destruct (match comments_cache !! comments_key post_id with
            | Some cache_entry =>
                if Py.Qltb (current_time - ArcticShift.ce_timestamp cache_entry)%Q
                     (inject_Z CACHE_TTL_SECONDS)
                then Some (ArcticShift.ce_data cache_entry) else None
            | None => None
            end) as [data|].
  { cbn. split; [congruence|reflexivity]. }
  destruct reply as [message|status body]; [cbn; now split|].
  destruct (negb (status =? 200)%Z); [cbn; now split|].
  destruct body as [message|items]; [cbn; now split|].
  cbn [fst snd]. split; [congruence|].
  intros key Hkey. now rewrite lookup_insert_ne.
Qed.

Lemma parse_comment_Some (item : ArcticShift.Item ArcticShift.CommentData)
    (c : Comment.t) :
  ArcticShift.parse_comment item = Some c ->
  exists d,
    item = ArcticShift.Dict d
    /\ ArcticShift.top_level d = true
    /\ Comment.body c = default ""%string (ArcticShift.cd_body d)
    /\ live_comment c = true.
Proof.
  destruct item as [|d]; [discriminate|]. cbn [ArcticShift.parse_comment].
  destruct (ArcticShift.top_level d) eqn:T; [|discriminate]. cbn [negb].
  destruct (ArcticShift.removed_body _) eqn:R; [discriminate|].
  intros [= <-]. exists d. unfold live_comment. cbn. now rewrite R.
Qed.

(** X11.  What a comment search takes from the network are top-level
    comments (no parent, or a parent that is a post) whose body is none of
    [""], ["[deleted]"], ["[removed]"]; and if every cached comment is live,
    so is every comment any call returns and every comment in the cache
    after it. *)
Theorem comment_search_keeps_live_top_level_comments
    (reply : ArcticShift.CommentsReply) (current_time : Q) (post_id : string)
    (comments_cache : gmap string ArcticShift.CommentsEntry) :
  let run :=
    ArcticShift.fetch_arctic_shift_comments reply current_time post_id
      comments_cache in
  (no_fresh_comments comments_cache post_id current_time ->
   forall c, In c (fst (fst run)) ->
     exists status items d,
       reply = ArcticShift.CommentsResponse status (ArcticShift.Elements items)
       /\ In (ArcticShift.Dict d) items
       /\ ArcticShift.top_level d = true
       /\ Comment.body c = default ""%string (ArcticShift.cd_body d))
  /\ ((forall key entry, comments_cache !! key = Some entry ->
         forall c, In c (ArcticShift.ce_data entry) -> live_comment c = true) ->
      (forall c, In c (fst (fst run)) -> live_comment c = true)
      /\ (forall key entry, snd run !! key = Some entry ->
            forall c, In c (ArcticShift.ce_data entry) -> live_comment c = true)).
Proof.
  intros run. split.
  - intros Hno c Hc. unfold run in Hc.
    rewrite (comments_asked_from_network _ _ _ _ Hno) in Hc.
    destruct reply as [message|status body]; [contradiction|].
    destruct (negb (status =? 200)%Z); [contradiction|].
    destruct body as [message|items]; [contradiction|]. cbn [fst] in Hc.
    apply list_elem_of_In, list_elem_of_omap in Hc as (item & Hitem & Hparse).
    apply parse_comment_Some in Hparse as (d & -> & Htop & Hbody & _).
    exists status, items, d. split; [reflexivity|].
    split; [now apply list_elem_of_In|now split].
  - intros Hcache.
    assert (Hparsed : forall items c,
      In c (omap ArcticShift.parse_comment items) -> live_comment c = true).
    { intros items c Hc.
      apply list_elem_of_In, list_elem_of_omap in Hc as (item & _ & Hparse).
      now apply parse_comment_Some in Hparse as (d & _ & _ & _ & Hlive). }
    unfold run, ArcticShift.fetch_arctic_shift_comments.
    fold (comments_key post_id).
    destruct (comments_cache !! comments_key post_id) as [entry|] eqn:E.
    + destruct (Py.Qltb _ _).
      { cbn [fst snd]. split; [exact (Hcache _ _ E)|exact Hcache]. }
      destruct reply as [message|status body];
        [cbn [fst snd]; split; [intros c []|exact Hcache]|].
      destruct (negb (status =? 200)%Z);
        [cbn [fst snd]; split; [intros c []|exact Hcache]|].
      destruct body as [message|items];
        [cbn [fst snd]; split; [intros c []|exact Hcache]|].
      cbn [fst snd]. split; [apply Hparsed|].
      intros key entry' Hlook.
      destruct (decide (comments_key post_id = key)) as [<-|Hkey].
      * rewrite lookup_insert_eq in Hlook. injection Hlook as <-.
        apply Hparsed.
      * rewrite lookup_insert_ne in Hlook by assumption. exact (Hcache _ _ Hlook).
    + destruct reply as [message|status body];
        [cbn [fst snd]; split; [intros c []|exact Hcache]|].
      destruct (negb (status =? 200)%Z);
        [cbn [fst snd]; split; [intros c []|exact Hcache]|].
      destruct body as [message|items];
        [cbn [fst snd]; split; [intros c []|exact Hcache]|].
      cbn [fst snd]. split; [apply Hparsed|].
      intros key entry' Hlook.
      destruct (decide (comments_key post_id = key)) as [<-|Hkey].
      * rewrite lookup_insert_eq in Hlook. injection Hlook as <-.
        apply Hparsed.
      * rewrite lookup_insert_ne in Hlook by assumption. exact (Hcache _ _ Hlook).
Qed.

(** ** Order of the sorts *)

(** [sorted(..., reverse=True)] puts no element before one with a strictly
    greater key, provided the keys are totally ordered. *)
Lemma sorted_reverse_sorted {A} (gt : A -> A -> bool) (l : list A) :
  (forall a b, gt a b = true -> gt b a = false) ->
  (forall a b c, gt b a = false -> gt c b = false -> gt c a = false) ->
  StronglySorted (fun a b => gt b a = false) (Py.sorted_reverse gt l).
Proof.
  intros Hasym Htrans.
  assert (Hins : forall x l,
    StronglySorted (fun a b => gt b a = false) l ->
    StronglySorted (fun a b => gt b a = false) (Py.insert_desc gt x l)).
  { clear l. intros x l. induction 1 as [|y l Hsorted IH Hy]; cbn.
    - constructor; constructor.
    - destruct (gt y x) eqn:E.
      + constructor; [exact IH|].
        apply List.Forall_forall. intros z Hz.
        apply (Permutation_in _ (insert_desc_perm gt x l)) in Hz.
        destruct Hz as [<-|Hz]; [now apply Hasym|].
        rewrite List.Forall_forall in Hy. now apply Hy.
      + constructor; [now constructor|].
        constructor; [exact E|].
        rewrite List.Forall_forall in Hy |- *. intros z Hz.
        exact (Htrans _ _ _ E (Hy z Hz)). }
  induction l as [|x l IH]; cbn; [constructor|now apply Hins].
Qed.

(** In a sorted list no element of a later part has a greater key than an
    element of an earlier part. *)
Lemma sorted_split {A} (R : A -> A -> Prop) (l : list A) (n : nat) :
  StronglySorted R l ->
  forall a b, In a (take n l) -> In b (drop n l) -> R a b.
Proof.
  intros Hs. revert n. induction Hs as [|x l Hs IH Hx]; intros n a b.
  - destruct n; intros [].
  - destruct n as [|n]; [intros []|]. cbn. intros [<-|Ha] Hb.
    + rewrite List.Forall_forall in Hx. apply Hx.
      apply list_elem_of_In, (subseteq_drop n l), list_elem_of_In. exact Hb.
    + now apply (IH n).
Qed.

Lemma sorted_take {A} (R : A -> A -> Prop) (l : list A) (n : nat) :
  StronglySorted R l -> StronglySorted R (take n l).
Proof.
  intros Hs. revert n. induction Hs as [|x l Hs IH Hx]; intros [|n]; cbn;
    try constructor.
  - apply IH.
  - rewrite List.Forall_forall in Hx |- *. intros z Hz. apply Hx.
    apply list_elem_of_In, (subseteq_take n l), list_elem_of_In. exact Hz.
Qed.
Lemma comment_key_gt_spec (a b : Comment.t) :
  comment_key_gt a b = true <->
  (Comment.score b < Comment.score a)%Z
  \/ (Comment.score a = Comment.score b
      /\ (String.length (Comment.body b) < String.length (Comment.body a)
          \/ (String.length (Comment.body a) = String.length (Comment.body b)
              /\ (Comment.created_utc b < Comment.created_utc a)%Z))).
Proof.
  unfold comment_key_gt.
  rewrite !orb_true_iff, !andb_true_iff, !orb_true_iff, !andb_true_iff.
  rewrite Z.gtb_ltb, !Z.ltb_lt, Z.eqb_eq, Nat.ltb_lt, Nat.eqb_eq.
  rewrite Z.gtb_ltb, Z.ltb_lt. tauto.
Qed.

Lemma comment_before_spec (a b : Comment.t) :
  comment_key_gt b a = false <-> comment_before a b.
Proof.
  rewrite <- not_true_iff_false, comment_key_gt_spec. unfold comment_before.
  lia.
Qed.

Lemma comment_key_gt_asym (a b : Comment.t) :
  comment_key_gt a b = true -> comment_key_gt b a = false.
Proof. rewrite comment_before_spec, comment_key_gt_spec. unfold comment_before. lia. Qed.

Lemma comment_key_gt_trans (a b c : Comment.t) :
  comment_key_gt b a = false -> comment_key_gt c b = false ->
  comment_key_gt c a = false.
Proof. rewrite !comment_before_spec. unfold comment_before. lia. Qed.

(** X12.  The sampler returns the [max_count] comments that come first in
    the order "higher score, then longer body, then more recent": the
    chosen comments are in that order, none of the comments left out comes
    before a chosen one, and each returned entry carries the id and score
    of its comment. *)
Theorem sampler_selects_the_best_comments (comments : list Comment.t)
    (max_count : nat) :
  exists chosen rest,
    Permutation (chosen ++ rest) comments
    /\ length chosen = Nat.min max_count (length comments)
    /\ select_best_comments comments max_count = map sample_comment chosen
    /\ map Selected.id (select_best_comments comments max_count)
       = map Comment.id chosen
    /\ map Selected.score (select_best_comments comments max_count)
       = map Comment.score chosen
    /\ StronglySorted comment_before chosen
    /\ (forall a b, In a chosen -> In b rest -> comment_before a b).
Proof.
  set (sorted := Py.sorted_reverse comment_key_gt comments).
  assert (Hsorted : StronglySorted comment_before sorted).
  { pose proof (sorted_reverse_sorted comment_key_gt comments
                  comment_key_gt_asym comment_key_gt_trans) as H.
    fold sorted in H. clearbody sorted.
    induction H as [|x l _ IH Hx]; constructor; [exact IH|].
    rewrite List.Forall_forall in Hx |- *. intros z Hz.
    apply comment_before_spec. now apply Hx. }
  exists (take max_count sorted), (drop max_count sorted).
  split; [rewrite take_drop; apply sorted_reverse_perm|].
  split.
  { rewrite length_take.
    unfold sorted. rewrite (Permutation_length (sorted_reverse_perm _ comments)).
    lia. }
  split; [reflexivity|]. unfold select_best_comments, Py.slice_to.
  fold sorted. rewrite !map_map. cbn [sample_comment Selected.id Selected.score].
  split; [reflexivity|]. split; [reflexivity|].
  split; [now apply sorted_take|now apply sorted_split].
Qed.

(** ** DiversitySelector: when no cap binds *)

(** While the posts at hand stay within the three caps, the first pass
    admits each one and defers nothing. *)
Lemma first_pass_admits_all (tda : Q) (l2 l1 : list Post.t) (st : Selection) :
  pass_inv tda st ->
  selected st = l1 ->
  deferred_recent st = [] ->
  (forall a, count_where (by_author a) (l1 ++ l2) <= MAX_POSTS_PER_AUTHOR) ->
  count_where zero_replies (l1 ++ l2) <= MAX_NO_COMMENT_POSTS ->
  length (l1 ++ l2) <= MAX_POSTS_FINAL ->
  selected (first_pass tda l2 st) = l1 ++ l2
  /\ deferred_recent (first_pass tda l2 st) = [].
Proof.
  revert l1 st. induction l2 as [|post rest IH];
    intros l1 st Hinv Hsel Hdef Hauthor Hzero Hlen.
  - cbn. now rewrite app_nil_r.
  - rewrite first_pass_cons.
    rewrite length_app in Hlen. cbn [length] in Hlen.
    rewrite count_where_app, count_where_cons in Hzero.
    pose proof (Hauthor (Post.author post)) as Ha.
    rewrite count_where_app, count_where_cons in Ha.
    unfold by_author at 2 in Ha. rewrite String.eqb_refl in Ha.
    pose proof (inv_authors _ _ Hinv (Post.author post)) as Hcount.
    pose proof (inv_zero _ _ Hinv) as Hncc.
    rewrite Hsel in Hcount, Hncc.
    assert (Hroom : length (selected st) < MAX_POSTS_FINAL)
      by (rewrite Hsel; lia).
    assert (Hfew : default 0 (author_count st !! Post.author post)
                   < MAX_POSTS_PER_AUTHOR) by lia.
    assert (Hz : zero_replies post = true ->
                 no_comment_count st < MAX_NO_COMMENT_POSTS).
    { intros Hzp. rewrite Hzp in Hzero. lia. }
    destruct (MAX_POSTS_FINAL <=? length (selected st)) eqn:E1;
      [apply Nat.leb_le in E1; lia|].
    destruct (MAX_POSTS_PER_AUTHOR <=? _) eqn:E2;
      [apply Nat.leb_le in E2; lia|].
    destruct (zero_replies post && _) eqn:E3.
    { apply andb_true_iff in E3 as [Hzp E3]. apply Nat.leb_le in E3.
      specialize (Hz Hzp). lia. }
    assert (Hnext : (l1 ++ [post]) ++ rest = l1 ++ post :: rest)
      by now rewrite <- app_assoc.
    rewrite <- Hnext. apply IH.
    + now apply pass_inv_add_post.
    + cbn. now rewrite Hsel.
    + exact Hdef.
    + rewrite Hnext. exact Hauthor.
    + rewrite Hnext, count_where_app, count_where_cons. exact Hzero.
    + rewrite Hnext, length_app. cbn [length]. exact Hlen.
Qed.

Lemma rank_gt_asym (rank_value : Z -> Z -> nat -> Q) (p q : Post.t) :
  rank_gt rank_value p q = true -> rank_gt rank_value q p = false.
Proof.
  unfold rank_gt. rewrite Qltb_lt, Qltb_ge. apply Qlt_le_weak.
Qed.

Lemma rank_gt_trans (rank_value : Z -> Z -> nat -> Q) (p q r : Post.t) :
  rank_gt rank_value q p = false -> rank_gt rank_value r q = false ->
  rank_gt rank_value r p = false.
Proof.
  unfold rank_gt. rewrite !Qltb_ge. intros H1 H2. exact (Qle_trans _ _ _ H2 H1).
Qed.

(** X13.  When the input is within all three caps (at most 3 posts per
    author, at most 20 posts without replies, at most 100 posts), the
    selector returns every input post once, ordered by rank from high to
    low, posts of equal rank in their input order. *)
Theorem selector_keeps_everything_within_caps
    (rank_value : Z -> Z -> nat -> Q) (now : Q) (posts : list Post.t) :
  (forall a, count_where (by_author a) posts <= 3) ->
  count_where zero_replies posts <= 20 ->
  length posts <= 100 ->
  apply_diversity_and_recency rank_value now posts
  = Py.sorted_reverse (rank_gt rank_value) posts
  /\ Permutation (apply_diversity_and_recency rank_value now posts) posts
  /\ StronglySorted
       (fun p q =>
          (calculate_post_rank rank_value q <= calculate_post_rank rank_value p)%Q)
       (apply_diversity_and_recency rank_value now posts).
Proof.
  intros Hauthor Hzero Hlen.
  set (sorted := Py.sorted_reverse (rank_gt rank_value) posts).
  pose proof (sorted_reverse_perm (rank_gt rank_value) posts) as Hperm.
  fold sorted in Hperm.
  destruct (first_pass_admits_all (three_days_before now) sorted []
              empty_selection (pass_inv_empty _) eq_refl eq_refl)
    as [Hsel Hdef].
  { intros a. cbn [app]. rewrite (count_where_perm _ _ _ Hperm). apply Hauthor. }
  { cbn [app]. rewrite (count_where_perm _ _ _ Hperm). exact Hzero. }
  { cbn [app]. rewrite (Permutation_length Hperm). exact Hlen. }
  cbn [app] in Hsel.
  assert (Hout : apply_diversity_and_recency rank_value now posts = sorted).
  { rewrite final_slice_keeps_all. unfold selection_before_slice.
    fold sorted in Hsel, Hdef. unfold first_pass_result. fold sorted.
    rewrite Hdef, Hsel. cbn [length Nat.eqb negb]. now rewrite andb_false_r. }
  rewrite Hout. split; [reflexivity|]. split; [exact Hperm|].
  pose proof (sorted_reverse_sorted (rank_gt rank_value) posts
                (rank_gt_asym rank_value) (rank_gt_trans rank_value)) as Hs.
  fold sorted in Hs. clear -Hs.
  induction Hs as [|x l _ IH Hx]; constructor.
  - apply IH.
  - rewrite List.Forall_forall in Hx |- *. intros z Hz.
    specialize (Hx z Hz). unfold rank_gt in Hx. now apply Qltb_ge in Hx.
Qed.

(** X13 at three posts of one author. *)
Lemma selector_keeps_everything_within_caps_witness :
  ((forall a, count_where (by_author a) (take 3 four_by_alice) <= 3)
   /\ count_where zero_replies (take 3 four_by_alice) <= 20
   /\ length (take 3 four_by_alice) <= 100)
  /\ apply_diversity_and_recency example_rank example_now (take 3 four_by_alice)
     = Py.sorted_reverse (rank_gt example_rank) (take 3 four_by_alice)
  /\ Permutation
       (apply_diversity_and_recency example_rank example_now
          (take 3 four_by_alice))
       (take 3 four_by_alice)
  /\ StronglySorted
       (fun p q =>
          (calculate_post_rank example_rank q
           <= calculate_post_rank example_rank p)%Q)
       (apply_diversity_and_recency example_rank example_now
          (take 3 four_by_alice)).
Proof.
  assert (H1 : forall a, count_where (by_author a) (take 3 four_by_alice) <= 3).
  { intros a. etransitivity; [apply count_where_le_length|].
    apply Nat.leb_le. vm_compute. reflexivity. }
  assert (H2 : count_where zero_replies (take 3 four_by_alice) <= 20)
    by (apply Nat.leb_le; vm_compute; reflexivity).
  assert (H3 : length (take 3 four_by_alice) <= 100)
    by (apply Nat.leb_le; vm_compute; reflexivity).
  split; [now split|].
  exact (selector_keeps_everything_within_caps example_rank example_now
           (take 3 four_by_alice) H1 H2 H3).
Defined.

(** ** fetch_reddit_posts: shape of the result *)

Lemma first_pass_length_mono (tda : Q) (l : list Post.t) (st : Selection) :
  length (selected st) <= length (selected (first_pass tda l st)).
Proof.
  revert st. induction l as [|post rest IH]; intros st; [apply Nat.le_refl|].
  rewrite first_pass_cons.
  assert (Hd : forall r, selected (defer_if r post st) = selected st)
    by (intros [|]; reflexivity).
  destruct (MAX_POSTS_FINAL <=? _); [apply Nat.le_refl|].
  destruct (MAX_POSTS_PER_AUTHOR <=? _).
  { etransitivity; [|apply IH]. now rewrite Hd. }
  destruct (_ && _).
  { etransitivity; [|apply IH]. now rewrite Hd. }
  etransitivity; [|apply IH]. cbn. rewrite length_app. lia.
Qed.

Lemma second_pass_length_mono (tda : Q) (deferred sel : list Post.t)
    (recent : nat) :
  length sel <= length (fst (second_pass tda deferred sel recent)).
Proof.
  revert sel recent. induction deferred as [|post rest IH]; intros sel recent;
    [apply Nat.le_refl|].
  rewrite second_pass_cons.
  destruct (MIN_RECENT_POSTS <=? recent); [apply Nat.le_refl|].
  destruct (MAX_POSTS_FINAL <=? length sel).
  - destruct (Py.last_index_where _ sel); [|apply IH].
    etransitivity; [|apply IH]. now rewrite length_insert.
  - etransitivity; [|apply IH]. rewrite length_app. lia.
Qed.

(** The selector returns something whenever it is given something: the
    best-ranked post is always admitted. *)
Lemma apply_diversity_and_recency_nonempty (rank_value : Z -> Z -> nat -> Q)
    (now : Q) (posts : list Post.t) :
  posts <> [] ->
  1 <= length (apply_diversity_and_recency rank_value now posts).
Proof.
  intros Hne. rewrite final_slice_keeps_all. unfold selection_before_slice.
  assert (Hfirst : 1 <= length (selected (first_pass_result rank_value now posts))).
  { unfold first_pass_result.
    pose proof (Permutation_length
                  (sorted_reverse_perm (rank_gt rank_value) posts)) as Hlen.
    destruct (Py.sorted_reverse (rank_gt rank_value) posts) as [|p rest].
    { destruct posts; [congruence|discriminate]. }
    rewrite first_pass_cons.
    cbn [empty_selection selected author_count no_comment_count length].
    rewrite lookup_empty.
    change (MAX_POSTS_FINAL <=? 0) with false.
    change (MAX_POSTS_PER_AUTHOR <=? default 0 None) with false.
    change (MAX_NO_COMMENT_POSTS <=? 0) with false.
    rewrite andb_false_r.
    etransitivity; [|apply first_pass_length_mono]. cbn. lia. }
  destruct (_ && _); [|exact Hfirst].
  etransitivity; [exact Hfirst|apply second_pass_length_mono].
Qed.
(** The cases of a call of [fetch_reddit_posts]. *)
Lemma fetch_result_shape
    (rank_value : Z -> Z -> nat -> Q) (normalize lower : string -> string)
    (up : Upstream) (current_time now : Q) (subreddit : string)
    (reddit_cache : gmap string CacheEntry) :
  cache_holds_results reddit_cache ->
  let run :=
    fetch_reddit_posts rank_value normalize lower up current_time now subreddit
      reddit_cache in
  (r_error (fst run) = None -> 1 <= length (r_posts (fst run)) <= 100)
  /\ (r_error (fst run) <> None ->
        r_posts (fst run) = [] /\ r_post_comments (fst run) = []
        /\ r_used_cache (fst run) = false /\ snd run = reddit_cache)
  /\ (r_used_cache (fst run) = true -> snd run = reddit_cache)
  /\ cache_holds_results (snd run).
Proof.
  intros Hcache run. unfold run, fetch_reddit_posts.
  destruct (normalize subreddit =? "")%string.
  { cbn. split; [discriminate|]. split; [now repeat split|now split]. }
  destruct (reddit_cache !! lower (normalize subreddit)) as [entry|] eqn:E.
  - destruct (Py.Qltb _ _).
    { cbn. split; [intros _; exact (Hcache _ _ E)|].
      split; [congruence|now split]. }
    destruct (search_windows _ _ _ _ _ _ _) as [e d r|posts used d r] eqn:S.
    { cbn. apply search_windows_aborted_error in S.
      split; [intros ->; discriminate|]. split; [now repeat split|].
      split; [discriminate|exact Hcache]. }
    destruct posts as [|p posts].
    { cbn. split; [discriminate|]. split; [now repeat split|].
      split; [discriminate|exact Hcache]. }
    destruct (comments_loop _ _ _ _) as [pc total]. cbn [fst snd r_error r_posts
      r_post_comments r_used_cache].
    assert (Hlen : 1 <= length (apply_diversity_and_recency rank_value now
                                  (p :: posts)) <= 100).
    { split; [now apply apply_diversity_and_recency_nonempty|].
      rewrite final_slice_keeps_all. apply selection_before_slice_length. }
    split; [intros _; exact Hlen|]. split; [congruence|].
    split; [discriminate|].
    intros key entry' Hlook.
    destruct (decide (lower (normalize subreddit) = key)) as [<-|Hkey].
    + rewrite lookup_insert_eq in Hlook. injection Hlook as <-. exact Hlen.
    + rewrite lookup_insert_ne in Hlook by assumption. exact (Hcache _ _ Hlook).
  - destruct (search_windows _ _ _ _ _ _ _) as [e d r|posts used d r] eqn:S.
    { cbn. apply search_windows_aborted_error in S.
      split; [intros ->; discriminate|]. split; [now repeat split|].
      split; [discriminate|exact Hcache]. }
    destruct posts as [|p posts].
    { cbn. split; [discriminate|]. split; [now repeat split|].
      split; [discriminate|exact Hcache]. }
    destruct (comments_loop _ _ _ _) as [pc total]. cbn [fst snd r_error r_posts
      r_post_comments r_used_cache].
    assert (Hlen : 1 <= length (apply_diversity_and_recency rank_value now
                                  (p :: posts)) <= 100).
    { split; [now apply apply_diversity_and_recency_nonempty|].
      rewrite final_slice_keeps_all. apply selection_before_slice_length. }
    split; [intros _; exact Hlen|]. split; [congruence|].
    split; [discriminate|].
    intros key entry' Hlook.
    destruct (decide (lower (normalize subreddit) = key)) as [<-|Hkey].
    + rewrite lookup_insert_eq in Hlook. injection Hlook as <-. exact Hlen.
    + rewrite lookup_insert_ne in Hlook by assumption. exact (Hcache _ _ Hlook).
Qed.

(** X14.  Starting from a cache whose entries hold between 1 and 100 posts
    (true of the empty cache), every call of [fetch_reddit_posts] keeps it
    so, and: a call without error returns between 1 and 100 posts; a call
    with an error returns no posts and no comments, is not marked as cached
    and leaves the cache as it was; a call served from the cache leaves the
    cache as it was. *)
Theorem fetch_returns_posts_or_error
    (rank_value : Z -> Z -> nat -> Q) (normalize lower : string -> string)
    (up : Upstream) (current_time now : Q) (subreddit : string)
    (reddit_cache : gmap string CacheEntry) :
  cache_holds_results reddit_cache ->
  let run :=
    fetch_reddit_posts rank_value normalize lower up current_time now subreddit
      reddit_cache in
  (r_error (fst run) = None -> 1 <= length (r_posts (fst run)) <= 100)
  /\ (r_error (fst run) <> None ->
        r_posts (fst run) = [] /\ r_post_comments (fst run) = []
        /\ r_used_cache (fst run) = false /\ snd run = reddit_cache)
  /\ (r_used_cache (fst run) = true -> snd run = reddit_cache)
  /\ cache_holds_results (snd run).
Proof. apply fetch_result_shape. Qed.

(** X14 at the empty cache. *)
Lemma fetch_returns_posts_or_error_witness :
  let run :=
    fetch_reddit_posts example_rank normalize_subreddit Str.lower up_small
      (inject_Z 1000) example_now "r/TestGame/" ∅ in
  cache_holds_results ∅
  /\ (r_error (fst run) = None -> 1 <= length (r_posts (fst run)) <= 100)
  /\ (r_error (fst run) <> None ->
        r_posts (fst run) = [] /\ r_post_comments (fst run) = []
        /\ r_used_cache (fst run) = false /\ snd run = ∅)
  /\ (r_used_cache (fst run) = true -> snd run = ∅)
  /\ cache_holds_results (snd run).
Proof.
  intros run.
  assert (H : cache_holds_results ∅).
  { intros key entry Hlook. rewrite lookup_empty in Hlook. discriminate. }
  split; [exact H|].
  exact (fetch_returns_posts_or_error example_rank normalize_subreddit Str.lower
           up_small (inject_Z 1000) example_now "r/TestGame/" ∅ H).
Defined.

(** What the loop over the ranked posts adds to its accumulators. *)
Lemma comments_loop_bundles (up : Upstream) (ranked : list Post.t)
    (post_comments : list PostComments) (total : nat) :
  exists bundles,
    fst (comments_loop up ranked post_comments total) = post_comments ++ bundles
    /\ snd (comments_loop up ranked post_comments total)
       = total + list_sum (map (fun pc => length (pc_comments pc)) bundles)
    /\ length bundles <= length ranked
    /\ (forall pc, In pc bundles ->
          1 <= length (pc_comments pc) <= MAX_COMMENTS_PER_POST
          /\ exists post,
               In post ranked /\ Post.id post <> ""%string
               /\ pc_post_id pc = Post.id post
               /\ pc_post_title pc = Post.title post
               /\ pc_comments pc
                  = select_best_comments
                      (fst (fetch_arctic_shift_comments up (Post.id post)))
                      MAX_COMMENTS_PER_POST).
Proof.
  revert post_comments total.
  induction ranked as [|post rest IH]; intros post_comments total.
  - exists []. cbn. rewrite app_nil_r.
    split; [reflexivity|]. split; [lia|]. split; [lia|]. intros pc [].
  - assert (Hskip :
      (exists bundles,
         fst (comments_loop up rest post_comments total) = post_comments ++ bundles
         /\ snd (comments_loop up rest post_comments total)
            = total + list_sum (map (fun pc => length (pc_comments pc)) bundles)
         /\ length bundles <= length (post :: rest)
         /\ (forall pc, In pc bundles ->
               1 <= length (pc_comments pc) <= MAX_COMMENTS_PER_POST
               /\ exists post0,
                    In post0 (post :: rest) /\ Post.id post0 <> ""%string
                    /\ pc_post_id pc = Post.id post0
                    /\ pc_post_title pc = Post.title post0
                    /\ pc_comments pc
                       = select_best_comments
                           (fst (fetch_arctic_shift_comments up (Post.id post0)))
                           MAX_COMMENTS_PER_POST))).
    { destruct (IH post_comments total) as (bundles & H1 & H2 & H3 & H4).
      exists bundles. split; [exact H1|]. split; [exact H2|].
      split; [cbn [length]; lia|].
      intros pc Hpc. destruct (H4 pc Hpc) as (Hlen & post0 & Hin & Hrest).
      split; [exact Hlen|]. exists post0. split; [now right|exact Hrest]. }
    cbn [comments_loop].
    destruct (String.eqb_spec (Post.id post) "") as [Hid|Hid]; [exact Hskip|].
    destruct (fetch_arctic_shift_comments up (Post.id post))
      as [comments err] eqn:F.
    destruct comments as [|c comments]; [exact Hskip|].
    destruct (select_best_comments (c :: comments) MAX_COMMENTS_PER_POST)
      as [|b best] eqn:B; [exact Hskip|].
    set (pc0 := mkPostComments (Post.id post) (Post.title post) (b :: best)).
    destruct (IH (post_comments ++ [pc0]) (total + length (b :: best)))
      as (bundles & H1 & H2 & H3 & H4).
    exists (pc0 :: bundles). rewrite H1, H2.
    split; [now rewrite <- app_assoc|].
    split; [unfold pc0, list_sum; cbn [map fold_right pc_comments length]; lia|].
    split; [cbn [length]; lia|].
    intros pc [<-|Hpc].
    + split.
      * unfold pc0. cbn [pc_comments]. rewrite <- B. split.
        -- rewrite B. cbn [length]. lia.
        -- apply select_best_comments_length.
      * exists post. split; [now left|]. split; [exact Hid|].
        unfold pc0. cbn [pc_post_id pc_post_title pc_comments]. rewrite F.
        cbn [fst]. now rewrite B.
    + destruct (H4 pc Hpc) as (Hlen & post0 & Hin & Hrest).
      split; [exact Hlen|]. exists post0. split; [now right|exact Hrest].
Qed.

(** X15.  In a result that was computed and not read from the cache, there
    are at most 15 comment bundles; each bundle belongs to a returned post
    with a non-empty id, carries that post's id and title and holds between
    1 and 10 comments, the sampler's choice among what the comment search
    returned for that post; and the debug counters report the number of
    bundles and the total number of comments, at most 150. *)
Theorem fetch_comment_bundles_belong_to_posts
    (rank_value : Z -> Z -> nat -> Q) (normalize lower : string -> string)
    (up : Upstream) (current_time now : Q) (subreddit : string)
    (reddit_cache : gmap string CacheEntry) :
  let result :=
    fst (fetch_reddit_posts rank_value normalize lower up current_time now
           subreddit reddit_cache) in
  r_error result = None ->
  r_used_cache result = false ->
  length (r_post_comments result) <= 15
  /\ (forall pc, In pc (r_post_comments result) ->
        1 <= length (pc_comments pc) <= 10
        /\ exists post,
             In post (r_posts result) /\ Post.id post <> ""%string
             /\ pc_post_id pc = Post.id post
             /\ pc_post_title pc = Post.title post
             /\ pc_comments pc
                = select_best_comments
                    (fst (fetch_arctic_shift_comments up (Post.id post))) 10)
  /\ comments_fetched_for (r_debug result) = length (r_post_comments result)
  /\ final_post_count (r_debug result) = length (r_posts result)
  /\ total_comments (r_debug result)
     = list_sum (map (fun pc => length (pc_comments pc)) (r_post_comments result))
  /\ total_comments (r_debug result) <= 150.
Proof.
  intros result. unfold result, fetch_reddit_posts.
  destruct (normalize subreddit =? "")%string; [discriminate|].
  match goal with
  | |- context [match ?c with Some _ => _ | None => _ end] =>
      destruct c as [[entry age]|]
  end; [discriminate|].
  destruct (search_windows _ _ _ _ _ _ _) as [e d r|posts used d r] eqn:S.
  { cbn [fst r_error]. intros ->.
    apply search_windows_aborted_error in S. discriminate. }
  destruct posts as [|p posts]; [discriminate|].
  set (final_posts := apply_diversity_and_recency rank_value now (p :: posts)).
  set (ranked := Py.slice_to TOP_POSTS_FOR_COMMENTS
                   (Py.sorted_reverse (rank_gt rank_value) final_posts)).
  destruct (comments_loop_bundles up ranked [] 0)
    as (bundles & H1 & H2 & H3 & H4).
  destruct (comments_loop up ranked [] 0) as [pcs total].
  cbn [fst snd] in H1, H2. cbn [app] in H1. subst pcs.
  cbn [fst r_error r_used_cache r_post_comments r_posts r_debug].
  intros _ _.
  assert (Hranked : length ranked <= 15).
  { unfold ranked, Py.slice_to, TOP_POSTS_FOR_COMMENTS.
    rewrite length_take. lia. }
  assert (Hsum : forall l : list PostComments,
    (forall pc, In pc l -> length (pc_comments pc) <= 10) ->
    list_sum (map (fun pc => length (pc_comments pc)) l) <= 10 * length l).
  { induction l as [|x l IHl]; intros Hl; [cbn; lia|].
    unfold list_sum in *. cbn [map fold_right length].
    pose proof (Hl x (or_introl eq_refl)).
    specialize (IHl (fun pc Hpc => Hl pc (or_intror Hpc))). lia. }
  split; [lia|]. split.
  { intros pc Hpc. destruct (H4 pc Hpc) as (Hlen & post & Hin & Hrest).
    split; [exact Hlen|]. exists post. split; [|exact Hrest].
    unfold ranked, Py.slice_to in Hin.
    apply list_elem_of_In, (subseteq_take _ _), list_elem_of_In in Hin.
    exact (Permutation_in _ (sorted_reverse_perm _ _) Hin). }
  split; [reflexivity|]. split; [reflexivity|].
  cbn [set_final_counts total_comments]. rewrite H2. split; [lia|].
  specialize (Hsum bundles
    (fun pc Hpc => proj2 (proj1 (H4 pc Hpc)))). cbn [Nat.add]. lia.
Qed.

(** X15 at a first scan that finds 7 posts with one comment each. *)
Lemma fetch_comment_bundles_belong_to_posts_witness :
  let result :=
    fst (fetch_reddit_posts example_rank normalize_subreddit Str.lower up_small
           (inject_Z 1000) example_now "r/TestGame/" ∅) in
  (r_error result = None /\ r_used_cache result = false
   /\ length (r_post_comments result) = 7)
  /\ length (r_post_comments result) <= 15
  /\ (forall pc, In pc (r_post_comments result) ->
        1 <= length (pc_comments pc) <= 10
        /\ exists post,
             In post (r_posts result) /\ Post.id post <> ""%string
             /\ pc_post_id pc = Post.id post
             /\ pc_post_title pc = Post.title post
             /\ pc_comments pc
                = select_best_comments
                    (fst (fetch_arctic_shift_comments up_small (Post.id post))) 10)
  /\ comments_fetched_for (r_debug result) = length (r_post_comments result)
  /\ final_post_count (r_debug result) = length (r_posts result)
  /\ total_comments (r_debug result)
     = list_sum (map (fun pc => length (pc_comments pc)) (r_post_comments result))
  /\ total_comments (r_debug result) <= 150.
Proof.
  intros result.
  assert (H1 : r_error result = None) by (vm_compute; reflexivity).
  assert (H2 : r_used_cache result = false) by (vm_compute; reflexivity).
  split; [split; [exact H1|split; [exact H2|vm_compute; reflexivity]]|].
  exact (fetch_comment_bundles_belong_to_posts example_rank normalize_subreddit
           Str.lower up_small (inject_Z 1000) example_now "r/TestGame/" ∅ H1 H2).
Defined.

(** ** The scan route and the cache status route *)

Section ScanRoute.

Variable rank_value : Z -> Z -> nat -> Q.
Variable find_game : string -> string -> option Game.
Variable analyze_posts_with_ai :
  list Post.t -> list PostComments -> string -> string -> gmap string Json.
Variable summary_fields : gmap string Json -> option Ai.t.

(** An error of [fetch_reddit_posts] is never the empty string. *)
Lemma fetch_error_truthy (normalize lower : string -> string) (up : Upstream)
    (current_time now : Q) (subreddit : string)
    (reddit_cache : gmap string CacheEntry) :
  let fetched :=
    fst (fetch_reddit_posts rank_value normalize lower up current_time now
           subreddit reddit_cache) in
  r_error fetched = None \/ truthy (r_error fetched) = true.
Proof.
  unfold fetch_reddit_posts.
  destruct (normalize subreddit =? "")%string; [now right|].
  match goal with
  | |- context [match ?c with Some _ => _ | None => _ end] =>
      destruct c as [[entry age]|]
  end; [now left|].
  destruct (search_windows _ _ _ _ _ _ _) as [e d r|posts used d r] eqn:S.
  { right. exact (search_windows_aborted_error _ _ _ _ _ _ _ _ _ _ S). }
  destruct posts as [|p posts]; [right; reflexivity|].
  destruct (comments_loop _ _ _ _). now left.
Qed.

(** X16.  Whatever a scan attempt ends with (a result, an upstream error,
    no posts, a summary that the result class refuses), the next scan of the
    same game whose throttle check comes less than 30 seconds after the time
    recorded for that attempt is refused with the wait message, and changes
    nothing: not the result cache, not the throttle table, not the stored
    scan results. *)
Theorem scan_is_refused_after_any_attempt (up1 up2 : Upstream)
    (clock1 clock2 : Clock) (game_id user_id : string) (srv : Server)
    (game : Game) :
  find_game game_id user_id = Some game ->
  fst (check_throttle normalize_subreddit Str.lower (at_throttle_check clock1)
         (game_subreddit game) (srv_scan_times srv)) = false ->
  (at_throttle_check clock2 - at_update clock1 < inject_Z 30)%Q ->
  let first :=
    run_scan rank_value normalize_subreddit Str.lower find_game
      analyze_posts_with_ai summary_fields up1 clock1 game_id user_id srv in
  run_scan rank_value normalize_subreddit Str.lower find_game
    analyze_posts_with_ai summary_fields up2 clock2 game_id user_id (snd first)
  = (Returned
       (throttled_result normalize_subreddit game_id user_id
          (game_subreddit game)
          (Py.int (inject_Z 30 - (at_throttle_check clock2 - at_update clock1))%Q)),
     snd first).
Proof.
  intros Hgame Hfree Hsoon first.
  assert (Htimes : srv_scan_times (snd first)
                   = update_scan_time normalize_subreddit Str.lower
                       (at_update clock1) (game_subreddit game)
                       (srv_scan_times srv)).
  { unfold first, run_scan. rewrite Hgame.
    destruct (check_throttle normalize_subreddit Str.lower
                (at_throttle_check clock1) (game_subreddit game)
                (srv_scan_times srv)) as [b n].
    cbn [fst] in Hfree. subst b.
    destruct (fetch_reddit_posts _ _ _ up1 _ _ _ _) as [fetched cache'].
    destruct (truthy (r_error fetched)); [reflexivity|].
    destruct (length (r_posts fetched) =? 0); [reflexivity|].
    destruct (summary_fields _); reflexivity. }
  unfold run_scan at 1. rewrite Hgame.
  unfold check_throttle. rewrite Htimes. unfold update_scan_time.
  rewrite lookup_insert_eq.
  apply Qltb_lt in Hsoon. unfold THROTTLE_SECONDS. rewrite Hsoon.
  reflexivity.
Qed.

(** X17.  A scan of an existing game that is not refused by the throttle
    records its attempt time and takes over the cache from the fetch.  It
    either returns a record and appends exactly that record to the stored
    results, or ends on a refused summary and stores nothing, which only
    happens after a fetch without error.  When the fetch failed, the record
    carries the fetch error and no posts. *)
Theorem scan_attempt_is_recorded (up : Upstream) (clock : Clock)
    (game_id user_id : string) (srv : Server) (game : Game) :
  find_game game_id user_id = Some game ->
  fst (check_throttle normalize_subreddit Str.lower (at_throttle_check clock)
         (game_subreddit game) (srv_scan_times srv)) = false ->
  let run :=
    run_scan rank_value normalize_subreddit Str.lower find_game
      analyze_posts_with_ai summary_fields up clock game_id user_id srv in
  let fetch :=
    fetch_reddit_posts rank_value normalize_subreddit Str.lower up
      (at_fetch clock) (at_selection clock) (game_subreddit game)
      (srv_cache srv) in
  srv_cache (snd run) = snd fetch
  /\ srv_scan_times (snd run)
     = update_scan_time normalize_subreddit Str.lower (at_update clock)
         (game_subreddit game) (srv_scan_times srv)
  /\ ((exists scan_result,
         fst run = Returned scan_result
         /\ srv_results (snd run) = srv_results srv ++ [scan_result]
         /\ (r_error (fst fetch) <> None ->
               Scan.error scan_result = r_error (fst fetch)
               /\ Scan.post_count scan_result = 0
               /\ Scan.source_posts scan_result = []
               /\ Scan.debug_info scan_result = Some (r_debug (fst fetch))))
      \/ (fst run = SummaryRefused
          /\ srv_results (snd run) = srv_results srv
          /\ r_error (fst fetch) = None
          /\ r_posts (fst fetch) <> [])).
Proof.
  intros Hgame Hfree run fetch. unfold run, run_scan. rewrite Hgame.
  destruct (check_throttle normalize_subreddit Str.lower
              (at_throttle_check clock) (game_subreddit game)
              (srv_scan_times srv)) as [b n].
  cbn [fst] in Hfree. subst b.
  pose proof (fetch_error_truthy normalize_subreddit Str.lower up
                (at_fetch clock) (at_selection clock) (game_subreddit game)
                (srv_cache srv)) as Htruthy.
  cbv zeta in Htruthy. unfold fetch.
  destruct (fetch_reddit_posts rank_value normalize_subreddit Str.lower up
              (at_fetch clock) (at_selection clock) (game_subreddit game)
              (srv_cache srv)) as [fetched cache'].
  cbn [fst snd] in *.
  destruct (truthy (r_error fetched)) eqn:T.
  { cbn [fst snd srv_cache srv_scan_times srv_results].
    split; [reflexivity|]. split; [reflexivity|]. left.
    eexists. split; [reflexivity|]. split; [reflexivity|].
    intros _. destruct (r_error fetched); [|discriminate].
    cbn. now repeat split. }
  destruct Htruthy as [Hnone|Htrue]; [|congruence].
  destruct (length (r_posts fetched) =? 0) eqn:L.
  { cbn [fst snd srv_cache srv_scan_times srv_results].
    split; [reflexivity|]. split; [reflexivity|]. left.
    eexists. split; [reflexivity|]. split; [reflexivity|].
    intros Herr. contradiction. }
  destruct (summary_fields _) as [summary|];
    cbn [fst snd srv_cache srv_scan_times srv_results];
    (split; [reflexivity|]); (split; [reflexivity|]).
  - left. eexists. split; [reflexivity|]. split; [reflexivity|].
    intros Herr. contradiction.
  - right. split; [reflexivity|]. split; [reflexivity|].
    split; [exact Hnone|]. intros E. rewrite E in L. discriminate.
Qed.

(** X18.  With a cache whose entries hold between 1 and 100 posts, a scan
    that returns a record without error reports between 1 and 100 posts, one
    source entry per post in the same order and with the same id and
    permalink, a seven-day count that does not exceed the post count, the
    sum of the bundle sizes as the number of sampled comments, and the flag
    [cached] of the fetch; and the scan leaves the cache in that state. *)
Theorem successful_scan_reports_its_posts (up : Upstream) (clock : Clock)
    (game_id user_id : string) (srv : Server) (scan_result : Scan.t) :
  cache_holds_results (srv_cache srv) ->
  fst (run_scan rank_value normalize_subreddit Str.lower find_game
         analyze_posts_with_ai summary_fields up clock game_id user_id srv)
  = Returned scan_result ->
  Scan.error scan_result = None ->
  exists game,
    find_game game_id user_id = Some game
    /\ let fetched :=
         fst (fetch_reddit_posts rank_value normalize_subreddit Str.lower up
                (at_fetch clock) (at_selection clock) (game_subreddit game)
                (srv_cache srv)) in
       r_error fetched = None
       /\ 1 <= Scan.post_count scan_result <= 100
       /\ Scan.post_count scan_result = length (r_posts fetched)
       /\ Scan.source_posts scan_result = map to_source_post (r_posts fetched)
       /\ map Source.id (Scan.source_posts scan_result)
          = map Post.id (r_posts fetched)
       /\ map Source.permalink (Scan.source_posts scan_result)
          = map Post.permalink (r_posts fetched)
       /\ Scan.posts_last_7_days scan_result <= Scan.post_count scan_result
       /\ Scan.comments_sampled scan_result
          = list_sum (map (fun pc => length (pc_comments pc))
                        (r_post_comments fetched))
       /\ Scan.cached scan_result = r_used_cache fetched
       /\ cache_holds_results
            (srv_cache
               (snd (run_scan rank_value normalize_subreddit Str.lower
                       find_game analyze_posts_with_ai summary_fields up clock
                       game_id user_id srv))).
Proof.
  intros Hcache Hrun Hok. unfold run_scan in *.
  destruct (find_game game_id user_id) as [game|]; [|discriminate].
  exists game. split; [reflexivity|].
  destruct (check_throttle normalize_subreddit Str.lower
              (at_throttle_check clock) (game_subreddit game)
              (srv_scan_times srv)) as [b n].
  destruct b.
  { cbn in Hrun. injection Hrun as <-. discriminate. }
  pose proof (fetch_result_shape rank_value normalize_subreddit Str.lower up
                (at_fetch clock) (at_selection clock) (game_subreddit game)
                (srv_cache srv) Hcache) as Hshape.
  pose proof (fetch_error_truthy normalize_subreddit Str.lower up
                (at_fetch clock) (at_selection clock) (game_subreddit game)
                (srv_cache srv)) as Htruthy.
  cbv zeta in Hshape, Htruthy.
  destruct (fetch_reddit_posts rank_value normalize_subreddit Str.lower up
              (at_fetch clock) (at_selection clock) (game_subreddit game)
              (srv_cache srv)) as [fetched cache'].
  cbn [fst snd] in *. destruct Hshape as (Hposts & _ & _ & Hcache').
  destruct (truthy (r_error fetched)) eqn:T.
  { cbn in Hrun. injection Hrun as <-. discriminate. }
  destruct Htruthy as [Hnone|Htrue]; [|congruence].
  specialize (Hposts Hnone).
  destruct (length (r_posts fetched) =? 0) eqn:L.
  { cbn in Hrun. injection Hrun as <-. discriminate. }
  destruct (summary_fields _) as [summary|]; [|discriminate].
  cbn [fst snd srv_cache] in *. injection Hrun as <-.
  cbn. split; [exact Hnone|]. split; [exact Hposts|].
  split; [reflexivity|]. split; [reflexivity|].
  split; [now rewrite map_map|]. split; [now rewrite map_map|].
  split; [apply count_where_le_length|]. split; [reflexivity|].
  split; [reflexivity|exact Hcache'].
Qed.

Lemma int_nonpos (q : Q) : (q <= 0)%Q -> (Py.int q <= 0)%Z.
Proof.
  intros H. unfold Py.int. apply Z.quot_le_upper_bound; [lia|].
  unfold Qle in H. simpl in H. lia.
Qed.

(** X19.  The cache status of a subject with a name says [valid] exactly
    when a fetch at the same clock reading would be served from the cache;
    an entry that is no longer valid is reported with [expires_in = 0]; and
    the reported [post_count] is 2 however many posts the entry holds. *)
Theorem cache_status_agrees_with_fetch (up : Upstream) (current_time now : Q)
    (subreddit : string) (reddit_cache : gmap string CacheEntry) :
  normalize_subreddit subreddit <> ""%string ->
  (r_used_cache
     (fst (fetch_reddit_posts rank_value normalize_subreddit Str.lower up
             current_time now subreddit reddit_cache)) = true
   <-> exists age_seconds expires_in post_count,
         get_cache_status normalize_subreddit Str.lower current_time subreddit
           reddit_cache
         = Cached true age_seconds expires_in post_count)
  /\ (forall valid age_seconds expires_in post_count,
        get_cache_status normalize_subreddit Str.lower current_time subreddit
          reddit_cache
        = Cached valid age_seconds expires_in post_count ->
        post_count = 2
        /\ (0 <= expires_in)%Z
        /\ (valid = false -> expires_in = 0%Z)).
Proof.
  intros Hne. unfold get_cache_status, fetch_reddit_posts.
  apply String.eqb_neq in Hne. rewrite Hne.
  destruct (reddit_cache !! Str.lower (normalize_subreddit subreddit))
    as [entry|].
  - split.
    + destruct (Py.Qltb _ _) eqn:E.
      * cbn. split; [intros _; eauto|reflexivity].
      * split.
        -- intros Hused. exfalso.
           destruct (search_windows _ _ _ _ _ _ _) as [e d r|posts used d r];
             [discriminate|].
           destruct posts; [discriminate|].
           destruct (comments_loop _ _ _ _). discriminate.
        -- intros (a & e & n & [=]).
    + intros valid age expires n [= <- <- <- <-].
      split; [reflexivity|]. split; [lia|].
      intros Hstale. apply Qltb_ge in Hstale.
      assert (Py.int (inject_Z CACHE_TTL_SECONDS
                      - (current_time - timestamp entry))%Q <= 0)%Z; [|lia].
      apply int_nonpos. lra.
  - split.
    + split.
      * intros Hused. exfalso.
        destruct (search_windows _ _ _ _ _ _ _) as [e d r|posts used d r];
          [discriminate|].
        destruct posts; [discriminate|].
        destruct (comments_loop _ _ _ _). discriminate.
      * intros (a & e & n & [=]).
    + intros valid age expires n [=].
Qed.

End ScanRoute.

(** X16 at a first scan that finds 7 posts and a second scan eleven seconds
    later, whose upstream would answer 200 posts. *)
Lemma scan_is_refused_after_any_attempt_witness :
  let first :=
    run_scan example_rank normalize_subreddit Str.lower example_find_game
      example_analysis example_fields up_small example_clock "g1" "u1"
      fresh_server in
  run_scan example_rank normalize_subreddit Str.lower example_find_game
    example_analysis example_fields up_full ten_seconds_later "g1" "u1"
    (snd first)
  = (Returned
       (throttled_result normalize_subreddit "g1" "u1"
          (game_subreddit example_game)
          (Py.int (inject_Z 30
                   - (at_throttle_check ten_seconds_later
                      - at_update example_clock))%Q)),
     snd first).
Proof.
  apply (scan_is_refused_after_any_attempt example_rank example_find_game
           example_analysis example_fields up_small up_full example_clock
           ten_seconds_later "g1" "u1" fresh_server example_game);
    vm_compute; reflexivity.
Defined.

(** X17 at a first scan that finds 7 posts. *)
Lemma scan_attempt_is_recorded_witness :
  let run :=
    run_scan example_rank normalize_subreddit Str.lower example_find_game
      example_analysis example_fields up_small example_clock "g1" "u1"
      fresh_server in
  let fetch :=
    fetch_reddit_posts example_rank normalize_subreddit Str.lower up_small
      (at_fetch example_clock) (at_selection example_clock)
      (game_subreddit example_game) (srv_cache fresh_server) in
  srv_cache (snd run) = snd fetch
  /\ srv_scan_times (snd run)
     = update_scan_time normalize_subreddit Str.lower (at_update example_clock)
         (game_subreddit example_game) (srv_scan_times fresh_server)
  /\ ((exists scan_result,
         fst run = Returned scan_result
         /\ srv_results (snd run) = srv_results fresh_server ++ [scan_result]
         /\ (r_error (fst fetch) <> None ->
               Scan.error scan_result = r_error (fst fetch)
               /\ Scan.post_count scan_result = 0
               /\ Scan.source_posts scan_result = []
               /\ Scan.debug_info scan_result = Some (r_debug (fst fetch))))
      \/ (fst run = SummaryRefused
          /\ srv_results (snd run) = srv_results fresh_server
          /\ r_error (fst fetch) = None
          /\ r_posts (fst fetch) <> [])).
Proof.
  apply (scan_attempt_is_recorded example_rank example_find_game
           example_analysis example_fields up_small example_clock "g1" "u1"
           fresh_server example_game);
    vm_compute; reflexivity.
Defined.

(** X18 at a first scan that finds 7 posts with one comment each. *)
Lemma successful_scan_reports_its_posts_witness :
  let run :=
    run_scan example_rank normalize_subreddit Str.lower example_find_game
      example_analysis example_fields up_small example_clock "g1" "u1"
      fresh_server in
  let fetched :=
    fst (fetch_reddit_posts example_rank normalize_subreddit Str.lower up_small
           (at_fetch example_clock) (at_selection example_clock)
           (game_subreddit example_game) (srv_cache fresh_server)) in
  exists scan_result,
    fst run = Returned scan_result
    /\ Scan.error scan_result = None
    /\ Scan.post_count scan_result = 7
    /\ 1 <= Scan.post_count scan_result <= 100
    /\ Scan.post_count scan_result = length (r_posts fetched)
    /\ map Source.id (Scan.source_posts scan_result)
       = map Post.id (r_posts fetched)
    /\ Scan.posts_last_7_days scan_result <= Scan.post_count scan_result
    /\ Scan.cached scan_result = r_used_cache fetched
    /\ cache_holds_results (srv_cache (snd run)).
Proof.
  intros run fetched.
  assert (Hcache : cache_holds_results (srv_cache fresh_server)).
  { intros key entry H.
    change (srv_cache fresh_server) with (∅ : gmap string CacheEntry) in H.
    rewrite lookup_empty in H. discriminate. }
  destruct (fst run) as [| |scan_result] eqn:E;
    [vm_compute in E; discriminate|vm_compute in E; discriminate|].
  assert (Herr : Scan.error scan_result = None).
  { clear -E. vm_compute in E. injection E as <-. reflexivity. }
  assert (Hcount : Scan.post_count scan_result = 7).
  { clear -E. vm_compute in E. injection E as <-. reflexivity. }
  destruct (successful_scan_reports_its_posts example_rank example_find_game
              example_analysis example_fields up_small example_clock "g1" "u1"
              fresh_server scan_result Hcache E Herr)
    as (game & Hgame & H).
  injection Hgame as <-. cbv zeta in H.
  destruct H as (_ & Hb & Hlen & _ & Hids & _ & Hseven & _ & Hcached & Hc).
  exists scan_result.
  split; [reflexivity|]. split; [exact Herr|]. split; [exact Hcount|].
  split; [exact Hb|]. split; [exact Hlen|]. split; [exact Hids|].
  split; [exact Hseven|]. split; [exact Hcached|exact Hc].
Defined.

(** X19 at a subject whose entry is 100 seconds old, and at the same entry
    700 seconds later. *)
Lemma cache_status_agrees_with_fetch_witness :
  let reddit_cache : gmap string CacheEntry :=
    <["testgame" := mkCacheEntry [example_post "p1" "alice" one_day_old] []
                      (example_now - 100)%Q]> ∅ in
  get_cache_status normalize_subreddit Str.lower example_now "r/TestGame"
    reddit_cache
  = Cached true 100 500 2
  /\ (r_used_cache
        (fst (fetch_reddit_posts example_rank normalize_subreddit Str.lower
                up_small example_now example_now "r/TestGame" reddit_cache))
      = true
      <-> exists age_seconds expires_in post_count,
            get_cache_status normalize_subreddit Str.lower example_now
              "r/TestGame" reddit_cache
            = Cached true age_seconds expires_in post_count).
Proof.
  intros reddit_cache. split; [vm_compute; reflexivity|].
  apply (cache_status_agrees_with_fetch example_rank up_small example_now
           example_now "r/TestGame" reddit_cache).
  vm_compute. discriminate.
Defined.

(** ** Password hashing *)

Lemma split_no_sep (sep : ascii) (s : string) :
  count_char sep s = 0 -> Str.split sep s = [s].
Proof.
  induction s as [|c s IH]; [reflexivity|].
  cbn [count_char Str.split]. destruct (Ascii.eqb c sep); [discriminate|].
  intros H. rewrite (IH H). reflexivity.
Qed.

Lemma split_at_sep (sep : ascii) (a b : string) :
  count_char sep a = 0 ->
  Str.split sep (a +:+ String sep b) = a :: Str.split sep b.
Proof.
  induction a as [|c a IH]; intros H.
  - cbn [String.append Str.split]. now rewrite Ascii.eqb_refl.
  - cbn [count_char] in H. cbn [String.append Str.split].
    destruct (Ascii.eqb c sep); [discriminate|].
    rewrite (IH H). reflexivity.
Qed.

(** [split] gives one part more than there are separators. *)
Lemma length_split (sep : ascii) (s : string) :
  length (Str.split sep s) = S (count_char sep s).
Proof.
  induction s as [|c s IH]; [reflexivity|].
  cbn [count_char Str.split]. destruct (Ascii.eqb c sep).
  - cbn [length]. now rewrite IH.
  - destruct (Str.split sep s) as [|part parts]; [discriminate|].
    cbn [length] in *. lia.
Qed.

Lemma hexdigits_no_colon (s : string) :
  all_chars is_hexdigit s = true -> count_char ":" s = 0.
Proof.
  induction s as [|c s IH]; [reflexivity|].
  cbn [all_chars count_char]. intros [Hc Hs]%andb_true_iff.
  rewrite (IH Hs). destruct (Ascii.eqb c ":") eqn:E; [|reflexivity].
  apply Ascii.eqb_eq in E. subst c. discriminate.
Qed.

(** X20.  For a salt and a digest made of hexadecimal digits, the stored
    value of a password verifies that password, and verifies another
    password exactly when the two have the same digest with that salt;
    passwords may hold any character, a colon included. *)
Theorem stored_password_verifies (sha256_hexdigest : string -> string)
    (salt password : string) :
  all_chars is_hexdigit salt = true ->
  all_chars is_hexdigit (sha256_hexdigest (password +:+ salt)) = true ->
  verify_password sha256_hexdigest password
    (Some (hash_password sha256_hexdigest salt password)) = true
  /\ (forall other,
        verify_password sha256_hexdigest other
          (Some (hash_password sha256_hexdigest salt password)) = true
        <-> sha256_hexdigest (other +:+ salt)
            = sha256_hexdigest (password +:+ salt)).
Proof.
  intros Hsalt Hdigest.
  assert (Hsplit : Str.split ":" (hash_password sha256_hexdigest salt password)
                   = [salt; sha256_hexdigest (password +:+ salt)]).
  { unfold hash_password. cbv zeta.
    change (":" +:+ ?h)%string with (String ":" h).
    rewrite (split_at_sep _ _ _ (hexdigits_no_colon _ Hsalt)).
    now rewrite (split_no_sep _ _ (hexdigits_no_colon _ Hdigest)). }
  unfold verify_password. rewrite Hsplit. split.
  - apply String.eqb_refl.
  - intros other. apply String.eqb_eq.
Qed.

(** X20 with the example digest, a random-looking salt and a password that
    holds a colon. *)
Lemma stored_password_verifies_witness :
  let salt := "9f86d081884c7d659a2feaa0c55ad015"%string in
  let password := "pass:word"%string in
  verify_password hex_of_string password
    (Some (hash_password hex_of_string salt password)) = true
  /\ (forall other,
        verify_password hex_of_string other
          (Some (hash_password hex_of_string salt password)) = true
        <-> hex_of_string (other +:+ salt) = hex_of_string (password +:+ salt)).
Proof.
  intros salt password.
  apply (stored_password_verifies hex_of_string salt password);
    vm_compute; reflexivity.
Defined.

(** X21.  A stored value that does not hold exactly one colon (the empty
    default of a user without password among them), or no stored value at
    all, verifies no password. *)
Theorem malformed_stored_hash_verifies_nothing
    (sha256_hexdigest : string -> string) (password : string)
    (stored_hash : option string) :
  (forall stored, stored_hash = Some stored -> count_char ":" stored <> 1) ->
  verify_password sha256_hexdigest password stored_hash = false.
Proof.
  intros H. destruct stored_hash as [stored|]; [|reflexivity].
  specialize (H stored eq_refl). unfold verify_password.
  pose proof (length_split ":" stored) as L.
  destruct (Str.split ":" stored) as [|a [|b [|c parts]]]; try reflexivity.
  cbn [length] in L. lia.
Qed.

(** X21 at a stored value with two colons. *)
Lemma malformed_stored_hash_verifies_nothing_witness :
  verify_password hex_of_string "secret" (Some "ab:cd:ef"%string) = false.
Proof.
  apply (malformed_stored_hash_verifies_nothing hex_of_string).
  intros stored [= <-]. vm_compute. discriminate.
Defined.

(** ** The summary of [analyze_posts_with_ai] *)

Lemma slice_from_app (a b : string) :
  Str.slice_from (String.length a) (a +:+ b) = b.
Proof. induction a as [|c a IH]; [now destruct b|exact IH]. Qed.

Lemma substring_app (a b : string) :
  String.substring 0 (String.length a) (a +:+ b) = a.
Proof.
  induction a as [|c a IH]; [now destruct b|].
  cbn [String.length String.append String.substring]. now rewrite IH.
Qed.

Lemma slice_from_suffix (n : nat) (s : string) :
  exists a, s = a +:+ Str.slice_from n s.
Proof.
  revert s. induction n as [|n IH]; intros s.
  - exists ""%string. now destruct s.
  - destruct s as [|c s]; [now exists ""%string|].
    destruct (IH s) as [a Ha]. exists (String c a).
    cbn [Str.slice_from String.append]. now rewrite <- Ha.
Qed.

Lemma endswith_app (a suffix : string) : Str.endswith (a +:+ suffix) suffix = true.
Proof.
  unfold Str.endswith. rewrite string_length_app.
  replace (String.length a + String.length suffix - String.length suffix)
    with (String.length a) by lia.
  rewrite slice_from_app, String.eqb_refl, andb_true_r.
  apply Nat.leb_le. lia.
Qed.

Lemma endswith_suffix (s suffix : string) :
  Str.endswith s suffix = true -> exists a, s = a +:+ suffix.
Proof.
  unfold Str.endswith. intros [_ E]%andb_true_iff.
  apply String.eqb_eq in E.
  destruct (slice_from_suffix (String.length s - String.length suffix) s)
    as [a Ha].
  exists a. now rewrite <- E.
Qed.

Lemma drop_last_app (a suffix : string) :
  Str.drop_last (String.length suffix) (a +:+ suffix) = a.
Proof.
  unfold Str.drop_last. rewrite string_length_app.
  replace (String.length a + String.length suffix - String.length suffix)
    with (String.length a) by lia.
  apply substring_app.
Qed.

Lemma string_app_last (a b : string) (c d : ascii) :
  a +:+ String c "" = b +:+ String d "" -> c = d.
Proof.
  revert b. induction a as [|x a IH]; intros [|y b] E;
    cbn [String.append] in E.
  - now injection E.
  - injection E as _ E. now destruct b.
  - injection E as _ E. now destruct a.
  - injection E as _ E. exact (IH b E).
Qed.

(** The text of a JSON object is not taken for a fence. *)
Lemma object_text_not_fenced (inner : string) :
  Str.endswith ("{" +:+ inner +:+ "}") "```" = false.
Proof.
  destruct (Str.endswith _ _) eqn:E; [|reflexivity].
  apply endswith_suffix in E as [a Ha].
  change ("{" +:+ inner +:+ "}")%string
    with (String "{" inner +:+ String "}" "")%string in Ha.
  change (a +:+ "```")%string with (a +:+ ("``" +:+ String "`" ""))%string in Ha.
  rewrite <- string_app_assoc in Ha.
  apply string_app_last in Ha. discriminate.
Qed.

Lemma padded_object_not_fence (pattern ws rest : string) :
  all_chars Str.isspace ws = true ->
  In pattern ["```"; "json"]%string ->
  Str.startswith (ws +:+ String "{" rest) pattern = false.
Proof.
  intros Hws Hp. unfold Str.startswith.
  destruct ws as [|c ws].
  - destruct Hp as [<-|[<-|[]]]; reflexivity.
  - cbn [all_chars] in Hws. apply andb_true_iff in Hws as [Hc _].
    destruct Hp as [<-|[<-|[]]]; cbn [String.append Str.after_literal].
    + destruct (Ascii.eqb "`" c) eqn:E; [|reflexivity].
      apply Ascii.eqb_eq in E. subst c. discriminate.
    + destruct (Ascii.eqb "j" c) eqn:E; [|reflexivity].
      apply Ascii.eqb_eq in E. subst c. discriminate.
Qed.

Lemma object_text_trimmed (inner : string) :
  Str.strip ("{" +:+ inner +:+ "}") = ("{" +:+ inner +:+ "}")%string.
Proof.
  apply strip_trimmed; [reflexivity|].
  change ("{" +:+ inner +:+ "}")%string with (String "{" inner +:+ "}")%string.
  now rewrite last_not_app.
Qed.

(** What is left between the fences. *)
Lemma fence_body_not_fence (pattern ws2 inner ws3 : string) :
  all_chars Str.isspace ws2 = true ->
  In pattern ["```"; "json"]%string ->
  Str.startswith (ws2 +:+ ("{" +:+ inner +:+ "}") +:+ ws3 +:+ "```") pattern
  = false.
Proof.
  intros H2 Hp.
  change ("{" +:+ inner +:+ "}")%string
    with (String "{" (inner +:+ "}"))%string.
  change (String "{" (inner +:+ "}") +:+ ws3 +:+ "```")%string
    with (String "{" ((inner +:+ "}") +:+ ws3 +:+ "```"))%string.
  now apply padded_object_not_fence.
Qed.

Lemma closing_fence_is_cut (ws2 inner ws3 : string) :
  all_chars Str.isspace ws2 = true ->
  all_chars Str.isspace ws3 = true ->
  let body := (ws2 +:+ ("{" +:+ inner +:+ "}") +:+ ws3 +:+ "```")%string in
  Str.strip (if Str.endswith body "```" then Str.drop_last 3 body else body)
  = ("{" +:+ inner +:+ "}")%string.
Proof.
  intros H2 H3 body.
  assert (Hbody : body = ((ws2 +:+ ("{" +:+ inner +:+ "}") +:+ ws3) +:+ "```")%string).
  { unfold body. now rewrite !string_app_assoc. }
  rewrite Hbody, endswith_app.
  change 3 with (String.length "```"). rewrite drop_last_app.
  rewrite strip_padding by assumption. apply object_text_trimmed.
Qed.

(** X22.  The text of a JSON object reaches the parser as it is when the
    content holds it bare, inside a [```json] fence or inside a plain [```]
    fence, with any whitespace around the text and around the fences. *)
Theorem object_text_is_unwrapped (ws1 ws2 ws3 ws4 inner : string) :
  all_chars Str.isspace ws1 = true ->
  all_chars Str.isspace ws2 = true ->
  all_chars Str.isspace ws3 = true ->
  all_chars Str.isspace ws4 = true ->
  let payload := ("{" +:+ inner +:+ "}")%string in
  strip_fences (ws1 +:+ payload +:+ ws4) = payload
  /\ strip_fences
       (ws1 +:+ ("```json" +:+ (ws2 +:+ payload +:+ ws3 +:+ "```")) +:+ ws4)
     = payload
  /\ strip_fences
       (ws1 +:+ ("```" +:+ (ws2 +:+ payload +:+ ws3 +:+ "```")) +:+ ws4)
     = payload.
Proof.
  intros H1 H2 H3 H4 payload. unfold strip_fences. cbv zeta.
  assert (Hlast : forall fence,
            last_not Str.isspace (fence +:+ (ws2 +:+ payload +:+ ws3 +:+ "```"))
            = true).
  { intros fence.
    rewrite <- !string_app_assoc. now rewrite last_not_app. }
  split; [|split].
  - rewrite (strip_padding ws1 _ ws4) by assumption.
    unfold payload. rewrite object_text_trimmed.
    change (Str.startswith ("{" +:+ inner +:+ "}") "```json") with false.
    cbv iota.
    change (Str.startswith ("{" +:+ inner +:+ "}") "```") with false.
    cbv iota. rewrite object_text_not_fenced. apply object_text_trimmed.
  - rewrite (strip_padding ws1 _ ws4) by assumption.
    rewrite (strip_trimmed ("```json" +:+ (ws2 +:+ payload +:+ ws3 +:+ "```")));
      [|reflexivity|apply Hlast].
    change (Str.startswith
              ("```json" +:+ (ws2 +:+ payload +:+ ws3 +:+ "```")) "```json")
      with true.
    cbv iota.
    change (Str.slice_from 7 ("```json" +:+ (ws2 +:+ payload +:+ ws3 +:+ "```")))
      with (ws2 +:+ payload +:+ ws3 +:+ "```")%string.
    unfold payload. rewrite (fence_body_not_fence "```") by (assumption || now left).
    now apply closing_fence_is_cut.
  - rewrite (strip_padding ws1 _ ws4) by assumption.
    rewrite (strip_trimmed ("```" +:+ (ws2 +:+ payload +:+ ws3 +:+ "```")));
      [|reflexivity|apply Hlast].
    assert (Hjson : Str.startswith
                      ("```" +:+ (ws2 +:+ payload +:+ ws3 +:+ "```")) "```json"
                    = false).
    { change (Str.startswith
                ("```" +:+ (ws2 +:+ payload +:+ ws3 +:+ "```")) "```json")
        with (Str.startswith (ws2 +:+ payload +:+ ws3 +:+ "```") "json").
      apply fence_body_not_fence; [assumption|right; now left]. }
    rewrite Hjson. cbv iota.
    change (Str.startswith
              ("```" +:+ (ws2 +:+ payload +:+ ws3 +:+ "```")) "```")
      with true.
    cbv iota.
    change (Str.slice_from 3 ("```" +:+ (ws2 +:+ payload +:+ ws3 +:+ "```")))
      with (ws2 +:+ payload +:+ ws3 +:+ "```")%string.
    now apply closing_fence_is_cut.
Qed.

(** X22 at the text of the empty object. *)
Lemma object_text_is_unwrapped_witness :
  strip_fences (" " +:+ "{}" +:+ " ") = "{}"%string
  /\ strip_fences
       (" " +:+ ("```json" +:+ (String "010" "" +:+ "{}" +:+ String "010" ""
                                +:+ "```")) +:+ " ")
     = "{}"%string
  /\ strip_fences
       (" " +:+ ("```" +:+ (String "010" "" +:+ "{}" +:+ String "010" ""
                            +:+ "```")) +:+ " ")
     = "{}"%string.
Proof.
  apply (object_text_is_unwrapped " " (String "010" "") (String "010" "") " "
           ""); reflexivity.
Defined.

Section AnalysisFacts.

Variable json_loads : string -> option Json.
Variable str_of_dict : gmap string Json -> string.
Variable type_error_text : Json -> string.
Variable chat_completion :
  list Post.t -> list PostComments -> string -> string -> Completion.

Lemma no_summary_is_summary (sentiment_summary : string) :
  is_summary (no_summary sentiment_summary).
Proof.
  unfold is_summary, findings_at, no_summary.
  split; [eexists; reflexivity|]. split; [eexists; reflexivity|].
  split; [eexists; reflexivity|].
  split; exists []; (split; [reflexivity|]); (split; [cbn; lia|constructor]).
Qed.

Lemma normalize_item_finding (item normalized : Json) :
  normalize_item str_of_dict item = Some normalized -> is_finding normalized.
Proof.
  destruct item; try discriminate; intros [= <-]; eexists _, _; reflexivity.
Qed.

(** A finding is left as it is. *)
Lemma normalize_item_of_finding (item : Json) :
  is_finding item -> normalize_item str_of_dict item = Some item.
Proof.
  intros (text & evidence & ->). cbn [normalize_item].
  rewrite lookup_insert_eq. rewrite lookup_insert_ne by discriminate.
  now rewrite lookup_insert_eq.
Qed.

Lemma omap_normalize_findings (items : list Json) :
  Forall is_finding items -> omap (normalize_item str_of_dict) items = items.
Proof.
  induction 1 as [|item items Hitem _ IH]; [reflexivity|].
  change (omap (normalize_item str_of_dict) (item :: items))
    with (match normalize_item str_of_dict item with
          | Some y => y :: omap (normalize_item str_of_dict) items
          | None => omap (normalize_item str_of_dict) items
          end).
  now rewrite (normalize_item_of_finding _ Hitem), IH.
Qed.

Lemma normalized_items_are_findings (items : list Json) :
  Forall is_finding (take 5 (omap (normalize_item str_of_dict) items)).
Proof.
  apply Forall_take, Forall_forall. intros x Hx.
  apply list_elem_of_omap in Hx as (item & _ & Hitem).
  exact (normalize_item_finding _ _ Hitem).
Qed.

Lemma normalize_findings_at (field : string) (result : gmap string Json) :
  findings_at field (normalize_findings str_of_dict field result).
Proof.
  unfold findings_at, normalize_findings.
  destruct (result !! field) as [[| | | |items|]|];
    try (exists []; rewrite lookup_insert_eq;
         split; [reflexivity|split; [cbn; lia|constructor]]).
  eexists. rewrite lookup_insert_eq. split; [reflexivity|].
  split; [rewrite length_take; lia|apply normalized_items_are_findings].
Qed.

Lemma normalize_findings_other (field key : string) (result : gmap string Json) :
  key <> field ->
  normalize_findings str_of_dict field result !! key = result !! key.
Proof.
  intros Hne. unfold normalize_findings.
  destruct (result !! field) as [[| | | |items|]|];
    now rewrite lookup_insert_ne.
Qed.

Lemma normalize_findings_fixed (field : string) (result : gmap string Json) :
  findings_at field result ->
  normalize_findings str_of_dict field result = result.
Proof.
  intros (items & Hlookup & Hlen & Hitems). unfold normalize_findings.
  rewrite Hlookup, (omap_normalize_findings _ Hitems).
  rewrite take_ge by lia. now apply insert_id.
Qed.

(** The lookups of a normalized dict. *)
Lemma normalize_result_lookup (result : gmap string Json) (key : string) :
  normalize_result str_of_dict result !! key
  = if (key =? "pain_points")%string
    then normalize_findings str_of_dict "pain_points" result !! "pain_points"
    else if (key =? "wins")%string
    then normalize_findings str_of_dict "wins" result !! "wins"
    else if (key =? "themes")%string
    then match result !! "themes" with
         | Some (JArray themes) => Some (JArray themes)
         | _ => Some (JArray [])
         end
    else if (key =? "sentiment_label")%string
    then match result !! "sentiment_label" with
         | Some label => Some label
         | None => Some (JString "Unknown")
         end
    else if (key =? "sentiment_summary")%string
    then match result !! "sentiment_summary" with
         | Some summary => Some summary
         | None => Some (JString "")
         end
    else result !! key.
Proof.
  unfold normalize_result. cbv zeta.
  set (r1 := normalize_findings str_of_dict "pain_points" result).
  set (r2 := normalize_findings str_of_dict "wins" r1).
  assert (H2 : forall k, k <> "wins"%string -> r2 !! k = r1 !! k).
  { intros k Hk. now apply normalize_findings_other. }
  assert (H1 : forall k, k <> "pain_points"%string -> r1 !! k = result !! k).
  { intros k Hk. now apply normalize_findings_other. }
  assert (Hw : r2 !! "wins"
               = normalize_findings str_of_dict "wins" result !! "wins").
  { unfold r2, normalize_findings.
    rewrite (H1 "wins"%string) by discriminate.
    destruct (result !! "wins") as [[| | | |items|]|];
      now rewrite !lookup_insert_eq. }
  set (r3 := match r2 !! "themes" with
             | Some (JArray _) => r2
             | _ => <["themes" := JArray []]> r2
             end).
  assert (H3 : forall k, k <> "themes"%string -> r3 !! k = r2 !! k).
  { intros k Hk. unfold r3.
    destruct (r2 !! "themes") as [[| | | |items|]|];
      try reflexivity; now rewrite lookup_insert_ne. }
  assert (Ht : r3 !! "themes"
               = match result !! "themes" with
                 | Some (JArray themes) => Some (JArray themes)
                 | _ => Some (JArray [])
                 end).
  { unfold r3. rewrite <- (H1 "themes"%string), <- (H2 "themes"%string)
      by discriminate.
    destruct (r2 !! "themes") as [[| | | |items|]|] eqn:E;
      try (now rewrite lookup_insert_eq). exact E. }
  set (r4 := match r3 !! "sentiment_label" with
             | Some _ => r3
             | None => <["sentiment_label" := JString "Unknown"]> r3
             end).
  assert (H4 : forall k, k <> "sentiment_label"%string -> r4 !! k = r3 !! k).
  { intros k Hk. unfold r4.
    destruct (r3 !! "sentiment_label"); [reflexivity|].
    now rewrite lookup_insert_ne. }
  assert (Hl : r4 !! "sentiment_label"
               = match result !! "sentiment_label" with
                 | Some label => Some label
                 | None => Some (JString "Unknown")
                 end).
  { unfold r4.
    rewrite <- (H1 "sentiment_label"%string), <- (H2 "sentiment_label"%string),
      <- (H3 "sentiment_label"%string) by discriminate.
    destruct (r3 !! "sentiment_label") eqn:E; [exact E|].
    now rewrite lookup_insert_eq. }
  set (r5 := match r4 !! "sentiment_summary" with
             | Some _ => r4
             | None => <["sentiment_summary" := JString ""]> r4
             end).
  assert (H5 : forall k, k <> "sentiment_summary"%string -> r5 !! k = r4 !! k).
  { intros k Hk. unfold r5.
    destruct (r4 !! "sentiment_summary"); [reflexivity|].
    now rewrite lookup_insert_ne. }
  assert (Hs : r5 !! "sentiment_summary"
               = match result !! "sentiment_summary" with
                 | Some summary => Some summary
                 | None => Some (JString "")
                 end).
  { unfold r5.
    rewrite <- (H1 "sentiment_summary"%string),
      <- (H2 "sentiment_summary"%string), <- (H3 "sentiment_summary"%string),
      <- (H4 "sentiment_summary"%string) by discriminate.
    destruct (r4 !! "sentiment_summary") eqn:E; [exact E|].
    now rewrite lookup_insert_eq. }
  destruct (String.eqb_spec key "pain_points") as [->|Np].
  { rewrite H5, H4, H3, H2 by discriminate. reflexivity. }
  destruct (String.eqb_spec key "wins") as [->|Nw].
  { rewrite H5, H4, H3 by discriminate. exact Hw. }
  destruct (String.eqb_spec key "themes") as [->|Nt].
  { rewrite H5, H4 by discriminate. exact Ht. }
  destruct (String.eqb_spec key "sentiment_label") as [->|Nl].
  { rewrite H5 by discriminate. exact Hl. }
  destruct (String.eqb_spec key "sentiment_summary") as [->|Ns].
  { exact Hs. }
  now rewrite H5, H4, H3, H2, H1.
Qed.

Lemma normalize_result_is_summary (result : gmap string Json) :
  is_summary (normalize_result str_of_dict result).
Proof.
  unfold is_summary, findings_at.
  rewrite !normalize_result_lookup.
  cbn [String.eqb Ascii.eqb Bool.eqb].
  split; [destruct (result !! "sentiment_label"); eauto|].
  split; [destruct (result !! "sentiment_summary"); eauto|].
  split; [destruct (result !! "themes") as [[| | | |themes|]|]; eauto|].
  split; apply normalize_findings_at.
Qed.

Lemma normalize_result_fixed (result : gmap string Json) :
  is_summary result -> normalize_result str_of_dict result = result.
Proof.
  intros ([label Hl] & [summary Hs] & [themes Ht] & Hp & Hw).
  unfold normalize_result. cbv zeta.
  rewrite (normalize_findings_fixed _ _ Hp), (normalize_findings_fixed _ _ Hw).
  now rewrite Ht, Hl, Hs.
Qed.

(** X23.  Whatever happens (no API key, a failed call, content that is not
    JSON, JSON that is not an object, an object of any shape), the summary
    holds the keys [sentiment_label] and [sentiment_summary], a list under
    [themes], and under [pain_points] and [wins] lists of at most five
    dicts that hold the keys [text] and [evidence] and nothing else. *)
Theorem analysis_always_has_the_summary_shape (api_key : option string)
    (posts : list Post.t) (post_comments : list PostComments)
    (game_name keywords : string) :
  is_summary
    (analyze_posts_with_ai json_loads str_of_dict type_error_text
       chat_completion api_key posts post_comments game_name keywords).
Proof.
  unfold analyze_posts_with_ai.
  destruct (negb (truthy api_key)); [apply no_summary_is_summary|].
  destruct (chat_completion posts post_comments game_name keywords)
    as [message|content]; [apply no_summary_is_summary|].
  destruct (json_loads (strip_fences content)) as [[| | | |items|result]|];
    try apply no_summary_is_summary.
  apply normalize_result_is_summary.
Qed.

(** X24.  The normalization of a parsed object leaves exactly the dicts of
    the summary shape unchanged, so that normalizing twice is the same as
    normalizing once; and it keeps every other key of the object as it
    is. *)
Theorem normalization_fixes_exactly_the_summaries (result : gmap string Json) :
  (normalize_result str_of_dict result = result <-> is_summary result)
  /\ normalize_result str_of_dict (normalize_result str_of_dict result)
     = normalize_result str_of_dict result
  /\ (forall key,
        ~ In key ["pain_points"; "wins"; "themes"; "sentiment_label";
                  "sentiment_summary"]%string ->
        normalize_result str_of_dict result !! key = result !! key).
Proof.
  split; [split|split].
  - intros E. rewrite <- E. apply normalize_result_is_summary.
  - apply normalize_result_fixed.
  - apply normalize_result_fixed, normalize_result_is_summary.
  - intros key Hkey. rewrite normalize_result_lookup.
    assert (N : forall k,
              In k ["pain_points"; "wins"; "themes"; "sentiment_label";
                    "sentiment_summary"]%string ->
              (key =? k)%string = false).
    { intros k Hk. apply String.eqb_neq. intros ->. exact (Hkey Hk). }
    rewrite !N by (cbn; tauto). reflexivity.
Qed.

End AnalysisFacts.
